(** * indexeddb-cache: the cache service and its date helper

    A shallow embedding of [CacheService] (init, get, put, delete, flush,
    createPersistable, log) and of [DateHelper.dateAdd], together with the
    part of the browser platform the code runs against: ECMAScript time
    values and Date objects, promises, JSON records and an IndexedDB
    database with its object stores. *)

From Stdlib Require Import ZArith String Ascii List Lia Bool.
From Stdlib Require Import Decimal DecimalN DecimalPos DecimalFacts DecimalString.
From stdpp Require Import base option gmap strings pretty.

Open Scope Z_scope.

(** ** ECMAScript time values

    A Date object holds a time value: an integral number of milliseconds
    since the epoch, at most 8.64e15 in magnitude, or NaN (an Invalid Date).
    The time value is modelled by [option Z], [None] standing for NaN.  The
    code computes on doubles; on integer operands that arithmetic is exact
    whenever its result lies in the range [TimeClip] accepts, and a result
    outside that range is NaN either way, so [Z] with [TimeClip] renders
    it faithfully. *)

Module Time.

Definition maxTime : Z := 8640000000000000.

Definition inRange (t : Z) : Prop := - maxTime <= t <= maxTime.

Definition inRangeb (t : Z) : bool := (- maxTime <=? t) && (t <=? maxTime).

Definition TimeClip (t : Z) : option Z :=
  if inRangeb t then Some t else None.

(** A Date object, identified with its time value. *)
Definition Date : Type := option Z.

(** [new Date()] at clock reading [now]. *)
Definition Date_current (now : Z) : Date := Some now.

(** [d.getTime()]: the time value, NaN for an Invalid Date. *)
Definition getTime (d : Date) : option Z := d.

(** [d.setTime(v)] where [v] is the (possibly NaN) number passed in. *)
Definition setTime (_ : Date) (v : option Z) : Date :=
  match v with Some t => TimeClip t | None => None end.

(** Number addition with NaN propagation. *)
Definition plus (a : option Z) (b : Z) : option Z :=
  match a with Some x => Some (x + b) | None => None end.

(** [a <= b] on Dates: both operands are converted to their time values and
    a comparison involving NaN is false. *)
Definition Date_le (a b : Date) : bool :=
  match a, b with
  | Some x, Some y => x <=? y
  | _, _ => false
  end.

(** *** Calendar arithmetic (ECMA-262, Date abstract operations) *)

Definition msPerDay : Z := 86400000.

Definition Day (t : Z) : Z := t / msPerDay.

Definition TimeWithinDay (t : Z) : Z := t mod msPerDay.

Definition MakeDate (day time : Z) : Z := day * msPerDay + time.

Definition DaysInYear (y : Z) : Z :=
  if negb (y mod 4 =? 0) then 365
  else if negb (y mod 100 =? 0) then 366
  else if negb (y mod 400 =? 0) then 365
  else 366.

Definition DayFromYear (y : Z) : Z :=
  365 * (y - 1970) + (y - 1969) / 4 - (y - 1901) / 100 + (y - 1601) / 400.

(** The year a day number falls in: ECMA-262 asks for the largest [y] with
    [DayFromYear y <= d]; it is computed from an estimate that is off by at
    most one ([YearFromDay_spec], [YearFromDay_unique]). *)
Definition YearFromDay (d : Z) : Z :=
  let y := 1970 + (400 * d) / 146097 in
  if d <? DayFromYear y then y - 1
  else if DayFromYear (y + 1) <=? d then y + 1
  else y.

Definition InLeapYear (y : Z) : Z := if DaysInYear y =? 366 then 1 else 0.

Definition DayWithinYear (d : Z) : Z := d - DayFromYear (YearFromDay d).

(** The day within the year on which month [m] (0 to 11) starts. *)
Definition monthStart (m leap : Z) : Z :=
  match m with
  | 0 => 0
  | 1 => 31
  | 2 => 59 + leap
  | 3 => 90 + leap
  | 4 => 120 + leap
  | 5 => 151 + leap
  | 6 => 181 + leap
  | 7 => 212 + leap
  | 8 => 243 + leap
  | 9 => 273 + leap
  | 10 => 304 + leap
  | _ => 334 + leap
  end.

Definition MonthFromDay (d : Z) : Z :=
  let w := DayWithinYear d in
  let leap := InLeapYear (YearFromDay d) in
  if w <? 31 then 0
  else if w <? 59 + leap then 1
  else if w <? 90 + leap then 2
  else if w <? 120 + leap then 3
  else if w <? 151 + leap then 4
  else if w <? 181 + leap then 5
  else if w <? 212 + leap then 6
  else if w <? 243 + leap then 7
  else if w <? 273 + leap then 8
  else if w <? 304 + leap then 9
  else if w <? 334 + leap then 10
  else 11.

Definition DateFromDay (d : Z) : Z :=
  DayWithinYear d
  - monthStart (MonthFromDay d) (InLeapYear (YearFromDay d)) + 1.

Definition YearFromTime (t : Z) : Z := YearFromDay (Day t).
Definition MonthFromTime (t : Z) : Z := MonthFromDay (Day t).
Definition DateFromTime (t : Z) : Z := DateFromDay (Day t).

(** [MakeDay(year, month, date)]: the day number of the first day of the
    month [month mod 12] of the year [year + floor(month / 12)], plus
    [date - 1]. *)
Definition MakeDay (year month date : Z) : Z :=
  let ym := year + month / 12 in
  let mn := month mod 12 in
  DayFromYear ym + monthStart mn (InLeapYear ym) + date - 1.

(** Number of days of month [m] (0 to 11) in a year with leap flag [leap]. *)
Definition DaysInMonth (m leap : Z) : Z :=
  match m with
  | 1 => 28 + leap
  | 3 | 5 | 8 | 10 => 30
  | _ => 31
  end.

End Time.

(** ** JSON values and the platform's text codecs *)

#[local] Set Warnings "-register-all".

Inductive json : Type :=
  | JNull
  | JBool (b : bool)
  | JNum (n : Z)
  | JStr (s : string)
  | JArr (items : list json)
  | JObj (fields : list (string * json)).

(** A JavaScript value as far as the cache handles one: a JSON value or
    [undefined] ([None]). *)
Definition value : Type := option json.

Definition undefined : value := None.

(** Not every term of [json] is a value JavaScript can hold.  A number is
    an integer a double represents exactly.  An object has each property
    name once, and keeps its names in property order: the array indices
    first, ascending, then the other names. *)

(** The array index a property name stands for, if any: the canonical
    decimal text of an integer below 2^32 - 1. *)
Definition array_index (s : string) : option N :=
  match NilEmpty.uint_of_string s with
  | Some u =>
      let n := N.of_uint u in
      if String.eqb (NilEmpty.string_of_uint (N.to_uint n)) s
         && (n <? 4294967295)%N
      then Some n else None
  | None => None
  end.

Fixpoint property_order (lo : N) (keys : list string) : bool :=
  match keys with
  | [] => true
  | k :: rest =>
      match array_index k with
      | Some n => (lo <=? n)%N && property_order (n + 1) rest
      | None =>
          forallb (fun k' => negb (bool_decide (is_Some (array_index k')))) rest
      end
  end.

Definition maxSafeInteger : Z := 9007199254740991.

Fixpoint well_formed (j : json) : bool :=
  match j with
  | JNum n => (- maxSafeInteger <=? n) && (n <=? maxSafeInteger)
  | JArr items => forallb well_formed items
  | JObj fields =>
      bool_decide (NoDup (map fst fields))
      && property_order 0 (map fst fields)
      && forallb (fun f => well_formed (snd f)) fields
  | _ => true
  end.

(** The values [put] can be given: [undefined] or a well-formed JSON
    value. *)
Definition serializable (v : value) : Prop :=
  match v with
  | Some j => well_formed j = true
  | None => True
  end.

(** The text codecs of the platform.  [JSON.parse] raises a SyntaxError on
    text that is not JSON ([None]); [Date.parse] answers NaN ([None]) on
    text it does not recognise; [LocalTZA t isUTC] is the offset of local
    time, in milliseconds.  The laws are those ECMA-262 states: parsing
    inverts printing on the values JavaScript can hold, the empty text is
    not JSON, and the ISO rendering of a time value parses back to it. *)
Class Platform : Type := {
  JSON_stringify : json -> string;
  JSON_parse : string -> option json;
  toISOString : Z -> string;
  Date_parse : string -> option Z;
  LocalTZA : Z -> bool -> Z;
  JSON_parse_stringify :
    forall j, well_formed j = true -> JSON_parse (JSON_stringify j) = Some j;
  JSON_parse_empty : JSON_parse "" = None;
  Date_parse_toISOString :
    forall t, Time.inRange t -> Date_parse (toISOString t) = Some t
}.

(** ** Promises

    A promise settles at the first call of [resolve] or [reject]; later
    calls have no effect.  An operation is modelled by the calls its
    executor and callbacks make, in order, and the promise's state is read
    off that list.  An exception thrown by the executor is a [reject] with
    the exception; with no call at all the promise stays pending. *)

Inductive Reason : Type :=
  | Message (s : string)       (* a string passed to reject *)
  | ReasonFalse                (* the boolean false passed to reject *)
  | Thrown (name : string).    (* an exception, by its name *)

Inductive Call (A : Type) : Type :=
  | resolve (a : A)
  | reject (r : Reason).

Arguments resolve {A} a.
Arguments reject {A} r.

Inductive Promise (A : Type) : Type :=
  | Pending
  | Fulfilled (a : A)
  | Rejected (r : Reason).

Arguments Pending {A}.
Arguments Fulfilled {A} a.
Arguments Rejected {A} r.

Definition settle {A : Type} (calls : list (Call A)) : Promise A :=
  match calls with
  | [] => Pending
  | resolve a :: _ => Fulfilled a
  | reject r :: _ => Rejected r
  end.

(** ** IndexedDB

    The origin's databases by name; a database has a version and object
    stores by name; an object store maps keys to stored values.  The cache
    stores strings only.  [console] collects what [console.log] prints. *)

Abbreviation ObjectStore := (gmap string string).

Record IDBDatabaseState : Type := {
  version : Z;
  objectStores : gmap string ObjectStore
}.

Record World : Type := {
  databases : gmap string IDBDatabaseState;
  console : list string
}.

(** A connection, as returned by a successful open request. *)
Record IDBDatabase : Type := { name : string }.

(** How the storage engine answers a request: with a success event or with
    an error event. *)
Inductive Outcome : Type := Success | Failure.

Definition console_log (msg : string) (w : World) : World :=
  {| databases := databases w; console := console w ++ [msg] |}.

(** [db.transaction([store], mode).objectStore(store)]: raises
    InvalidStateError when the database is gone and NotFoundError when it
    has no object store of that name. *)
Definition transaction (w : World) (h : IDBDatabase) (store : string)
  : Reason + ObjectStore :=
  match databases w !! name h with
  | None => inl (Thrown "InvalidStateError")
  | Some d =>
      match objectStores d !! store with
      | None => inl (Thrown "NotFoundError")
      | Some st => inr st
      end
  end.

(** The effect of a successful write request: the object store's new
    contents. *)
Definition commit (w : World) (h : IDBDatabase) (store : string)
    (st : ObjectStore) : World :=
  {| databases :=
       alter (fun d => {| version := version d;
                          objectStores := <[store := st]> (objectStores d) |})
             (name h) (databases w);
     console := console w |}.

Definition maxVersion : Z := 9007199254740991.

(** What an open request leads to. *)
Inductive OpenResult : Type :=
  | OpenThrows (r : Reason)     (* indexedDB.open itself raised *)
  | OpenError                   (* error event on the request *)
  | OpenSuccess (h : IDBDatabase).

(** [indexedDB.open(name, version)] with the request's upgrade handler.  The
    version must be an integer from 1 to 2^53 - 1.  A database that does not
    exist yet has version 0.  Asking for a version below the current one is
    a VersionError; asking for a higher one runs the handler on the
    database (now at the new version) before the success event.  The
    outcome is the event the request ends with: a request that the engine
    keeps waiting, because another connection to the database stays open
    while an upgrade is due, has not ended, and a promise that waits for
    it is pending meanwhile. *)
Definition indexedDB_open (w : World) (nm : string) (ver : Z) (o : Outcome)
    (onupgradeneeded : Z -> Z -> IDBDatabase -> World -> World)
  : OpenResult * World :=
  if negb ((1 <=? ver) && (ver <=? maxVersion)) then
    (OpenThrows (Thrown "TypeError"), w)
  else
    let current := from_option version 0 (databases w !! nm) in
    let stores := from_option objectStores ∅ (databases w !! nm) in
    if ver <? current then (OpenError, w)
    else
      match o with
      | Failure => (OpenError, w)
      | Success =>
          let h := {| name := nm |} in
          if current <? ver then
            let w1 := {| databases :=
                           <[nm := {| version := ver; objectStores := stores |}]>
                             (databases w);
                         console := console w |} in
            (OpenSuccess h, onupgradeneeded current ver h w1)
          else (OpenSuccess h, w)
      end.

(** [db.objectStoreNames.contains(store)] *)
Definition objectStoreNames_contains (w : World) (h : IDBDatabase)
    (store : string) : bool :=
  match databases w !! name h with
  | Some d => bool_decide (is_Some (objectStores d !! store))
  | None => false
  end.

(** [db.deleteObjectStore(store)] *)
Definition deleteObjectStore (w : World) (h : IDBDatabase) (store : string)
  : World :=
  {| databases :=
       alter (fun d => {| version := version d;
                          objectStores := delete store (objectStores d) |})
             (name h) (databases w);
     console := console w |}.

(** [db.createObjectStore(store)]: a new, empty object store. *)
Definition createObjectStore (w : World) (h : IDBDatabase) (store : string)
  : World := commit w h store ∅.

(** ** Reading a stored record back *)

(** [o.p] for a parsed JSON value [o] and one of the property names the
    cache reads, "value" or "expiration": reading a property of [null]
    raises a TypeError, primitives and arrays have no such property. *)
Definition Get (o : json) (p : string) : Reason + value :=
  match o with
  | JNull => inl (Thrown "TypeError")
  | JObj fields => inr (snd <$> List.find (fun f => String.eqb (fst f) p) fields)
  | _ => inr undefined
  end.

(** [String(j)] for a value that came out of [JSON.parse]; numbers are
    integers here and print in decimal. *)
Fixpoint ToString (j : json) : string :=
  match j with
  | JNull => "null"
  | JBool true => "true"
  | JBool false => "false"
  | JNum n => pretty n
  | JStr s => s
  | JArr items =>
      (fix join (l : list json) : string :=
         match l with
         | [] => ""
         | x :: rest =>
             (match x with JNull => "" | _ => ToString x end) +:+
             (match rest with [] => "" | _ => "," +:+ join rest end)
         end) items
  | JObj _ => "[object Object]"
  end.

Section Records.

Context `{Platform}.

(** [new Date(s)] for a string [s]. *)
Definition Date_of_string (s : string) : Time.Date :=
  Date_parse s ≫= Time.TimeClip.

Definition LocalTime (t : Z) : Z := t + LocalTZA t true.

Definition UTC (t : Z) : Z := t - LocalTZA t false.

Definition getFullYear (d : Time.Date) : option Z :=
  (fun t => Time.YearFromTime (LocalTime t)) <$> d.

Definition getMonth (d : Time.Date) : option Z :=
  (fun t => Time.MonthFromTime (LocalTime t)) <$> d.

Definition getDate (d : Time.Date) : option Z :=
  (fun t => Time.DateFromTime (LocalTime t)) <$> d.

(** [d.setFullYear(y)]: an Invalid Date counts as local time +0. *)
Definition setFullYear (d : Time.Date) (y : option Z) : Time.Date :=
  let t := match d with Some tv => LocalTime tv | None => 0 end in
  match y with
  | None => None
  | Some y =>
      Time.TimeClip
        (UTC (Time.MakeDate
                (Time.MakeDay y (Time.MonthFromTime t) (Time.DateFromTime t))
                (Time.TimeWithinDay t)))
  end.

(** [d.setMonth(m)] *)
Definition setMonth (d : Time.Date) (m : option Z) : Time.Date :=
  match d, m with
  | Some tv, Some m =>
      let t := LocalTime tv in
      Time.TimeClip
        (UTC (Time.MakeDate
                (Time.MakeDay (Time.YearFromTime t) m (Time.DateFromTime t))
                (Time.TimeWithinDay t)))
  | _, _ => None
  end.

(** [d.setDate(dt)] *)
Definition setDate (d : Time.Date) (dt : option Z) : Time.Date :=
  match d, dt with
  | Some tv, Some dt =>
      let t := LocalTime tv in
      Time.TimeClip
        (UTC (Time.MakeDate
                (Time.MakeDay (Time.YearFromTime t) (Time.MonthFromTime t) dt)
                (Time.TimeWithinDay t)))
  | _, _ => None
  end.

(** [new Date(v)] for a value read from a parsed record. *)
Definition new_Date (v : value) : Time.Date :=
  match v with
  | None => None
  | Some JNull => Some 0
  | Some (JBool b) => Some (if b then 1 else 0)
  | Some (JNum n) => Time.TimeClip n
  | Some (JStr s) => Date_of_string s
  | Some j => Date_of_string (ToString j)
  end.

(** [Date.prototype.toJSON], as [JSON.stringify] applies it to a Date
    property: the ISO text, or [null] for an Invalid Date. *)
Definition Date_toJSON (d : Time.Date) : json :=
  match d with
  | Some t => JStr (toISOString t)
  | None => JNull
  end.

(** [JSON.stringify({ value: data, expiration: expire })]: a property
    whose value is [undefined] is left out. *)
Definition stringify_record (data : value) (expire : Time.Date) : string :=
  JSON_stringify
    (JObj (match data with Some j => [("value"%string, j)] | None => [] end
           ++ [("expiration"%string, Date_toJSON expire)])).

End Records.

(** ** DateHelper (src/src/helpers/DateHelper.ts) *)

Module DateHelper.

(** Modelled from the spec: the enumeration [DateInterval] is declared in
    "../enums", which is not among the sources; its members are the eight
    interval names the specification and the doc comment of [dateAdd]
    list. *)
Inductive DateInterval : Type :=
  | year | quarter | month | week | day | hour | minute | second.

Section Helper.

Context `{Platform}.

(** [dateAdd(date, interval, units)].  The interval argument is a member
    of the enumeration or, with [None], a value equal to none of them, for
    which the switch takes its default branch.  [None] as result is
    [undefined]. *)
Definition dateAdd (date : string) (interval : option DateInterval)
    (units : Z) : option Time.Date :=
  let ret := Date_of_string date in
  match interval with
  | Some year => Some (setFullYear ret (Time.plus (getFullYear ret) units))
  | Some quarter => Some (setMonth ret (Time.plus (getMonth ret) (3 * units)))
  | Some month => Some (setMonth ret (Time.plus (getMonth ret) units))
  | Some week => Some (setDate ret (Time.plus (getDate ret) (7 * units)))
  | Some day => Some (setDate ret (Time.plus (getDate ret) units))
  | Some hour =>
      Some (Time.setTime ret (Time.plus (Time.getTime ret) (units * 3600000)))
  | Some minute =>
      Some (Time.setTime ret (Time.plus (Time.getTime ret) (units * 60000)))
  | Some second =>
      Some (Time.setTime ret (Time.plus (Time.getTime ret) (units * 1000)))
  | None => None
  end.

End Helper.

End DateHelper.

(** ** CacheService (src/unnamed/part_001) *)

Module CacheService.

Section Service.

Context `{Platform}.

Record t : Type := {
  dbName : string;
  dbVersion : Z;
  verbose : bool;
  db : option IDBDatabase
}.

Definition storeName : string := "CacheStore".

(** [new CacheService(dbName, dbVersion = 1, verbose = false)] *)
Definition constructor (dbName : string) (dbVersion : option Z)
    (verbose : option bool) : t :=
  {| dbName := dbName;
     dbVersion := default 1 dbVersion;
     verbose := default false verbose;
     db := None |}.

(** [log]: prints only when the service is verbose. *)
Definition log (this : t) (message : string) (w : World) : World :=
  if verbose this then console_log message w else w.

(** The [onupgradeneeded] handler installed by [init]. *)
Definition onupgradeneeded (this : t) (oldVersion newVersion : Z)
    (h : IDBDatabase) (w : World) : World :=
  let w1 :=
    if objectStoreNames_contains w h storeName then
      deleteObjectStore
        (log this ("Clearing out version " +:+ pretty oldVersion +:+ " cache") w)
        h storeName
    else w in
  createObjectStore
    (log this ("Creating version " +:+ pretty newVersion +:+ " cache") w1)
    h storeName.

(** [init()]: answers true at once when a connection is cached; otherwise
    opens the database, keeps the connection on success and rejects with
    [false] on an error event. *)
Definition init (o : Outcome) (w : World) (this : t)
  : Promise bool * World * t :=
  match db this with
  | Some _ => (Fulfilled true, w, this)
  | None =>
      match indexedDB_open w (dbName this) (dbVersion this) o
              (onupgradeneeded this) with
      | (OpenThrows e, w') => (settle [reject e], w', this)
      | (OpenError, w') => (settle [reject ReasonFalse], w', this)
      | (OpenSuccess h, w') =>
          (settle [resolve true], w',
           {| dbName := dbName this; dbVersion := dbVersion this;
              verbose := verbose this; db := Some h |})
      end
  end.

(** [delete(cacheKey)] *)
Definition delete (o : Outcome) (w : World) (this : t) (cacheKey : string)
  : Promise unit * World :=
  match db this with
  | None => (settle [reject (Message "Database doesn't exist.")], w)
  | Some h =>
      match transaction w h storeName with
      | inl e => (settle [reject e], w)
      | inr store =>
          match o with
          | Failure =>
              (settle [reject (Message "Failed to delete cache: [object Event]")],
               log this "Failed to delete cache: [object Event]" w)
          | Success =>
              (settle [resolve ()],
               log this ("Successfully stored " +:+ cacheKey +:+ " cache data")
                 (commit w h storeName (base.delete cacheKey store)))
          end
      end
  end.

(** The calls made on the promise of [get(cacheKey)], and the world the
    operation leaves.  [o] answers the read request and [odel] the delete
    request issued for an expired record.  A record found is truthy unless
    it is the empty string.  An exception inside the success handler
    ([JSON.parse] on text that is not JSON, a property read on [null])
    leaves the promise without a call.  On the expired path the handler
    calls [resolve(undefined)] and runs on to [resolve(storeObj.value)]. *)
Definition get_calls (now : Z) (o odel : Outcome) (w : World) (this : t)
    (cacheKey : string) : list (Call value) * World :=
  match db this with
  | None => ([reject (Message "Database doesn't exist.")], w)
  | Some h =>
      match transaction w h storeName with
      | inl e => ([reject e], w)
      | inr store =>
          match o with
          | Failure =>
              ([reject (Message ("Error getting cached data " +:+ cacheKey))], w)
          | Success =>
              match store !! cacheKey with
              | Some result =>
                  if String.eqb result "" then
                    ([reject (Message ("Nothing found for " +:+ cacheKey))], w)
                  else
                    match JSON_parse result with
                    | None => ([], w)
                    | Some storeObj =>
                        match Get storeObj "expiration", Get storeObj "value" with
                        | inr expiration, inr v =>
                            if Time.Date_le (new_Date expiration)
                                            (Time.Date_current now)
                            then ([resolve undefined; resolve v],
                                  snd (delete odel w this cacheKey))
                            else ([resolve v], w)
                        | _, _ => ([], w)
                        end
                    end
              | None =>
                  ([reject (Message ("Nothing found for " +:+ cacheKey))], w)
              end
          end
      end
  end.

(** [get(cacheKey)]: the promise and the world after it. *)
Definition get (now : Z) (o odel : Outcome) (w : World) (this : t)
    (cacheKey : string) : Promise value * World :=
  let '(calls, w') := get_calls now o odel w this cacheKey in
  (settle calls, w').

(** [createPersistable(data, expire?)]: without [expire], the current time
    plus one hour. *)
Definition createPersistable (now : Z) (data : value)
    (expire : option Time.Date) : string :=
  let expire :=
    match expire with
    | None =>
        let expire := Time.Date_current now in
        Time.setTime expire (Time.plus (Time.getTime expire) (1 * 3600000))
    | Some d => d
    end in
  stringify_record data expire.

(** [put(cacheKey, data, expire?)] *)
Definition put (now : Z) (o : Outcome) (w : World) (this : t)
    (cacheKey : string) (data : value) (expire : option Time.Date)
  : Promise bool * World :=
  match db this with
  | None => (settle [reject (Message "Database doesn't exist.")], w)
  | Some h =>
      match transaction w h storeName with
      | inl e => (settle [reject e], w)
      | inr store =>
          let record := createPersistable now data expire in
          match o with
          | Failure =>
              (settle [resolve false],
               log this "Failed to store data cache: [object Event]" w)
          | Success =>
              (settle [resolve true],
               log this ("Successfully stored " +:+ cacheKey +:+ " cache data")
                 (commit w h storeName (<[cacheKey := record]> store)))
          end
      end
  end.

(** [flush()] *)
Definition flush (o : Outcome) (w : World) (this : t) : Promise unit * World :=
  match db this with
  | None => (settle [reject (Message "Database doesn't exist.")], w)
  | Some h =>
      match transaction w h storeName with
      | inl e => (settle [reject e], w)
      | inr store =>
          match o with
          | Failure =>
              (settle [reject (Message "Failed to clear cache: [object Event]")],
               log this "Failed to clear cache: [object Event]" w)
          | Success =>
              (settle [resolve ()],
               log this "Successfully cleared cache store"
                 (commit w h storeName ∅))
          end
      end
  end.

End Service.

End CacheService.

(** ** The revised CacheService (src/README.md, second document)

    The sources hold a second copy of the class.  It differs from the first
    in two places: [get] takes a [throwError] flag, and [createPersistable]
    takes its default expiration from [DateHelper.dateAdd(Date(), hour, 1)].
    The other methods are the same text. *)

Module CacheServiceRevised.

Section Service.

Context `{Platform}.

Import CacheService.

(** Calls made on the promise of [get(cacheKey, throwError = true)]. *)
Definition get_calls (now : Z) (o odel : Outcome) (w : World) (this : t)
    (cacheKey : string) (throwError : option bool)
  : list (Call value) * World :=
  let throwError := default true throwError in
  let miss : list (Call value) :=
    if throwError
    then [reject (Message ("Nothing found for " +:+ cacheKey))]
    else [resolve undefined] in
  match db this with
  | None => ([reject (Message "Database doesn't exist.")], w)
  | Some h =>
      match transaction w h storeName with
      | inl e => ([reject e], w)
      | inr store =>
          match o with
          | Failure =>
              ([reject (Message ("Error getting cached data " +:+ cacheKey))], w)
          | Success =>
              match store !! cacheKey with
              | Some result =>
                  if String.eqb result "" then (miss, w)
                  else
                    match JSON_parse result with
                    | None => ([], w)
                    | Some storeObj =>
                        match Get storeObj "expiration", Get storeObj "value" with
                        | inr expiration, inr v =>
                            if Time.Date_le (new_Date expiration)
                                            (Time.Date_current now)
                            then ([resolve undefined; resolve v],
                                  snd (delete odel w this cacheKey))
                            else ([resolve v], w)
                        | _, _ => ([], w)
                        end
                    end
              | None => (miss, w)
              end
          end
      end
  end.

Definition get (now : Z) (o odel : Outcome) (w : World) (this : t)
    (cacheKey : string) (throwError : option bool) : Promise value * World :=
  let '(calls, w') := get_calls now o odel w this cacheKey throwError in
  (settle calls, w').

(** [createPersistable(data, expire?)].  [today] is the text [Date()]
    returns at the time of the call. *)
Definition createPersistable (today : string) (data : value)
    (expire : option Time.Date) : string :=
  let expire :=
    match expire with
    | None => DateHelper.dateAdd today (Some DateHelper.hour) 1
    | Some d => Some d
    end in
  match expire with
  | Some d => stringify_record data d
  | None => JSON_stringify
              (JObj (match data with Some j => [("value"%string, j)] | None => [] end))
  end.

(** [put(cacheKey, data, expire?)]: the text of the first copy, calling
    the revised [createPersistable]. *)
Definition put (today : string) (o : Outcome) (w : World) (this : t)
    (cacheKey : string) (data : value) (expire : option Time.Date)
  : Promise bool * World :=
  match db this with
  | None => (settle [reject (Message "Database doesn't exist.")], w)
  | Some h =>
      match transaction w h storeName with
      | inl e => (settle [reject e], w)
      | inr store =>
          let record := createPersistable today data expire in
          match o with
          | Failure =>
              (settle [resolve false],
               log this "Failed to store data cache: [object Event]" w)
          | Success =>
              (settle [resolve true],
               log this ("Successfully stored " +:+ cacheKey +:+ " cache data")
                 (commit w h storeName (<[cacheKey := record]> store)))
          end
      end
  end.

End Service.

End CacheServiceRevised.

(** ** The states the claims speak about *)

Section States.

Context `{Platform}.

Import CacheService.

(** The service holds a connection and the connected database has the
    cache's object store, with contents [st]. *)
Definition Ready (w : World) (this : CacheService.t) (st : ObjectStore)
  : Prop :=
  exists h, db this = Some h /\ transaction w h storeName = inr st.

(** Whenever the service holds a connection, the connected database has
    the cache's object store. *)
Definition store_present (w : World) (this : CacheService.t) : Prop :=
  forall h, db this = Some h ->
    exists st, transaction w h storeName = inr st.

(** Every database of the origin has the cache's object store: the origin
    holds no database but those the cache made. *)
Definition cache_only (w : World) : Prop :=
  forall n d, databases w !! n = Some d ->
    is_Some (objectStores d !! storeName).

(** The calls a client can make, each with the clock reading and the
    engine's answers at the time, and the state a call leaves. *)
Inductive Operation : Type :=
  | CallInit (o : Outcome)
  | CallGet (now : Z) (o odel : Outcome) (cacheKey : string)
  | CallPut (now : Z) (o : Outcome) (cacheKey : string) (data : value)
      (expire : option Time.Date)
  | CallDelete (o : Outcome) (cacheKey : string)
  | CallFlush (o : Outcome).

Definition run (op : Operation) (w : World) (this : CacheService.t)
  : World * CacheService.t :=
  match op with
  | CallInit o => (snd (fst (init o w this)), snd (init o w this))
  | CallGet now o odel cacheKey => (snd (get now o odel w this cacheKey), this)
  | CallPut now o cacheKey data expire =>
      (snd (put now o w this cacheKey data expire), this)
  | CallDelete o cacheKey => (snd (delete o w this cacheKey), this)
  | CallFlush o => (snd (flush o w this), this)
  end.

(** The states a service gets into from [w0], where it is constructed. *)
Inductive reachable (w0 : World) (this0 : CacheService.t)
  : World -> CacheService.t -> Prop :=
  | reachable_start : reachable w0 this0 w0 this0
  | reachable_step op w this :
      reachable w0 this0 w this ->
      reachable w0 this0 (fst (run op w this)) (snd (run op w this)).

(** What a stored record holds, as [get] reads it: the value and the Date
    made from the expiration. *)
Definition entry_of (record : string) : option (value * Time.Date) :=
  match JSON_parse record with
  | Some storeObj =>
      match Get storeObj "expiration", Get storeObj "value" with
      | inr expiration, inr v => Some (v, new_Date expiration)
      | _, _ => None
      end
  | None => None
  end.

(** Two services that differ at most in the verbose flag, and two worlds
    that differ at most in what was printed. *)
Definition same_but_verbose (a b : CacheService.t) : Prop :=
  dbName a = dbName b /\ dbVersion a = dbVersion b /\ db a = db b.

Definition same_store (w1 w2 : World) : Prop := databases w1 = databases w2.

End States.

(** ** Shifting a timestamp, as the specification words it

    What "the timestamp shifted by [units] intervals in local time" is,
    stated without the Date methods: seconds, minutes and hours add
    milliseconds to the time value; days and weeks add whole days to the
    local time; months, quarters and years move the local time to the
    month that many months later, at the same day of the month (counted
    on from the first of that month) and the same time of day. *)

Section Shift.

Context `{Platform}.

Import Time.

(** Months since year 0 of the month a local time falls in. *)
Definition monthIndex (lt : Z) : Z := 12 * YearFromTime lt + MonthFromTime lt.

(** Day number of the first day of the month with index [i]. *)
Definition firstDayOfMonth (i : Z) : Z :=
  DayFromYear (i / 12) + monthStart (i mod 12) (InLeapYear (i / 12)).

Definition addMonths (lt n : Z) : Z :=
  MakeDate (firstDayOfMonth (monthIndex lt + n) + (DateFromTime lt - 1))
           (TimeWithinDay lt).

Definition addDays (lt n : Z) : Z := lt + n * msPerDay.

Definition shifted (i : DateHelper.DateInterval) (t units : Z) : Z :=
  match i with
  | DateHelper.year => UTC (addMonths (LocalTime t) (12 * units))
  | DateHelper.quarter => UTC (addMonths (LocalTime t) (3 * units))
  | DateHelper.month => UTC (addMonths (LocalTime t) units)
  | DateHelper.week => UTC (addDays (LocalTime t) (7 * units))
  | DateHelper.day => UTC (addDays (LocalTime t) units)
  | DateHelper.hour => t + units * 3600000
  | DateHelper.minute => t + units * 60000
  | DateHelper.second => t + units * 1000
  end.

End Shift.

(** ** Sequences of calls *)

Section Sequences.

Context `{Platform}.

(** A client's calls, one after the other. *)
Fixpoint run_all (ops : list Operation) (w : World) (this : CacheService.t)
  : World * CacheService.t :=
  match ops with
  | [] => (w, this)
  | op :: rest => run_all rest (fst (run op w this)) (snd (run op w this))
  end.

(** The calls whose put, if any, is given a serializable value. *)
Definition puts_serializable (op : Operation) : Prop :=
  match op with
  | CallPut _ _ _ data _ => serializable data
  | _ => True
  end.

(** Every record of the object store is one [get] can read: JSON text of a
    value that has properties. *)
Definition readable (st : ObjectStore) : Prop :=
  forall k record, st !! k = Some record -> is_Some (entry_of record).

(** The object store [s] of the database [n], if there is one. *)
Definition object_store (w : World) (n s : string) : option ObjectStore :=
  databases w !! n ≫= fun d => objectStores d !! s.

(** The database a call of the service can touch: the one it is connected
    to or, before that, the one its name stands for. *)
Definition target (this : CacheService.t) : string :=
  match CacheService.db this with
  | Some h => name h
  | None => CacheService.dbName this
  end.

(** Every object store of the cache, in any database, holds readable
    records only. *)
Definition stores_readable (w : World) : Prop :=
  forall n d st, databases w !! n = Some d ->
    objectStores d !! CacheService.storeName = Some st -> readable st.

End Sequences.

(** ** A reference platform

    One implementation of the platform's codecs, to run the model on
    concrete inputs: [JSON.stringify] and a strict [JSON.parse] on the JSON
    values above, [toISOString] and a [Date.parse] that recognises its
    format, and a local time at a fixed offset from UTC. *)

Module Reference.

Definition quote : ascii := "034"%char.

Definition hex_char (n : N) : ascii :=
  ascii_of_N (if (n <? 10)%N then 48 + n else 87 + n)%N.

Definition hex_of (c : ascii) : option N :=
  let n := N_of_ascii c in
  if ((48 <=? n) && (n <=? 57))%N then Some (n - 48)%N
  else if ((97 <=? n) && (n <=? 102))%N then Some (n - 87)%N
  else if ((65 <=? n) && (n <=? 70))%N then Some (n - 55)%N
  else None.

(** One character of a string literal, as [JSON.stringify] writes it. *)
Definition escape_char (c : ascii) (k : string) : string :=
  let n := N_of_ascii c in
  if Ascii.eqb c quote then String "\" (String quote k)
  else if Ascii.eqb c "\" then String "\" (String "\" k)
  else if (n =? 8)%N then String "\" (String "b" k)
  else if (n =? 9)%N then String "\" (String "t" k)
  else if (n =? 10)%N then String "\" (String "n" k)
  else if (n =? 12)%N then String "\" (String "f" k)
  else if (n =? 13)%N then String "\" (String "r" k)
  else if (n <? 32)%N then
    String "\" (String "u" (String "0" (String "0"
      (String (hex_char (n / 16)) (String (hex_char (n mod 16)) k)))))
  else String c k.

Fixpoint print_string (s : string) (k : string) : string :=
  match s with
  | EmptyString => String quote k
  | String c r => escape_char c (print_string r k)
  end.

Fixpoint print_uint (u : uint) (k : string) : string :=
  match u with
  | Nil => k
  | D0 u => String "0" (print_uint u k)
  | D1 u => String "1" (print_uint u k)
  | D2 u => String "2" (print_uint u k)
  | D3 u => String "3" (print_uint u k)
  | D4 u => String "4" (print_uint u k)
  | D5 u => String "5" (print_uint u k)
  | D6 u => String "6" (print_uint u k)
  | D7 u => String "7" (print_uint u k)
  | D8 u => String "8" (print_uint u k)
  | D9 u => String "9" (print_uint u k)
  end.

Definition print_number (n : Z) (k : string) : string :=
  if n <? 0 then String "-" (print_uint (N.to_uint (Z.to_N (- n))) k)
  else print_uint (N.to_uint (Z.to_N n)) k.

(** [JSON.stringify] on a JSON value, written in front of [k]. *)
Fixpoint print (j : json) (k : string) : string :=
  match j with
  | JNull => String "n" (String "u" (String "l" (String "l" k)))
  | JBool true => String "t" (String "r" (String "u" (String "e" k)))
  | JBool false =>
      String "f" (String "a" (String "l" (String "s" (String "e" k))))
  | JNum n => print_number n k
  | JStr s => String quote (print_string s k)
  | JArr items =>
      String "["
        ((fix print_items (l : list json) : string :=
            match l with
            | [] => String "]" k
            | x :: rest =>
                print x (match rest with
                         | [] => String "]" k
                         | _ => String "," (print_items rest)
                         end)
            end) items)
  | JObj fields =>
      String "{"
        ((fix print_fields (l : list (string * json)) : string :=
            match l with
            | [] => String "}" k
            | (key, x) :: rest =>
                String quote
                  (print_string key
                     (String ":"
                        (print x (match rest with
                                  | [] => String "}" k
                                  | _ => String "," (print_fields rest)
                                  end))))
            end) fields)
  end.

Fixpoint print_items (l : list json) (k : string) : string :=
  match l with
  | [] => String "]" k
  | x :: rest =>
      print x (match rest with
               | [] => String "]" k
               | _ => String "," (print_items rest k)
               end)
  end.

Fixpoint print_fields (l : list (string * json)) (k : string) : string :=
  match l with
  | [] => String "}" k
  | (key, x) :: rest =>
      String quote
        (print_string key
           (String ":"
              (print x (match rest with
                        | [] => String "}" k
                        | _ => String "," (print_fields rest k)
                        end))))
  end.

Definition JSON_stringify (j : json) : string := print j "".

(** A JSON text written with ' in place of the quote character. *)
Fixpoint text (s : string) : string :=
  match s with
  | EmptyString => EmptyString
  | String c r => String (if Ascii.eqb c "'" then quote else c) (text r)
  end.

Fixpoint size (j : json) : nat :=
  match j with
  | JArr items =>
      S ((fix sizes (l : list json) : nat :=
            match l with
            | [] => O
            | x :: rest => S (size x + sizes rest)
            end) items)
  | JObj fields =>
      S ((fix sizes (l : list (string * json)) : nat :=
            match l with
            | [] => O
            | (_, x) :: rest => S (size x + sizes rest)
            end) fields)
  | _ => 1%nat
  end.

Fixpoint sizes (l : list json) : nat :=
  match l with
  | [] => O
  | x :: rest => S (size x + sizes rest)
  end.

Fixpoint field_sizes (l : list (string * json)) : nat :=
  match l with
  | [] => O
  | (_, x) :: rest => S (size x + field_sizes rest)
  end.

(** Reads a string literal after its opening quote. *)
Fixpoint parse_string (s : string) : option (string * string) :=
  match s with
  | EmptyString => None
  | String c r =>
      if Ascii.eqb c quote then Some (EmptyString, r)
      else if Ascii.eqb c "\" then
        match r with
        | String e r1 =>
            let continue (c' : ascii) (rest : string) :=
              '(str, r') ← parse_string rest; Some (String c' str, r') in
            if Ascii.eqb e quote then continue quote r1
            else if Ascii.eqb e "\" then continue "\"%char r1
            else if Ascii.eqb e "/" then continue "/"%char r1
            else if Ascii.eqb e "b" then continue "008"%char r1
            else if Ascii.eqb e "t" then continue "009"%char r1
            else if Ascii.eqb e "n" then continue "010"%char r1
            else if Ascii.eqb e "f" then continue "012"%char r1
            else if Ascii.eqb e "r" then continue "013"%char r1
            else if Ascii.eqb e "u" then
              match r1 with
              | String h1 (String h2 (String h3 (String h4 r2))) =>
                  match hex_of h1, hex_of h2, hex_of h3, hex_of h4 with
                  | Some a, Some b, Some c, Some d =>
                      let n := (((a * 16 + b) * 16 + c) * 16 + d)%N in
                      if (n <? 128)%N then continue (ascii_of_N n) r2 else None
                  | _, _, _, _ => None
                  end
              | _ => None
              end
            else None
        | EmptyString => None
        end
      else if (N_of_ascii c <? 32)%N then None
      else '(str, r') ← parse_string r; Some (String c str, r')
  end.

Definition digit_uint (c : ascii) : option (uint -> uint) :=
  match c with
  | "0" => Some D0 | "1" => Some D1 | "2" => Some D2 | "3" => Some D3
  | "4" => Some D4 | "5" => Some D5 | "6" => Some D6 | "7" => Some D7
  | "8" => Some D8 | "9" => Some D9
  | _ => None
  end%char.

(** The longest run of digits at the head of the text. *)
Fixpoint scan_uint (s : string) : uint * string :=
  match s with
  | String c r =>
      match digit_uint c with
      | Some d => let '(u, r') := scan_uint r in (d u, r')
      | None => (Nil, s)
      end
  | EmptyString => (Nil, s)
  end.

Definition nodigit (k : string) : Prop :=
  match k with
  | String c _ => digit_uint c = None
  | EmptyString => True
  end.

(** A number: digits without a leading zero, after an optional minus. *)
Definition parse_number (s : string) : option (json * string) :=
  let unsigned (sign : Z) (s : string) :=
    let '(u, r) := scan_uint s in
    match u with
    | Nil => None
    | _ => if uint_beq (unorm u) u
           then Some (JNum (sign * Z.of_N (N.of_uint u)), r)
           else None
    end in
  match s with
  | String "-" r => unsigned (-1) r
  | _ => unsigned 1 s
  end.

(** [JSON.parse], by recursive descent; [fuel] bounds the nesting and the
    number of members. *)
Fixpoint parse (fuel : nat) (s : string) : option (json * string) :=
  match fuel with
  | O => None
  | S fuel =>
      match s with
      | String "n" (String "u" (String "l" (String "l" r))) => Some (JNull, r)
      | String "t" (String "r" (String "u" (String "e" r))) =>
          Some (JBool true, r)
      | String "f" (String "a" (String "l" (String "s" (String "e" r)))) =>
          Some (JBool false, r)
      | String "[" r =>
          match r with
          | String c r0 =>
              if Ascii.eqb c "]" then Some (JArr [], r0)
              else '(items, r') ← parse_items fuel r; Some (JArr items, r')
          | EmptyString => None
          end
      | String "{" r =>
          match r with
          | String c r0 =>
              if Ascii.eqb c "}" then Some (JObj [], r0)
              else '(fields, r') ← parse_fields fuel r; Some (JObj fields, r')
          | EmptyString => None
          end
      | String c r =>
          if Ascii.eqb c quote
          then '(str, r') ← parse_string r; Some (JStr str, r')
          else parse_number s
      | EmptyString => None
      end
  end
with parse_items (fuel : nat) (s : string) : option (list json * string) :=
  match fuel with
  | O => None
  | S fuel =>
      '(x, r) ← parse fuel s;
      match r with
      | String "]" r' => Some ([x], r')
      | String "," r' =>
          '(rest, r'') ← parse_items fuel r'; Some (x :: rest, r'')
      | _ => None
      end
  end
with parse_fields (fuel : nat) (s : string)
  : option (list (string * json) * string) :=
  match fuel with
  | O => None
  | S fuel =>
      match s with
      | String c r =>
          if Ascii.eqb c quote then
            '(key, r1) ← parse_string r;
            match r1 with
            | String ":" r2 =>
                '(x, r3) ← parse fuel r2;
                match r3 with
                | String "}" r' => Some ([(key, x)], r')
                | String "," r' =>
                    '(rest, r'') ← parse_fields fuel r';
                    Some ((key, x) :: rest, r'')
                | _ => None
                end
            | _ => None
            end
          else None
      | EmptyString => None
      end
  end.

Definition JSON_parse (s : string) : option json :=
  match parse (S (String.length s)) s with
  | Some (j, EmptyString) => Some j
  | _ => None
  end.

(** *** ISO 8601 dates *)

Definition digit_of (c : ascii) : option Z :=
  let n := Z.of_N (N_of_ascii c) in
  if (48 <=? n) && (n <=? 57) then Some (n - 48) else None.

Definition digit_char (d : Z) : ascii := ascii_of_N (Z.to_N (48 + d)).

(** [w] decimal digits of [n], most significant first. *)
Fixpoint pad (w : nat) (n : Z) (k : string) : string :=
  match w with
  | O => k
  | S w' => String (digit_char (n / 10 ^ Z.of_nat w'))
                   (pad w' (n mod 10 ^ Z.of_nat w') k)
  end.

(** Reads exactly [w] decimal digits. *)
Fixpoint digits (w : nat) (acc : Z) (s : string) : option (Z * string) :=
  match w with
  | O => Some (acc, s)
  | S w' =>
      match s with
      | String c r =>
          match digit_of c with
          | Some d => digits w' (10 * acc + d) r
          | None => None
          end
      | EmptyString => None
      end
  end.

Definition expect (c : ascii) (s : string) : option string :=
  match s with
  | String c' r => if Ascii.eqb c c' then Some r else None
  | EmptyString => None
  end.

Definition year_text (y : Z) (k : string) : string :=
  if (0 <=? y) && (y <=? 9999) then pad 4 y k
  else String (if y <? 0 then "-"%char else "+"%char) (pad 6 (Z.abs y) k).

(** [Date.prototype.toISOString]: YYYY-MM-DDTHH:mm:ss.sssZ, the year with
    a sign and six digits outside 0 to 9999. *)
Definition toISOString (t : Z) : string :=
  let tm := Time.TimeWithinDay t in
  year_text (Time.YearFromTime t)
    (String "-" (pad 2 (Time.MonthFromTime t + 1)
    (String "-" (pad 2 (Time.DateFromTime t)
    (String "T" (pad 2 (tm / 3600000)
    (String ":" (pad 2 ((tm / 60000) mod 60)
    (String ":" (pad 2 ((tm / 1000) mod 60)
    (String "." (pad 3 (tm mod 1000) "Z")))))))))))).

Definition parse_year (s : string) : option (Z * string) :=
  match digits 4 0 s with
  | Some r => Some r
  | None =>
      match s with
      | String "+" r => digits 6 0 r
      | String "-" r =>
          '(y, r') ← digits 6 0 r;
          if y =? 0 then None else Some (- y, r')
      | _ => None
      end
  end.

(** [Date.parse] on the format of [toISOString]; any other text is not
    recognised. *)
Definition Date_parse (s : string) : option Z :=
  '(y, s) ← parse_year s;
  s ← expect "-" s; '(mo, s) ← digits 2 0 s;
  s ← expect "-" s; '(d, s) ← digits 2 0 s;
  s ← expect "T" s; '(h, s) ← digits 2 0 s;
  s ← expect ":" s; '(mi, s) ← digits 2 0 s;
  s ← expect ":" s; '(sec, s) ← digits 2 0 s;
  s ← expect "." s; '(ms, s) ← digits 3 0 s;
  s ← expect "Z" s;
  if String.eqb s "" &&
     (1 <=? mo) && (mo <=? 12) && (1 <=? d) &&
     (d <=? Time.DaysInMonth (mo - 1) (Time.InLeapYear y)) &&
     (h <=? 23) && (mi <=? 59) && (sec <=? 59)
  then Time.TimeClip
         (Time.MakeDate (Time.MakeDay y (mo - 1) d)
            (h * 3600000 + mi * 60000 + sec * 1000 + ms))
  else None.

End Reference.

(** * Properties *)

(** ** Time values *)

Lemma inRangeb_spec t : Time.inRangeb t = true <-> Time.inRange t.
Proof. unfold Time.inRangeb, Time.inRange. rewrite andb_true_iff. lia. Qed.

Lemma TimeClip_inRange t : Time.inRange t -> Time.TimeClip t = Some t.
Proof.
  intros Ht. unfold Time.TimeClip.
  destruct (Time.inRangeb t) eqn:E; [reflexivity|].
  apply inRangeb_spec in Ht. congruence.
Qed.

Lemma TimeClip_outside t : ~ Time.inRange t -> Time.TimeClip t = None.
Proof.
  intros Ht. unfold Time.TimeClip.
  destruct (Time.inRangeb t) eqn:E; [|reflexivity].
  apply inRangeb_spec in E. contradiction.
Qed.

Lemma TimeClip_Some t u : Time.TimeClip t = Some u -> u = t /\ Time.inRange t.
Proof.
  unfold Time.TimeClip. destruct (Time.inRangeb t) eqn:E; [|discriminate].
  intros [= <-]. split; [reflexivity|]. by apply inRangeb_spec.
Qed.

(** ** The object store under the operations *)

Section StoreFacts.

Import CacheService.

Lemma transaction_console_log msg w h n :
  transaction (console_log msg w) h n = transaction w h n.
Proof. reflexivity. Qed.

Lemma transaction_log this msg w h n :
  transaction (log this msg w) h n = transaction w h n.
Proof. unfold log. by destruct (verbose this). Qed.

Lemma databases_log this msg w : databases (log this msg w) = databases w.
Proof. unfold log. by destruct (verbose this). Qed.

Lemma transaction_commit w h n st st' :
  transaction w h n = inr st ->
  transaction (commit w h n st') h n = inr st'.
Proof.
  unfold transaction, commit. simpl.
  destruct (databases w !! name h) as [d|] eqn:E; [|discriminate].
  intros _. rewrite lookup_alter_eq, E. simpl.
  by rewrite lookup_insert_eq.
Qed.

Lemma Ready_log this msg w st :
  Ready w this st -> Ready (log this msg w) this st.
Proof.
  intros (h & Hdb & Htx). exists h. by rewrite transaction_log.
Qed.

Lemma Ready_commit this w h st st' :
  db this = Some h -> transaction w h storeName = inr st ->
  Ready (commit w h storeName st') this st'.
Proof.
  intros Hdb Htx. exists h. split; [done|]. by eapply transaction_commit.
Qed.

Lemma Ready_functional w this st1 st2 :
  Ready w this st1 -> Ready w this st2 -> st1 = st2.
Proof.
  intros (h1 & Hd1 & Ht1) (h2 & Hd2 & Ht2). congruence.
Qed.

End StoreFacts.

(** ** Records *)

Section RecordFacts.

Context `{Platform}.

Lemma new_Date_toJSON_valid e :
  Time.inRange e -> new_Date (Some (Date_toJSON (Some e))) = Some e.
Proof.
  intros He. simpl. unfold Date_of_string.
  rewrite Date_parse_toISOString by done. simpl.
  by apply TimeClip_inRange.
Qed.

Lemma new_Date_toJSON_invalid : new_Date (Some (Date_toJSON None)) = Some 0.
Proof. reflexivity. Qed.

Lemma well_formed_toJSON d : well_formed (Date_toJSON d) = true.
Proof. by destruct d. Qed.

Lemma well_formed_record data d :
  serializable data ->
  well_formed
    (JObj (match data with Some j => [("value"%string, j)] | None => [] end
           ++ [("expiration"%string, Date_toJSON d)])) = true.
Proof.
  intros Hd. destruct data as [j|]; cbn [app].
  - change (well_formed (JObj _))
      with (bool_decide (NoDup ["value"%string; "expiration"%string])
            && property_order 0 ["value"%string; "expiration"%string]
            && (well_formed j && (well_formed (Date_toJSON d) && true))).
    cbn in Hd. rewrite Hd, well_formed_toJSON. reflexivity.
  - change (well_formed (JObj _))
      with (bool_decide (NoDup ["expiration"%string])
            && property_order 0 ["expiration"%string]
            && (well_formed (Date_toJSON d) && true)).
    rewrite well_formed_toJSON. reflexivity.
Qed.

Lemma entry_of_stringify data d :
  serializable data ->
  entry_of (stringify_record data d) = Some (data, new_Date (Some (Date_toJSON d))).
Proof.
  intros Hd. unfold entry_of, stringify_record.
  rewrite JSON_parse_stringify by (by apply well_formed_record).
  destruct data as [j|]; reflexivity.
Qed.

Lemma entry_of_nonempty record e : entry_of record = Some e -> record <> "".
Proof.
  unfold entry_of. intros He ->. by rewrite JSON_parse_empty in He.
Qed.

End RecordFacts.

(** ** What each operation does in a ready state *)

Section OperationFacts.

Context `{Platform}.

Import CacheService.

Lemma delete_ready o w this st cacheKey :
  Ready w this st ->
  delete o w this cacheKey =
    match o with
    | Success =>
        (Fulfilled (),
         log this ("Successfully stored " +:+ cacheKey +:+ " cache data")
           (commit w (default {| name := "" |} (db this)) storeName
              (base.delete cacheKey st)))
    | Failure =>
        (Rejected (Message "Failed to delete cache: [object Event]"),
         log this "Failed to delete cache: [object Event]" w)
    end.
Proof.
  intros (h & Hdb & Htx). unfold delete. rewrite Hdb, Htx. simpl.
  by destruct o.
Qed.

Lemma delete_ready_store w this st cacheKey :
  Ready w this st ->
  Ready (snd (delete Success w this cacheKey)) this (base.delete cacheKey st).
Proof.
  intros HR. rewrite (delete_ready _ _ _ _ _ HR). simpl.
  destruct HR as (h & Hdb & Htx). rewrite Hdb. simpl.
  apply Ready_log. by eapply Ready_commit.
Qed.

Lemma get_calls_found now o w this st cacheKey record v d :
  Ready w this st -> st !! cacheKey = Some record ->
  entry_of record = Some (v, d) ->
  get_calls now Success o w this cacheKey =
    if Time.Date_le d (Time.Date_current now)
    then ([resolve undefined; resolve v], snd (delete o w this cacheKey))
    else ([resolve v], w).
Proof.
  intros (h & Hdb & Htx) Hst He.
  pose proof (entry_of_nonempty _ _ He) as Hne.
  unfold get_calls. rewrite Hdb, Htx, Hst.
  destruct (String.eqb_spec record ""); [done|].
  unfold entry_of in He.
  destruct (JSON_parse record) as [storeObj|]; [|done].
  destruct (Get storeObj "expiration") as [|expiration]; [done|].
  destruct (Get storeObj "value") as [|v']; [done|].
  by injection He as -> <-.
Qed.

Lemma get_calls_missing now o w this st cacheKey :
  Ready w this st -> st !! cacheKey = None ->
  get_calls now Success o w this cacheKey =
    ([reject (Message ("Nothing found for " +:+ cacheKey))], w).
Proof.
  intros (h & Hdb & Htx) Hst. unfold get_calls. by rewrite Hdb, Htx, Hst.
Qed.

Lemma put_ready now o w this st cacheKey data expire :
  Ready w this st ->
  put now o w this cacheKey data expire =
    match o with
    | Success =>
        (Fulfilled true,
         log this ("Successfully stored " +:+ cacheKey +:+ " cache data")
           (commit w (default {| name := "" |} (db this)) storeName
              (<[cacheKey := createPersistable now data expire]> st)))
    | Failure =>
        (Fulfilled false,
         log this "Failed to store data cache: [object Event]" w)
    end.
Proof.
  intros (h & Hdb & Htx). unfold put. rewrite Hdb, Htx. simpl.
  by destruct o.
Qed.

Lemma put_ready_store now w this st cacheKey data expire :
  Ready w this st ->
  Ready (snd (put now Success w this cacheKey data expire)) this
    (<[cacheKey := createPersistable now data expire]> st).
Proof.
  intros HR. rewrite (put_ready _ _ _ _ _ _ _ _ HR). simpl.
  destruct HR as (h & Hdb & Htx). rewrite Hdb. simpl.
  apply Ready_log. by eapply Ready_commit.
Qed.

End OperationFacts.

(** ** The cache's operations *)

Section CacheClaims.

Context `{Platform}.

Import CacheService.

(** A get on a record that is there: past its expiration the promise gets
    [resolve(undefined)] first and the delete is issued; before it, the
    value. *)
Lemma get_stale now o w this st cacheKey record v e :
  Ready w this st -> st !! cacheKey = Some record ->
  entry_of record = Some (v, Some e) -> e <= now ->
  get now Success o w this cacheKey
    = (Fulfilled undefined, snd (delete o w this cacheKey)).
Proof.
  intros HR Hst He Hcmp.
  assert (Hle : Time.Date_le (Some e) (Time.Date_current now) = true)
    by (simpl; lia).
  unfold get. by rewrite (get_calls_found _ _ _ _ _ _ _ _ _ HR Hst He), Hle.
Qed.

Lemma get_fresh now o w this st cacheKey record v e :
  Ready w this st -> st !! cacheKey = Some record ->
  entry_of record = Some (v, Some e) -> now < e ->
  get now Success o w this cacheKey = (Fulfilled v, w).
Proof.
  intros HR Hst He Hcmp.
  assert (Hle : Time.Date_le (Some e) (Time.Date_current now) = false)
    by (simpl; lia).
  unfold get. by rewrite (get_calls_found _ _ _ _ _ _ _ _ _ HR Hst He), Hle.
Qed.

(** C1: when the read request succeeds, a get on an entry whose expiration
    timestamp is at or before the current time settles its promise once,
    with [undefined] and not with the stored value (the handler's second
    call, [resolve(storeObj.value)], comes too late), and issues the delete
    of the entry, which removes it from the store when the engine carries
    it out; while the current time is before the expiration, get resolves
    with the stored value and changes nothing. *)
Theorem get_expires_on_read now o w this st cacheKey record v e :
  Ready w this st -> st !! cacheKey = Some record ->
  entry_of record = Some (v, Some e) ->
  (e <= now ->
     fst (get_calls now Success o w this cacheKey)
       = [resolve undefined; resolve v] /\
     fst (get now Success o w this cacheKey) = Fulfilled undefined /\
     snd (get now Success o w this cacheKey) = snd (delete o w this cacheKey) /\
     Ready (snd (get now Success Success w this cacheKey)) this
       (base.delete cacheKey st)) /\
  (now < e -> get now Success o w this cacheKey = (Fulfilled v, w)).
Proof.
  intros HR Hst He. split; intros Hcmp.
  - rewrite !(get_stale _ _ _ _ _ _ _ _ _ HR Hst He Hcmp). simpl.
    split; [|repeat split; by apply delete_ready_store].
    rewrite (get_calls_found _ _ _ _ _ _ _ _ _ HR Hst He).
    assert (Hle : Time.Date_le (Some e) (Time.Date_current now) = true)
      by (simpl; lia).
    by rewrite Hle.
  - by eapply get_fresh.
Qed.

(** A miss in the first copy of the class: whatever the caller wants, the
    promise is rejected. *)
Lemma get_miss_rejects now o w this st cacheKey :
  Ready w this st -> st !! cacheKey = None ->
  get now Success o w this cacheKey =
    (Rejected (Message ("Nothing found for " +:+ cacheKey)), w).
Proof.
  intros HR Hst. unfold get. by rewrite (get_calls_missing _ _ _ _ _ _ HR Hst).
Qed.

(** A miss in the revised copy: the flag, true by default, selects between
    the rejection and the absent result. *)
Lemma revised_get_miss now o w this st cacheKey throwError :
  Ready w this st -> st !! cacheKey = None ->
  CacheServiceRevised.get now Success o w this cacheKey throwError =
    (if default true throwError
     then Rejected (Message ("Nothing found for " +:+ cacheKey))
     else Fulfilled undefined, w).
Proof.
  intros (h & Hdb & Htx) Hst.
  unfold CacheServiceRevised.get, CacheServiceRevised.get_calls.
  rewrite Hdb, Htx, Hst. by destruct (default true throwError).
Qed.

(** C2: for a key that is not in the store, with a connection and the read
    request succeeding, get with the flag true is rejected with the
    not-found message and get with the flag false resolves with
    [undefined], nothing being changed; the flag is true when it is left
    out.  This is the get of the revised copy of the class. *)
Theorem get_miss_follows_flag now o w this st cacheKey :
  Ready w this st -> st !! cacheKey = None ->
  CacheServiceRevised.get now Success o w this cacheKey (Some true)
  = (Rejected (Message ("Nothing found for " +:+ cacheKey)), w) /\
  CacheServiceRevised.get now Success o w this cacheKey (Some false)
  = (Fulfilled undefined, w) /\
  CacheServiceRevised.get now Success o w this cacheKey None
  = CacheServiceRevised.get now Success o w this cacheKey (Some true).
Proof.
  intros HR Hst.
  rewrite !(revised_get_miss now o w this st cacheKey _ HR Hst).
  by repeat split.
Qed.

(** The default expiration in the revised copy: [Date()] gives the current
    time as text without milliseconds, so the hour is counted from the
    whole second. *)
Lemma revised_default_expiration today now data :
  Date_of_string today = Some (now - now mod 1000) ->
  Time.inRange (now - now mod 1000 + 3600000) ->
  CacheServiceRevised.createPersistable today data None
  = stringify_record data (Some (now - now mod 1000 + 3600000)).
Proof.
  intros Htoday Hr. unfold CacheServiceRevised.createPersistable.
  unfold DateHelper.dateAdd. rewrite Htoday. simpl.
  replace (now - now mod 1000 + 3600000) with (now - now mod 1000 + 1 * 3600000)
    in Hr |- * by lia.
  by rewrite TimeClip_inRange.
Qed.

(** A put that resolved with true had a connection, an object store and a
    successful write request. *)
Lemma put_true_ready now op w this cacheKey data expire :
  fst (put now op w this cacheKey data expire) = Fulfilled true ->
  op = Success /\ exists st, Ready w this st.
Proof.
  unfold put. intros Hput.
  destruct (db this) as [h|] eqn:Hdb; [|discriminate Hput].
  destruct (transaction w h storeName) as [e|st] eqn:Htx; [discriminate Hput|].
  destruct op; [|discriminate Hput].
  split; [done|]. exists st, h. done.
Qed.

(** C3: after a put of a serializable value [data] with a valid expiration
    [e] has succeeded, a get whose read request succeeds at any time before
    [e] resolves with [data] and leaves the store as it is. *)
Theorem put_get_roundtrip now now' op o w this cacheKey data e :
  serializable data -> Time.inRange e ->
  fst (put now op w this cacheKey data (Some (Some e))) = Fulfilled true ->
  now' < e ->
  get now' Success o (snd (put now op w this cacheKey data (Some (Some e))))
      this cacheKey
  = (Fulfilled data, snd (put now op w this cacheKey data (Some (Some e)))).
Proof.
  intros Hdata He Hput Hlt.
  destruct (put_true_ready _ _ _ _ _ _ _ Hput) as [-> [st HR]].
  pose proof (put_ready_store now _ _ _ cacheKey data (Some (Some e)) HR) as HR'.
  eapply get_fresh; [exact HR'| apply lookup_insert_eq | | exact Hlt].
  unfold createPersistable. rewrite entry_of_stringify by done.
  by rewrite new_Date_toJSON_valid.
Qed.

(** C4: a put without expiration stores, under the key, the record of the
    value with expiration the time of the call plus 3600000 ms. *)
Theorem put_default_expiration now w this st cacheKey data :
  Ready w this st -> serializable data -> Time.inRange (now + 3600000) ->
  createPersistable now data None
    = stringify_record data (Some (now + 3600000)) /\
  entry_of (createPersistable now data None)
    = Some (data, Some (now + 3600000)) /\
  fst (put now Success w this cacheKey data None) = Fulfilled true /\
  Ready (snd (put now Success w this cacheKey data None)) this
    (<[cacheKey := createPersistable now data None]> st).
Proof.
  intros HR Hdata Hr.
  assert (Hc : createPersistable now data None
               = stringify_record data (Some (now + 3600000))).
  { unfold createPersistable. simpl. by rewrite TimeClip_inRange. }
  repeat split.
  - exact Hc.
  - rewrite Hc, entry_of_stringify by done. by rewrite new_Date_toJSON_valid.
  - by rewrite (put_ready _ _ _ _ _ _ _ _ HR).
  - by apply put_ready_store.
Qed.

(** With the object store in place, put resolves with true or false by
    the answer to the write request, and is rejected only for want of a
    connection. *)
Lemma put_settles now o w this cacheKey data expire :
  store_present w this ->
  (is_Some (db this) ->
     fst (put now o w this cacheKey data expire)
     = Fulfilled (match o with Success => true | Failure => false end)) /\
  (forall r, fst (put now o w this cacheKey data expire) = Rejected r ->
     db this = None /\ r = Message "Database doesn't exist.").
Proof.
  intros Hsp. destruct (db this) as [h|] eqn:Hdb.
  - destruct (Hsp h Hdb) as [st Htx].
    assert (HR : Ready w this st) by (by exists h).
    rewrite (put_ready _ _ _ _ _ _ _ _ HR).
    split; [by destruct o | by destruct o].
  - split; [by intros [? ?]|].
    unfold put. rewrite Hdb. simpl. by intros r [= <-].
Qed.

(** C6: without a connection, get, put, delete and flush are rejected with
    the message that the database does not exist, and the world is left as
    it was. *)
Theorem accessors_need_connection now o o' w this cacheKey data expire :
  db this = None ->
  get now o o' w this cacheKey
    = (Rejected (Message "Database doesn't exist."), w) /\
  put now o w this cacheKey data expire
    = (Rejected (Message "Database doesn't exist."), w) /\
  delete o w this cacheKey
    = (Rejected (Message "Database doesn't exist."), w) /\
  flush o w this
    = (Rejected (Message "Database doesn't exist."), w).
Proof.
  intros Hdb. unfold get, get_calls, put, delete, flush. by rewrite Hdb.
Qed.

(** C10: put accepts any expiration: with the write request succeeding it
    resolves with true and stores the record; when the expiration is at or
    before the time of a later get, that get resolves with [undefined] and
    removes the entry. *)
Theorem put_accepts_any_expiration now w this st cacheKey data d :
  Ready w this st ->
  fst (put now Success w this cacheKey data (Some d)) = Fulfilled true /\
  Ready (snd (put now Success w this cacheKey data (Some d))) this
    (<[cacheKey := stringify_record data d]> st) /\
  (forall e now', serializable data -> d = Some e -> Time.inRange e ->
     e <= now' ->
     fst (get now' Success Success
            (snd (put now Success w this cacheKey data (Some d))) this cacheKey)
     = Fulfilled undefined /\
     Ready (snd (get now' Success Success
                   (snd (put now Success w this cacheKey data (Some d)))
                   this cacheKey))
       this (base.delete cacheKey st)).
Proof.
  intros HR.
  pose proof (put_ready_store now _ _ _ cacheKey data (Some d) HR) as HR'.
  split; [by rewrite (put_ready _ _ _ _ _ _ _ _ HR)|].
  split; [exact HR'|].
  intros e now' Hdata -> He Hle.
  assert (Hentry : entry_of (createPersistable now data (Some (Some e)))
                   = Some (data, Some e)).
  { unfold createPersistable. rewrite entry_of_stringify by done.
    by rewrite new_Date_toJSON_valid. }
  rewrite (get_stale now' Success _ _ _ cacheKey _ _ _
             HR' (lookup_insert_eq _ _ _) Hentry Hle).
  split; [reflexivity|].
  pose proof (delete_ready_store _ _ _ cacheKey HR') as Hst.
  by rewrite delete_insert_eq in Hst.
Qed.

End CacheClaims.

(** ** Initialisation *)

Section InitClaims.

Import CacheService.

Lemma databases_onupgradeneeded this old new nm dbs ver stores out :
  databases
    (onupgradeneeded this old new {| name := nm |}
       {| databases := <[nm := {| version := ver; objectStores := stores |}]> dbs;
          console := out |})
  = <[nm := {| version := ver;
               objectStores := <[storeName := ∅]> stores |}]> dbs.
Proof.
  unfold onupgradeneeded, objectStoreNames_contains. simpl.
  rewrite lookup_insert_eq. simpl.
  unfold createObjectStore, commit, deleteObjectStore. simpl.
  case_bool_decide; repeat (rewrite ?databases_log; simpl).
  - rewrite !alter_insert_eq. simpl. by rewrite insert_delete_eq.
  - by rewrite alter_insert_eq.
Qed.

Lemma init_connected o w this :
  is_Some (db this) -> init o w this = (Fulfilled true, w, this).
Proof. intros [h Hdb]. unfold init. by rewrite Hdb. Qed.

(** The call that makes the connection: it opens the database and, when
    the database was missing or at a lower version, leaves it at the
    requested version with an empty object store in place of any earlier
    one. *)
Lemma init_opens o w this :
  db this = None ->
  fst (fst (init o w this)) = Fulfilled true ->
  db (snd (init o w this)) = Some {| name := dbName this |} /\
  if from_option version 0 (databases w !! dbName this) <? dbVersion this
  then databases (snd (fst (init o w this)))
       = <[dbName this :=
             {| version := dbVersion this;
                objectStores :=
                  <[storeName := ∅]>
                    (from_option objectStores ∅
                       (databases w !! dbName this)) |}]> (databases w)
       /\ console w `prefix_of` console (snd (fst (init o w this)))
  else snd (fst (init o w this)) = w.
Proof.
  intros Hdb Hok.
  remember (init o w this) as r eqn:Hr.
  unfold init in Hr. rewrite Hdb in Hr. unfold indexedDB_open in Hr.
  destruct (negb _); [by subst r|].
  destruct (dbVersion this <? _); [by subst r|].
  destruct o; [|by subst r].
  destruct (_ <? dbVersion this) eqn:Hup; subst r; cbn [fst snd settle db].
  - split; [done|].
    rewrite databases_onupgradeneeded. split; [done|]. simpl.
    unfold onupgradeneeded, createObjectStore, commit, deleteObjectStore, log,
      console_log.
    destruct (objectStoreNames_contains _ _ _), (verbose this); simpl;
      try done; try (by apply prefix_app_r).
    rewrite <- app_assoc. by apply prefix_app_r.
  - done.
Qed.

(** C7: once init has answered true, a further init answers true and
    changes neither the world nor the service; the call that made the
    connection, and no other, opened the database and, when the database
    was missing or at a lower version, left it at the requested version
    with an empty object store in place of any earlier one. *)
Theorem init_idempotent o o' w this :
  fst (fst (init o w this)) = Fulfilled true ->
  init o' (snd (fst (init o w this))) (snd (init o w this))
    = (Fulfilled true, snd (fst (init o w this)), snd (init o w this)) /\
  (is_Some (db this) -> init o w this = (Fulfilled true, w, this)) /\
  (db this = None ->
     db (snd (init o w this)) = Some {| name := dbName this |} /\
     if from_option version 0 (databases w !! dbName this) <? dbVersion this
     then databases (snd (fst (init o w this)))
          = <[dbName this :=
                {| version := dbVersion this;
                   objectStores :=
                     <[storeName := ∅]>
                       (from_option objectStores ∅
                          (databases w !! dbName this)) |}]> (databases w)
          /\ console w `prefix_of` console (snd (fst (init o w this)))
     else snd (fst (init o w this)) = w).
Proof.
  intros Hok. split; [|split].
  - apply init_connected. destruct (db this) as [h|] eqn:Hdb.
    + rewrite (init_connected o w this) by (by rewrite Hdb). simpl.
      by rewrite Hdb.
    + destruct (init_opens o w this Hdb Hok) as [-> _]. by eexists.
  - apply init_connected.
  - intros Hdb. by apply init_opens.
Qed.

(** A call of init that does not answer true leaves the service without
    a connection and the databases as they were. *)
Lemma init_failure o w this :
  db this = None ->
  fst (fst (init o w this)) <> Fulfilled true ->
  snd (fst (init o w this)) = w /\ snd (init o w this) = this.
Proof.
  intros Hdb Hno. unfold init in *. rewrite Hdb in *.
  unfold indexedDB_open in *.
  destruct (negb _); [done|].
  destruct (dbVersion this <? _); [done|].
  destruct o; [|done].
  destruct (_ <? dbVersion this); by destruct Hno.
Qed.

(** On an origin whose databases are all the cache's, a successful init
    leaves the service connected to a database with the object store, and
    the origin stays such. *)
Lemma init_makes_ready o w this :
  cache_only w -> db this = None ->
  fst (fst (init o w this)) = Fulfilled true ->
  (exists st, Ready (snd (fst (init o w this))) (snd (init o w this)) st) /\
  cache_only (snd (fst (init o w this))).
Proof.
  intros Hco Hdb Hok.
  destruct (init_opens o w this Hdb Hok) as [Hconn Hworld].
  destruct (_ <? dbVersion this) eqn:Hup.
  - destruct Hworld as [Hdbs _]. split.
    + exists ∅, {| name := dbName this |}. split; [done|].
      unfold transaction. rewrite Hdbs. simpl.
      rewrite lookup_insert_eq. simpl. by rewrite lookup_insert_eq.
    + intros n d. rewrite Hdbs.
      destruct (decide (dbName this = n)) as [<- | Hne].
      * rewrite lookup_insert_eq. intros [= <-]. simpl.
        rewrite lookup_insert_eq. by eexists.
      * rewrite lookup_insert_ne by done. apply Hco.
  - rewrite Hworld. split; [|done].
    assert (Hex : is_Some (databases w !! dbName this)).
    { apply Z.ltb_ge in Hup. unfold init in Hok. rewrite Hdb in Hok.
      unfold indexedDB_open in Hok.
      destruct (negb _) eqn:Hrange; [discriminate Hok|].
      apply negb_false_iff, andb_true_iff in Hrange as [Hlo _].
      apply Z.leb_le in Hlo.
      destruct (databases w !! dbName this); [by eexists|]. simpl in Hup. lia. }
    destruct Hex as [d Hd]. destruct (Hco _ _ Hd) as [st Hst].
    exists st, {| name := dbName this |}. split; [done|].
    unfold transaction. simpl. by rewrite Hd, Hst.
Qed.

End InitClaims.

(** ** The states a service gets into *)

Section Reachable.

Context `{Platform}.

Import CacheService.

Lemma cache_only_log this msg w : cache_only w -> cache_only (log this msg w).
Proof. unfold cache_only. by rewrite databases_log. Qed.

Lemma cache_only_commit w h st : cache_only w -> cache_only (commit w h storeName st).
Proof.
  intros Hco n d. unfold commit. simpl.
  destruct (decide (name h = n)) as [<- | Hne].
  - rewrite lookup_alter_eq.
    destruct (databases w !! name h) as [d0|]; [|done].
    intros [= <-]. simpl. rewrite lookup_insert_eq. by eexists.
  - rewrite lookup_alter_ne by done. apply Hco.
Qed.

Lemma store_present_log this msg w :
  store_present w this -> store_present (log this msg w) this.
Proof.
  intros Hsp h Hh. destruct (Hsp h Hh) as [st Hst].
  exists st. by rewrite transaction_log.
Qed.

Lemma store_present_commit w this h st st' :
  db this = Some h -> transaction w h storeName = inr st ->
  store_present (commit w h storeName st') this.
Proof.
  intros Hdb Htx h' Hh'. assert (h' = h) as -> by congruence.
  exists st'. by eapply transaction_commit.
Qed.

(** A write by delete, put or flush keeps the object store in place. *)
Lemma write_keeps_store this w msg1 msg2 (o : Outcome) (f : ObjectStore -> ObjectStore) :
  cache_only w -> store_present w this ->
  let w' := match db this with
            | None => w
            | Some h =>
                match transaction w h storeName with
                | inl _ => w
                | inr st =>
                    match o with
                    | Failure => log this msg1 w
                    | Success => log this msg2 (commit w h storeName (f st))
                    end
                end
            end in
  cache_only w' /\ store_present w' this.
Proof.
  intros Hco Hsp. cbv zeta.
  destruct (db this) as [h|] eqn:Hdb; [|done].
  destruct (transaction w h storeName) as [e|st] eqn:Htx; [done|].
  destruct o.
  - split; [by apply cache_only_log, cache_only_commit|].
    apply store_present_log. by eapply store_present_commit.
  - split; [by apply cache_only_log | by apply store_present_log].
Qed.

Lemma delete_keeps_store o w this cacheKey :
  cache_only w -> store_present w this ->
  cache_only (snd (delete o w this cacheKey)) /\
  store_present (snd (delete o w this cacheKey)) this.
Proof.
  intros Hco Hsp.
  pose proof (write_keeps_store this w "Failed to delete cache: [object Event]"
                ("Successfully stored " +:+ cacheKey +:+ " cache data") o
                (base.delete cacheKey) Hco Hsp) as Hk.
  cbv zeta in Hk. unfold delete.
  destruct (db this) as [h|]; [|done].
  destruct (transaction w h storeName); [done|]. by destruct o.
Qed.

Lemma run_keeps_store op w this :
  cache_only w -> store_present w this ->
  cache_only (fst (run op w this)) /\
  store_present (fst (run op w this)) (snd (run op w this)).
Proof.
  intros Hco Hsp. destruct op as [o|now o odel k|now o k data expire|o k|o];
    cbn [run fst snd].
  - destruct (db this) as [h|] eqn:Hdb.
    + rewrite (init_connected o w this) by (by rewrite Hdb). done.
    + assert (Hcase : fst (fst (init o w this)) = Fulfilled true
                      \/ fst (fst (init o w this)) <> Fulfilled true).
      { destruct (fst (fst (init o w this))) as [|[]|r];
          [by right | by left | by right | by right]. }
      destruct Hcase as [Hok|Hno].
      * destruct (init_makes_ready o w this Hco Hdb Hok)
          as [(st & h & Hh & Htx) Hco'].
        split; [done|]. intros h' Hh'. exists st. congruence.
      * destruct (init_failure o w this Hdb Hno) as [-> ->]. done.
  - unfold get, get_calls.
    destruct (db this) as [h|] eqn:Hdb; [|done].
    destruct (transaction w h storeName) as [e|st]; [done|].
    destruct o; [|done].
    destruct (st !! k) as [record|]; [|done].
    destruct (String.eqb record ""); [done|].
    destruct (JSON_parse record) as [storeObj|]; [|done].
    destruct (Get storeObj "expiration") as [|expiration]; [done|].
    destruct (Get storeObj "value") as [|v]; [done|].
    destruct (Time.Date_le _ _); [|done].
    cbn [snd]. by apply delete_keeps_store.
  - pose proof (write_keeps_store this w
                  "Failed to store data cache: [object Event]"
                  ("Successfully stored " +:+ k +:+ " cache data") o
                  (fun st => <[k := createPersistable now data expire]> st)
                  Hco Hsp) as Hk.
    cbv zeta in Hk. unfold put.
    destruct (db this) as [h|]; [|done].
    destruct (transaction w h storeName); [done|]. by destruct o.
  - by apply delete_keeps_store.
  - pose proof (write_keeps_store this w "Failed to clear cache: [object Event]"
                  "Successfully cleared cache store" o (fun _ => ∅) Hco Hsp)
      as Hk.
    cbv zeta in Hk. unfold flush.
    destruct (db this) as [h|]; [|done].
    destruct (transaction w h storeName); [done|]. by destruct o.
Qed.

(** On an origin that holds no database but the cache's, a service that
    starts without a connection has, in every state it gets into, the
    object store behind its connection. *)
Lemma reachable_store_present w0 this0 w this :
  cache_only w0 -> db this0 = None ->
  reachable w0 this0 w this ->
  cache_only w /\ store_present w this.
Proof.
  intros Hco Hdb Hreach. induction Hreach as [|op w this _ [IHco IHsp]].
  - split; [done|]. intros h Hh. congruence.
  - by apply run_keeps_store.
Qed.

(** C5 (amended): put never rejects for a failed write.  With a connection
    to a database that has the object store it resolves with true when the
    write request succeeds and with false when it fails.  It is rejected
    in two cases only: without a connection, with the message that the
    database does not exist, and with a connection to a database that
    lacks the object store or is gone, with the exception that opening the
    transaction throws.  In every state the service gets into on an origin
    that holds no database but the cache's the second case does not arise:
    there put is rejected only when there is no connection. *)
Theorem put_reports_write_failure now o w this cacheKey data expire :
  (forall st, Ready w this st ->
     fst (put now o w this cacheKey data expire)
     = Fulfilled (match o with Success => true | Failure => false end)) /\
  (forall r, fst (put now o w this cacheKey data expire) = Rejected r ->
     (db this = None /\ r = Message "Database doesn't exist.") \/
     (exists h, db this = Some h /\ transaction w h storeName = inl r /\
        (r = Thrown "InvalidStateError" \/ r = Thrown "NotFoundError"))) /\
  (forall w0 this0,
     cache_only w0 -> db this0 = None -> reachable w0 this0 w this ->
     (is_Some (db this) ->
        fst (put now o w this cacheKey data expire)
        = Fulfilled (match o with Success => true | Failure => false end)) /\
     (forall r, fst (put now o w this cacheKey data expire) = Rejected r ->
        db this = None /\ r = Message "Database doesn't exist.")).
Proof.
  split; [|split].
  - intros st HR. rewrite (put_ready _ _ _ _ _ _ _ _ HR). by destruct o.
  - intros r. unfold put.
    destruct (db this) as [h|] eqn:Hdb;
      [|simpl; intros [= <-]; by left].
    destruct (transaction w h storeName) as [e|st] eqn:Htx;
      [|by destruct o].
    simpl. intros [= <-]. right. exists h. split; [done|]. split; [done|].
    unfold transaction in Htx.
    destruct (databases w !! name h) as [d|]; [|left; congruence].
    destruct (objectStores d !! storeName); [done|right; congruence].
  - intros w0 this0 Hco Hdb Hreach. apply put_settles.
    by destruct (reachable_store_present w0 this0 w this Hco Hdb Hreach).
Qed.

End Reachable.

(** ** The verbose flag *)

Section VerboseClaims.

Context `{Platform}.

Import CacheService.

Lemma transaction_same_store w1 w2 h n :
  same_store w1 w2 -> transaction w1 h n = transaction w2 h n.
Proof. unfold same_store, transaction. by intros ->. Qed.

Lemma same_store_log a b m1 m2 w1 w2 :
  same_store w1 w2 -> same_store (log a m1 w1) (log b m2 w2).
Proof. unfold same_store. by rewrite !databases_log. Qed.

Lemma same_store_commit w1 w2 h n st :
  same_store w1 w2 -> same_store (commit w1 h n st) (commit w2 h n st).
Proof. unfold same_store, commit. simpl. by intros ->. Qed.

Lemma same_store_onupgradeneeded a b old new h w1 w2 :
  same_store w1 w2 ->
  same_store (onupgradeneeded a old new h w1) (onupgradeneeded b old new h w2).
Proof.
  intros Hs. unfold onupgradeneeded, createObjectStore.
  apply same_store_commit, same_store_log.
  unfold objectStoreNames_contains. rewrite Hs.
  destruct (databases w2 !! name h) as [d|]; [|done].
  case_bool_decide; [|done].
  unfold same_store, deleteObjectStore. simpl. by rewrite !databases_log, Hs.
Qed.

Lemma init_same a b o w1 w2 :
  same_but_verbose a b -> same_store w1 w2 ->
  fst (fst (init o w1 a)) = fst (fst (init o w2 b)) /\
  same_store (snd (fst (init o w1 a))) (snd (fst (init o w2 b))) /\
  same_but_verbose (snd (init o w1 a)) (snd (init o w2 b)).
Proof.
  intros Hab Hs. pose proof Hab as (Hn & Hv & Hd).
  unfold init. rewrite <- Hd.
  destruct (db a) as [h|] eqn:Hda; [done|].
  unfold indexedDB_open. rewrite <- Hn, <- Hv, <- Hs.
  destruct (negb _); [done|].
  destruct (dbVersion a <? _); [done|].
  destruct o; [|done].
  destruct (_ <? dbVersion a); simpl.
  - split; [done|]. split; [|done].
    by apply same_store_onupgradeneeded.
  - done.
Qed.

Lemma delete_same a b o w1 w2 cacheKey :
  same_but_verbose a b -> same_store w1 w2 ->
  fst (delete o w1 a cacheKey) = fst (delete o w2 b cacheKey) /\
  same_store (snd (delete o w1 a cacheKey)) (snd (delete o w2 b cacheKey)).
Proof.
  intros (Hn & Hv & Hd) Hs. unfold delete. rewrite <- Hd.
  destruct (db a) as [h|]; [|done].
  rewrite <- (transaction_same_store _ _ _ _ Hs).
  destruct (transaction w1 h storeName) as [e|st]; [done|].
  destruct o; simpl; (split; [done|]).
  - by apply same_store_log, same_store_commit.
  - by apply same_store_log.
Qed.

Lemma flush_same a b o w1 w2 :
  same_but_verbose a b -> same_store w1 w2 ->
  fst (flush o w1 a) = fst (flush o w2 b) /\
  same_store (snd (flush o w1 a)) (snd (flush o w2 b)).
Proof.
  intros (Hn & Hv & Hd) Hs. unfold flush. rewrite <- Hd.
  destruct (db a) as [h|]; [|done].
  rewrite <- (transaction_same_store _ _ _ _ Hs).
  destruct (transaction w1 h storeName) as [e|st]; [done|].
  destruct o; simpl; (split; [done|]).
  - by apply same_store_log, same_store_commit.
  - by apply same_store_log.
Qed.

Lemma put_same a b now o w1 w2 cacheKey data expire :
  same_but_verbose a b -> same_store w1 w2 ->
  fst (put now o w1 a cacheKey data expire)
    = fst (put now o w2 b cacheKey data expire) /\
  same_store (snd (put now o w1 a cacheKey data expire))
             (snd (put now o w2 b cacheKey data expire)).
Proof.
  intros (Hn & Hv & Hd) Hs. unfold put. rewrite <- Hd.
  destruct (db a) as [h|]; [|done].
  rewrite <- (transaction_same_store _ _ _ _ Hs).
  destruct (transaction w1 h storeName) as [e|st]; [done|].
  destruct o; simpl; (split; [done|]).
  - by apply same_store_log, same_store_commit.
  - by apply same_store_log.
Qed.

Lemma get_same a b now o o' w1 w2 cacheKey :
  same_but_verbose a b -> same_store w1 w2 ->
  fst (get now o o' w1 a cacheKey) = fst (get now o o' w2 b cacheKey) /\
  same_store (snd (get now o o' w1 a cacheKey))
             (snd (get now o o' w2 b cacheKey)).
Proof.
  intros Hab Hs.
  destruct (delete_same a b o' w1 w2 cacheKey Hab Hs) as [_ Hdel].
  destruct Hab as (Hn & Hv & Hd).
  unfold get, get_calls. rewrite <- Hd.
  destruct (db a) as [h|]; [|done].
  rewrite <- (transaction_same_store _ _ _ _ Hs).
  destruct (transaction w1 h storeName) as [e|st]; [done|].
  destruct o; [|done].
  destruct (st !! cacheKey) as [record|]; [|done].
  destruct (String.eqb record ""); [done|].
  destruct (JSON_parse record) as [storeObj|]; [|done].
  destruct (Get storeObj "expiration") as [|expiration]; [done|].
  destruct (Get storeObj "value") as [|v]; [done|].
  destruct (Time.Date_le _ _); done.
Qed.

(** C9: two services that differ at most in the verbose flag, run on
    worlds with the same databases, give for init, get, put, delete and
    flush the same promise state and leave the same databases (and, for
    init, the same connection); only what is printed may differ. *)
Theorem verbose_gates_only_logging a b now o o' w1 w2 cacheKey data expire :
  same_but_verbose a b -> same_store w1 w2 ->
  (fst (fst (init o w1 a)) = fst (fst (init o w2 b)) /\
   same_store (snd (fst (init o w1 a))) (snd (fst (init o w2 b))) /\
   same_but_verbose (snd (init o w1 a)) (snd (init o w2 b))) /\
  (fst (get now o o' w1 a cacheKey) = fst (get now o o' w2 b cacheKey) /\
   same_store (snd (get now o o' w1 a cacheKey))
              (snd (get now o o' w2 b cacheKey))) /\
  (fst (put now o w1 a cacheKey data expire)
     = fst (put now o w2 b cacheKey data expire) /\
   same_store (snd (put now o w1 a cacheKey data expire))
              (snd (put now o w2 b cacheKey data expire))) /\
  (fst (delete o w1 a cacheKey) = fst (delete o w2 b cacheKey) /\
   same_store (snd (delete o w1 a cacheKey)) (snd (delete o w2 b cacheKey))) /\
  (fst (flush o w1 a) = fst (flush o w2 b) /\
   same_store (snd (flush o w1 a)) (snd (flush o w2 b))).
Proof.
  intros Hab Hs.
  split; [by apply init_same|].
  split; [by apply get_same|].
  split; [by apply put_same|].
  split; [by apply delete_same|].
  by apply flush_same.
Qed.

End VerboseClaims.

(** ** The calendar *)

Section Calendar.

Import Time.

Lemma DayFromYear_succ y : DayFromYear (y + 1) = DayFromYear y + DaysInYear y.
Proof.
  unfold DayFromYear, DaysInYear.
  destruct (Z.eqb_spec (y mod 4) 0); destruct (Z.eqb_spec (y mod 100) 0);
    destruct (Z.eqb_spec (y mod 400) 0); cbv [negb];
    Z.div_mod_to_equations; lia.
Qed.

Lemma DaysInYear_cases y : DaysInYear y = 365 \/ DaysInYear y = 366.
Proof.
  unfold DaysInYear.
  destruct (negb _); [by left|]. destruct (negb _); [by right|].
  destruct (negb _); [by left | by right].
Qed.

Lemma InLeapYear_DaysInYear y : DaysInYear y = 365 + InLeapYear y.
Proof.
  unfold InLeapYear. destruct (DaysInYear_cases y) as [-> | ->]; reflexivity.
Qed.

Lemma InLeapYear_cases y : InLeapYear y = 0 \/ InLeapYear y = 1.
Proof. unfold InLeapYear. destruct (_ =? _); [by right | by left]. Qed.

Lemma DayFromYear_mono y1 y2 : y1 <= y2 -> DayFromYear y1 <= DayFromYear y2.
Proof.
  intros Hle. unfold DayFromYear. Z.div_mod_to_equations. lia.
Qed.

(** The year computed is the one the day falls in. *)
Lemma YearFromDay_spec d :
  DayFromYear (YearFromDay d) <= d < DayFromYear (YearFromDay d + 1).
Proof.
  unfold YearFromDay.
  destruct (Z.ltb_spec d (DayFromYear (1970 + 400 * d / 146097))).
  - unfold DayFromYear in *. Z.div_mod_to_equations. lia.
  - destruct (Z.leb_spec (DayFromYear (1970 + 400 * d / 146097 + 1)) d).
    + unfold DayFromYear in *. Z.div_mod_to_equations. lia.
    + lia.
Qed.

(** That year is determined by the day: it is the largest year starting
    at or before it. *)
Lemma YearFromDay_unique d y :
  DayFromYear y <= d < DayFromYear (y + 1) -> YearFromDay d = y.
Proof.
  intros Hy. pose proof (YearFromDay_spec d) as Hs.
  destruct (Z.lt_trichotomy (YearFromDay d) y) as [Hlt | [Heq | Hgt]]; [|done|].
  - pose proof (DayFromYear_mono (YearFromDay d + 1) y). lia.
  - pose proof (DayFromYear_mono (y + 1) (YearFromDay d)). lia.
Qed.

Lemma DayWithinYear_range d :
  0 <= DayWithinYear d < 365 + InLeapYear (YearFromDay d).
Proof.
  unfold DayWithinYear. pose proof (YearFromDay_spec d) as Hs.
  rewrite DayFromYear_succ, InLeapYear_DaysInYear in Hs. lia.
Qed.

Lemma MonthFromDay_range d : 0 <= MonthFromDay d <= 11.
Proof.
  unfold MonthFromDay.
  repeat (match goal with |- context [if ?c then _ else _] => destruct c end);
    lia.
Qed.

Lemma MakeDay_normalise y m dt :
  MakeDay y m dt = MakeDay (y + m / 12) (m mod 12) dt.
Proof.
  unfold MakeDay.
  rewrite (Z.div_small (m mod 12) 12) by (apply Z.mod_pos_bound; lia).
  rewrite Z.mod_mod by lia. by rewrite Z.add_0_r.
Qed.

(** Putting a day's own fields together gives the day back, and a date
    counted past the month's end runs on into the following days. *)
Lemma MakeDay_of_fields d n :
  MakeDay (YearFromDay d) (MonthFromDay d) (DateFromDay d + n) = d + n.
Proof.
  pose proof (MonthFromDay_range d) as Hm.
  unfold MakeDay. rewrite Z.div_small, Z.mod_small by lia.
  unfold DateFromDay, DayWithinYear. rewrite Z.add_0_r. lia.
Qed.

(** The fields of a day given by year, month and a date of that month. *)
Lemma fields_of_MakeDay y m dt :
  0 <= m <= 11 -> 1 <= dt <= DaysInMonth m (InLeapYear y) ->
  YearFromDay (MakeDay y m dt) = y /\
  MonthFromDay (MakeDay y m dt) = m /\
  DateFromDay (MakeDay y m dt) = dt.
Proof.
  intros Hm Hdt.
  assert (Hday : MakeDay y m dt
                 = DayFromYear y + (monthStart m (InLeapYear y) + dt - 1)).
  { unfold MakeDay. rewrite Z.div_small, Z.mod_small by lia.
    rewrite Z.add_0_r. lia. }
  assert (Hw : 0 <= monthStart m (InLeapYear y) + dt - 1
               < 365 + InLeapYear y).
  { destruct (InLeapYear_cases y) as [Hl | Hl]; rewrite Hl in *;
      assert (Hc : m = 0 \/ m = 1 \/ m = 2 \/ m = 3 \/ m = 4 \/ m = 5 \/
                   m = 6 \/ m = 7 \/ m = 8 \/ m = 9 \/ m = 10 \/ m = 11) by lia;
      repeat (destruct Hc as [-> | Hc]); try subst m;
      cbn [monthStart DaysInMonth] in *; lia. }
  assert (Hy : YearFromDay (MakeDay y m dt) = y).
  { apply YearFromDay_unique.
    rewrite DayFromYear_succ, InLeapYear_DaysInYear, Hday. lia. }
  assert (Hdw : DayWithinYear (MakeDay y m dt)
                = monthStart m (InLeapYear y) + dt - 1).
  { unfold DayWithinYear. rewrite Hy, Hday. lia. }
  assert (Hmo : MonthFromDay (MakeDay y m dt) = m).
  { unfold MonthFromDay. rewrite Hdw, Hy.
    destruct (InLeapYear_cases y) as [Hl | Hl]; rewrite Hl in *;
      assert (Hc : m = 0 \/ m = 1 \/ m = 2 \/ m = 3 \/ m = 4 \/ m = 5 \/
                   m = 6 \/ m = 7 \/ m = 8 \/ m = 9 \/ m = 10 \/ m = 11) by lia;
      repeat (destruct Hc as [-> | Hc]); try subst m;
      cbn [monthStart DaysInMonth] in *;
      repeat (match goal with
              | |- context [if ?a <? ?b then _ else _] =>
                  destruct (Z.ltb_spec a b); try lia
              end). }
  split; [exact Hy|]. split; [exact Hmo|].
  unfold DateFromDay. rewrite Hdw, Hmo, Hy. lia.
Qed.

Lemma Day_MakeDate d tm : 0 <= tm < msPerDay -> Day (MakeDate d tm) = d.
Proof.
  intros Htm. unfold Day, MakeDate, msPerDay in *.
  Z.div_mod_to_equations. lia.
Qed.

Lemma TimeWithinDay_MakeDate d tm :
  0 <= tm < msPerDay -> TimeWithinDay (MakeDate d tm) = tm.
Proof.
  intros Htm. unfold TimeWithinDay, MakeDate, msPerDay in *.
  Z.div_mod_to_equations. lia.
Qed.

Lemma TimeWithinDay_range t : 0 <= TimeWithinDay t < msPerDay.
Proof. unfold TimeWithinDay, msPerDay. apply Z.mod_pos_bound. lia. Qed.

Lemma MakeDate_Day t : MakeDate (Day t) (TimeWithinDay t) = t.
Proof.
  unfold MakeDate, Day, TimeWithinDay, msPerDay. Z.div_mod_to_equations. lia.
Qed.

End Calendar.

(** ** Date arithmetic *)

Section DateClaims.

Context `{Platform}.

Import Time.

Lemma DateFromDay_range d :
  1 <= DateFromDay d
    <= DaysInMonth (MonthFromDay d) (InLeapYear (YearFromDay d)).
Proof.
  pose proof (DayWithinYear_range d) as Hw.
  unfold DateFromDay, MonthFromDay in *.
  destruct (InLeapYear_cases (YearFromDay d)) as [Hl | Hl]; rewrite Hl in *;
    repeat (match goal with
            | |- context [if ?a <? ?b then _ else _] =>
                destruct (Z.ltb_spec a b)
            end);
    cbn [monthStart DaysInMonth]; lia.
Qed.

Lemma firstDayOfMonth_MakeDay i dt :
  firstDayOfMonth i + (dt - 1) = MakeDay (i / 12) (i mod 12) dt.
Proof.
  unfold firstDayOfMonth, MakeDay.
  rewrite (Z.div_small (i mod 12) 12) by (apply Z.mod_pos_bound; lia).
  rewrite Z.mod_mod by lia. rewrite Z.add_0_r. lia.
Qed.

Lemma MakeDay_monthIndex y m n dt :
  MakeDay y (m + n) dt = firstDayOfMonth (12 * y + m + n) + (dt - 1).
Proof.
  rewrite firstDayOfMonth_MakeDay, (MakeDay_normalise y (m + n)).
  f_equal; Z.div_mod_to_equations; lia.
Qed.

(** Moving a local time by [n] months lands in the month [n] months on,
    at the same date and time of day, when that month has such a date. *)
Lemma addMonths_fields lt n :
  DateFromTime lt
    <= DaysInMonth ((monthIndex lt + n) mod 12)
                   (InLeapYear ((monthIndex lt + n) / 12)) ->
  monthIndex (addMonths lt n) = monthIndex lt + n /\
  DateFromTime (addMonths lt n) = DateFromTime lt /\
  TimeWithinDay (addMonths lt n) = TimeWithinDay lt.
Proof.
  intros Hfit. pose proof (TimeWithinDay_range lt) as Htm.
  pose proof (DateFromDay_range (Day lt)) as Hd.
  unfold addMonths, monthIndex at 1, YearFromTime, MonthFromTime, DateFromTime.
  rewrite TimeWithinDay_MakeDate, Day_MakeDate by done.
  rewrite firstDayOfMonth_MakeDay.
  destruct (fields_of_MakeDay ((monthIndex lt + n) / 12)
              ((monthIndex lt + n) mod 12) (DateFromDay (Day lt)))
    as (Hy & Hm & Hdt).
  { pose proof (Z.mod_pos_bound (monthIndex lt + n) 12). lia. }
  { unfold DateFromTime in Hfit. lia. }
  rewrite Hy, Hm, Hdt. split; [|done].
  Z.div_mod_to_equations. lia.
Qed.

Lemma setDate_addDays t n :
  setDate (Some t) (plus (getDate (Some t)) n)
  = TimeClip (UTC (addDays (LocalTime t) n)).
Proof.
  simpl. unfold YearFromTime, MonthFromTime, DateFromTime.
  rewrite MakeDay_of_fields. do 2 f_equal.
  unfold addDays. rewrite <- (MakeDate_Day (LocalTime t)) at 3.
  unfold MakeDate. lia.
Qed.

Lemma setMonth_addMonths t n :
  setMonth (Some t) (plus (getMonth (Some t)) n)
  = TimeClip (UTC (addMonths (LocalTime t) n)).
Proof.
  simpl. unfold addMonths, monthIndex. by rewrite MakeDay_monthIndex.
Qed.

Lemma setFullYear_addMonths t n :
  setFullYear (Some t) (plus (getFullYear (Some t)) n)
  = TimeClip (UTC (addMonths (LocalTime t) (12 * n))).
Proof.
  simpl. unfold addMonths, monthIndex.
  pose proof (MonthFromDay_range (Day (LocalTime t))) as Hm.
  rewrite <- (Z.add_0_r (MonthFromTime (LocalTime t))) at 1.
  rewrite MakeDay_monthIndex. do 4 f_equal.
  unfold firstDayOfMonth, MonthFromTime.
  f_equal; [f_equal | f_equal; [|f_equal]]; Z.div_mod_to_equations; lia.
Qed.

(** C8 (amended): for a base text that is the timestamp [t] and an integer
    count, dateAdd with one of the eight interval units returns a Date
    whose time value is the timestamp shifted by that amount (seconds,
    minutes and hours by exactly count x 1000, 60000 and 3600000 ms; the
    other units in local time) when that lies within 8.64e15 ms of the
    epoch, and an Invalid Date otherwise; with a value that is none of the
    units it returns [undefined].  A shift by months keeps the date and the
    time of day and moves the month by the count, when the target month
    has that date. *)
Theorem dateAdd_shifts date t units :
  Date_of_string date = Some t ->
  (forall i, DateHelper.dateAdd date (Some i) units
             = Some (TimeClip (shifted i t units))) /\
  DateHelper.dateAdd date None units = None /\
  (forall n,
     DateFromTime (LocalTime t)
       <= DaysInMonth ((monthIndex (LocalTime t) + n) mod 12)
                      (InLeapYear ((monthIndex (LocalTime t) + n) / 12)) ->
     monthIndex (addMonths (LocalTime t) n) = monthIndex (LocalTime t) + n /\
     DateFromTime (addMonths (LocalTime t) n) = DateFromTime (LocalTime t) /\
     TimeWithinDay (addMonths (LocalTime t) n) = TimeWithinDay (LocalTime t)).
Proof.
  intros Hdate. split; [|split; [reflexivity | intros n; apply addMonths_fields]].
  intros i. unfold DateHelper.dateAdd. rewrite Hdate.
  destruct i; cbn [shifted]; f_equal.
  - apply setFullYear_addMonths.
  - apply setMonth_addMonths.
  - apply setMonth_addMonths.
  - apply setDate_addDays.
  - apply setDate_addDays.
Qed.

End DateClaims.

(** ** The reference platform satisfies the platform's laws *)

Section ReferenceFacts.

Import Reference.

Lemma print_JArr l k : print (JArr l) k = String "[" (print_items l k).
Proof.
  cbn [print]. f_equal.
  induction l as [|x r IH]; [reflexivity|].
  cbn [print_items]. by rewrite <- IH.
Qed.

Lemma print_JObj l k : print (JObj l) k = String "{" (print_fields l k).
Proof.
  cbn [print]. f_equal.
  induction l as [|[key x] r IH]; [reflexivity|].
  cbn [print_fields]. by rewrite <- IH.
Qed.

Lemma size_JArr l : size (JArr l) = S (sizes l).
Proof.
  induction l as [|x r IH]; [reflexivity|].
  cbn [size sizes] in *. lia.
Qed.

Lemma size_JObj l : size (JObj l) = S (field_sizes l).
Proof.
  induction l as [|[key x] r IH]; [reflexivity|].
  cbn [size field_sizes] in *. lia.
Qed.

Lemma hex_of_char h : (h < 16)%N -> hex_of (hex_char h) = Some h.
Proof.
  intros Hh.
  assert (Hc : (h = 0 \/ h = 1 \/ h = 2 \/ h = 3 \/ h = 4 \/ h = 5 \/ h = 6 \/
                h = 7 \/ h = 8 \/ h = 9 \/ h = 10 \/ h = 11 \/ h = 12 \/
                h = 13 \/ h = 14 \/ h = 15)%N) by lia.
  repeat (destruct Hc as [-> | Hc]); try subst h; reflexivity.
Qed.

Lemma parse_string_plain c k str r :
  Ascii.eqb c quote = false -> Ascii.eqb c "\" = false ->
  (N_of_ascii c <? 32)%N = false ->
  parse_string k = Some (str, r) ->
  parse_string (String c k) = Some (String c str, r).
Proof.
  intros Hq Hb Hn Hk. cbn [parse_string]. by rewrite Hq, Hb, Hn, Hk.
Qed.

Lemma parse_string_short e c k str r :
  In (e, c) [(quote, quote); ("\", "\"); ("b", "008"); ("t", "009");
             ("n", "010"); ("f", "012"); ("r", "013")]%char ->
  parse_string k = Some (str, r) ->
  parse_string (String "\" (String e k)) = Some (String c str, r).
Proof.
  intros Hin Hk. cbn [In] in Hin.
  repeat (destruct Hin as [[= <- <-] | Hin]); [..|done];
    cbn [parse_string]; cbn [Ascii.eqb Bool.eqb quote]; cbv iota;
    by rewrite Hk.
Qed.

Lemma parse_string_unicode a b k str r :
  (a < 8)%N -> (b < 16)%N ->
  parse_string k = Some (str, r) ->
  parse_string
    (String "\" (String "u" (String "0" (String "0"
       (String (hex_char a) (String (hex_char b) k))))))
  = Some (String (ascii_of_N (a * 16 + b)) str, r).
Proof.
  intros Ha Hb Hk. cbn [parse_string]. cbn [Ascii.eqb Bool.eqb quote]. cbv iota.
  change (hex_of "0") with (Some 0%N).
  rewrite !hex_of_char by lia. cbv iota.
  replace ((0 * 16 + 0) * 16 + a)%N with a by lia.
  destruct (N.ltb_spec (a * 16 + b) 128); [|lia].
  by rewrite Hk.
Qed.

Lemma parse_escape_char c k str r :
  parse_string k = Some (str, r) ->
  parse_string (escape_char c k) = Some (String c str, r).
Proof.
  intros Hk. unfold escape_char.
  pose proof (ascii_N_embedding c) as Hc.
  pose proof (N_ascii_bounded c) as Hbound.
  destruct (Ascii.eqb_spec c quote) as [-> | Hq].
  { apply parse_string_short; [|done]. cbn. tauto. }
  destruct (Ascii.eqb_spec c "\") as [-> | Hbs].
  { apply parse_string_short; [|done]. cbn. tauto. }
  destruct (N.eqb_spec (N_of_ascii c) 8) as [E|_].
  { rewrite E in Hc. subst c. apply parse_string_short; [|done]. cbn. tauto. }
  destruct (N.eqb_spec (N_of_ascii c) 9) as [E|_].
  { rewrite E in Hc. subst c. apply parse_string_short; [|done]. cbn. tauto. }
  destruct (N.eqb_spec (N_of_ascii c) 10) as [E|_].
  { rewrite E in Hc. subst c. apply parse_string_short; [|done]. cbn. tauto. }
  destruct (N.eqb_spec (N_of_ascii c) 12) as [E|_].
  { rewrite E in Hc. subst c. apply parse_string_short; [|done]. cbn. tauto. }
  destruct (N.eqb_spec (N_of_ascii c) 13) as [E|_].
  { rewrite E in Hc. subst c. apply parse_string_short; [|done]. cbn. tauto. }
  destruct (N.ltb_spec (N_of_ascii c) 32) as [Hlt | Hge].
  - rewrite parse_string_unicode with (str := str) (r := r); [|
      apply N.Div0.div_lt_upper_bound; lia | apply N.mod_lt; lia | done].
    rewrite N.mul_comm, <- N.div_mod by lia. by rewrite Hc.
  - apply parse_string_plain; [by apply Ascii.eqb_neq.. | | done].
    by apply N.ltb_ge.
Qed.

Lemma parse_print_string s k : parse_string (print_string s k) = Some (s, k).
Proof.
  induction s as [|c s IH]; [reflexivity|].
  cbn [print_string]. by apply parse_escape_char.
Qed.

Lemma scan_print_uint u k :
  nodigit k -> scan_uint (print_uint u k) = (u, k).
Proof.
  intros Hk. induction u as [|u IH|u IH|u IH|u IH|u IH|u IH|u IH|u IH|u IH|u IH];
    cbn [print_uint scan_uint digit_uint]; rewrite ?IH; try reflexivity.
  destruct k as [|c k]; [reflexivity|]. cbn [scan_uint]. cbn in Hk. by rewrite Hk.
Qed.

Lemma to_uint_nonnil n : N.to_uint n <> Nil.
Proof.
  destruct n as [|p]; [discriminate|]. apply DecimalPos.Unsigned.to_uint_nonnil.
Qed.

Lemma unorm_to_uint n : unorm (N.to_uint n) = N.to_uint n.
Proof.
  rewrite <- DecimalN.Unsigned.to_of. by rewrite DecimalN.Unsigned.of_to.
Qed.

Lemma parse_number_unsigned sign n k :
  nodigit k ->
  (let '(u, r) := scan_uint (print_uint (N.to_uint n) k) in
   match u with
   | Nil => None
   | _ => if uint_beq (unorm u) u
          then Some (JNum (sign * Z.of_N (N.of_uint u)), r)
          else None
   end) = Some (JNum (sign * Z.of_N n), k).
Proof.
  intros Hk. rewrite scan_print_uint by done.
  pose proof (to_uint_nonnil n) as Hn.
  rewrite unorm_to_uint, internal_uint_dec_lb by reflexivity.
  rewrite DecimalN.Unsigned.of_to.
  by destruct (N.to_uint n).
Qed.

Lemma parse_print_number fuel n k :
  nodigit k ->
  parse (S fuel) (print_number n k) = Some (JNum n, k).
Proof.
  intros Hk. unfold print_number.
  destruct (Z.ltb_spec n 0) as [Hneg | Hpos].
  - cbn [parse]. cbn [Ascii.eqb Bool.eqb quote]. cbv iota.
    unfold parse_number. rewrite parse_number_unsigned by done.
    do 3 f_equal. lia.
  - pose proof (parse_number_unsigned 1 (Z.to_N n) k Hk) as Hu.
    pose proof (to_uint_nonnil (Z.to_N n)) as Hn.
    destruct (N.to_uint (Z.to_N n)) as [|u|u|u|u|u|u|u|u|u|u]; [done|..];
      cbn [print_uint] in *; cbn [parse]; cbn [Ascii.eqb Bool.eqb quote];
      cbv iota; unfold parse_number; rewrite Hu; do 3 f_equal; lia.
Qed.

(** The text of a value never starts with a closing bracket. *)
Lemma print_head x k :
  exists c r, print x k = String c r /\ Ascii.eqb c "]" = false.
Proof.
  destruct x as [|[]|n|s|l|l]; try (by eexists _, _).
  unfold print. unfold print_number.
  destruct (n <? 0); [by eexists _, _|].
  pose proof (to_uint_nonnil (Z.to_N n)) as Hn.
  destruct (N.to_uint (Z.to_N n)); [done|..]; by eexists _, _.
Qed.

Lemma nodigit_close k : nodigit (String "]" k).
Proof. reflexivity. Qed.

Lemma nodigit_comma k : nodigit (String "," k).
Proof. reflexivity. Qed.

Lemma nodigit_brace k : nodigit (String "}" k).
Proof. reflexivity. Qed.

Lemma parse_print_all fuel :
  (forall j k, (size j <= fuel)%nat -> nodigit k ->
     parse fuel (print j k) = Some (j, k)) /\
  (forall l k, l <> [] -> (sizes l <= fuel)%nat ->
     parse_items fuel (print_items l k) = Some (l, k)) /\
  (forall l k, l <> [] -> (field_sizes l <= fuel)%nat ->
     parse_fields fuel (print_fields l k) = Some (l, k)).
Proof.
  induction fuel as [|fuel (IHv & IHi & IHf)].
  { split; [|split].
    - intros j k Hs. destruct j; cbn in Hs; lia.
    - intros [|x l] k Hl Hs; [done|]. cbn in Hs. lia.
    - intros [|[key x] l] k Hl Hs; [done|]. cbn in Hs. lia. }
  split; [|split].
  - intros j k Hs Hk. destruct j as [|[]|n|s|l|l].
    + reflexivity.
    + reflexivity.
    + reflexivity.
    + by apply parse_print_number.
    + cbn [print parse]. cbn [Ascii.eqb Bool.eqb quote]. cbv iota.
      by rewrite parse_print_string.
    + rewrite print_JArr. rewrite size_JArr in Hs.
      destruct l as [|x l]; [reflexivity|].
      cbn [print_items].
      destruct (print_head x (match l with
                              | [] => String "]" k
                              | _ :: _ => String "," (print_items l k)
                              end)) as (c & r & Hp & Hc).
      cbn [parse]. rewrite Hp, Hc. rewrite <- Hp.
      change (print x _) with (print_items (x :: l) k).
      rewrite IHi by (done || lia). reflexivity.
    + rewrite print_JObj. rewrite size_JObj in Hs.
      destruct l as [|[key x] l]; [reflexivity|].
      cbn [parse]. cbn [print_fields].
      change (Ascii.eqb quote "}") with false. cbv iota.
      change (String quote (print_string key _))
        with (print_fields ((key, x) :: l) k).
      rewrite IHf by (done || lia). reflexivity.
  - intros [|x l] k Hl Hs; [done|]. cbn [sizes] in Hs.
    cbn [print_items parse_items].
    rewrite IHv; [|lia|by destruct l]. cbn [mbind option_bind].
    destruct l as [|y l]; [reflexivity|].
    rewrite IHi by (done || lia). reflexivity.
  - intros [|[key x] l] k Hl Hs; [done|]. cbn [field_sizes] in Hs.
    cbn [print_fields parse_fields].
    change (Ascii.eqb quote quote) with true. cbv iota.
    rewrite parse_print_string. cbn [mbind option_bind].
    rewrite IHv; [|lia|by destruct l]. cbn [mbind option_bind].
    destruct l as [|y l]; [reflexivity|].
    rewrite IHf by (done || lia). reflexivity.
Qed.

Lemma length_escape_char c k :
  (S (String.length k) <= String.length (escape_char c k))%nat.
Proof.
  unfold escape_char.
  repeat (match goal with
          | |- context [if ?b then _ else _] => destruct b
          end); cbn [String.length]; lia.
Qed.

Lemma length_print_string s k :
  (S (String.length k) <= String.length (print_string s k))%nat.
Proof.
  induction s as [|c s IH]; cbn [print_string String.length]; [lia|].
  pose proof (length_escape_char c (print_string s k)). lia.
Qed.

Lemma length_print_uint u k :
  u <> Nil -> (S (String.length k) <= String.length (print_uint u k))%nat.
Proof.
  assert (Hle : forall v, (String.length k <= String.length (print_uint v k))%nat).
  { induction v; cbn [print_uint String.length]; lia. }
  destruct u; [done|..]; intros _; cbn [print_uint String.length];
    match goal with |- context [print_uint ?v k] => specialize (Hle v) end; lia.
Qed.

Lemma length_print_all fuel :
  (forall j k, (size j <= fuel)%nat ->
     (size j + String.length k <= String.length (print j k))%nat) /\
  (forall l k, (sizes l <= fuel)%nat ->
     (sizes l + String.length k <= String.length (print_items l k))%nat) /\
  (forall l k, (field_sizes l <= fuel)%nat ->
     (field_sizes l + String.length k
      <= String.length (print_fields l k))%nat).
Proof.
  induction fuel as [|fuel (IHv & IHi & IHf)].
  { split; [|split].
    - intros j k Hs. destruct j; cbn in Hs; lia.
    - intros [|x l] k Hs; [cbn; lia|]. cbn in Hs. lia.
    - intros [|[key x] l] k Hs; [cbn; lia|]. cbn in Hs. lia. }
  split; [|split].
  - intros j k Hs. destruct j as [|[]|n|s|l|l].
    + cbn. lia.
    + cbn. lia.
    + cbn. lia.
    + cbn [size print]. unfold print_number.
      pose proof (length_print_uint (N.to_uint (Z.to_N n)) k
                    (to_uint_nonnil _)).
      pose proof (length_print_uint (N.to_uint (Z.to_N (- n))) k
                    (to_uint_nonnil _)).
      destruct (n <? 0); cbn [String.length]; lia.
    + cbn [size print String.length].
      pose proof (length_print_string s k). lia.
    + rewrite print_JArr. rewrite size_JArr in *. cbn [String.length].
      assert (Hl : (sizes l <= fuel)%nat) by lia.
      specialize (IHi l k Hl). lia.
    + rewrite print_JObj. rewrite size_JObj in *. cbn [String.length].
      assert (Hl : (field_sizes l <= fuel)%nat) by lia.
      specialize (IHf l k Hl). lia.
  - intros [|x l] k Hs; [cbn; lia|]. cbn [sizes] in *.
    cbn [print_items].
    destruct l as [|y l].
    + assert (Hx : (size x <= fuel)%nat) by lia.
      specialize (IHv x (String "]" k) Hx). cbn [String.length sizes] in *. lia.
    + assert (Hx : (size x <= fuel)%nat) by lia.
      assert (Hl : (sizes (y :: l) <= fuel)%nat) by lia.
      specialize (IHv x (String "," (print_items (y :: l) k)) Hx).
      specialize (IHi (y :: l) k Hl). cbn [String.length] in *. lia.
  - intros [|[key x] l] k Hs; [cbn; lia|]. cbn [field_sizes] in *.
    cbn [print_fields String.length].
    destruct l as [|y l].
    + assert (Hx : (size x <= fuel)%nat) by lia.
      specialize (IHv x (String "}" k) Hx).
      pose proof (length_print_string key (String ":" (print x (String "}" k)))).
      cbn [String.length field_sizes] in *. lia.
    + assert (Hx : (size x <= fuel)%nat) by lia.
      assert (Hl : (field_sizes (y :: l) <= fuel)%nat) by lia.
      specialize (IHv x (String "," (print_fields (y :: l) k)) Hx).
      specialize (IHf (y :: l) k Hl).
      pose proof (length_print_string key
                    (String ":" (print x (String "," (print_fields (y :: l) k))))).
      cbn [String.length] in *. lia.
Qed.

Lemma JSON_parse_stringify_reference j : JSON_parse (JSON_stringify j) = Some j.
Proof.
  unfold JSON_parse, JSON_stringify.
  destruct (length_print_all (size j)) as [Hlen _].
  specialize (Hlen j EmptyString (Nat.le_refl _)).
  destruct (parse_print_all (S (String.length (print j EmptyString)))) as [Hp _].
  rewrite Hp; [reflexivity | lia | exact I].
Qed.

Lemma JSON_parse_empty_reference : JSON_parse EmptyString = None.
Proof. reflexivity. Qed.

Lemma digit_of_char d : 0 <= d <= 9 -> digit_of (digit_char d) = Some d.
Proof.
  intros Hd.
  assert (Hc : d = 0 \/ d = 1 \/ d = 2 \/ d = 3 \/ d = 4 \/ d = 5 \/
               d = 6 \/ d = 7 \/ d = 8 \/ d = 9) by lia.
  repeat (destruct Hc as [-> | Hc]); try subst d; reflexivity.
Qed.

Lemma digits_pad w n acc k :
  0 <= n < 10 ^ Z.of_nat w ->
  digits w acc (pad w n k) = Some (acc * 10 ^ Z.of_nat w + n, k).
Proof.
  revert n acc. induction w as [|w IH]; intros n acc Hn.
  - simpl in *. do 2 f_equal. lia.
  - cbn [pad digits].
    assert (Hp : 0 < 10 ^ Z.of_nat w) by (apply Z.pow_pos_nonneg; lia).
    assert (Hs : 10 ^ Z.of_nat (S w) = 10 * 10 ^ Z.of_nat w).
    { rewrite Nat2Z.inj_succ, Z.pow_succ_r by lia. reflexivity. }
    rewrite Hs in Hn.
    rewrite digit_of_char.
    2:{ split; [apply Z.div_pos; lia|].
        assert (n / 10 ^ Z.of_nat w < 10); [|lia].
        apply Z.div_lt_upper_bound; lia. }
    rewrite IH by (apply Z.mod_pos_bound; lia).
    do 2 f_equal. rewrite Hs.
    pose proof (Z.div_mod n (10 ^ Z.of_nat w)). lia.
Qed.

Lemma digits_no_digit w acc c r :
  digit_of c = None -> digits (S w) acc (String c r) = None.
Proof. intros Hc. cbn [digits]. by rewrite Hc. Qed.

Lemma parse_year_text y k :
  -999999 <= y <= 999999 ->
  parse_year (year_text y k) = Some (y, k).
Proof.
  intros Hy. unfold year_text, parse_year.
  destruct (Z.leb_spec 0 y); destruct (Z.leb_spec y 9999); simpl andb; cbv iota.
  - rewrite digits_pad by (simpl; lia). simpl. do 2 f_equal.
  - destruct (Z.ltb_spec y 0); [lia|].
    rewrite digits_no_digit by reflexivity.
    rewrite digits_pad by (simpl; lia). do 2 f_equal. lia.
  - destruct (Z.ltb_spec y 0); [|lia].
    rewrite digits_no_digit by reflexivity.
    rewrite digits_pad by (simpl; lia). cbn [mbind option_bind].
    rewrite Z.mul_0_l, Z.add_0_l.
    destruct (Z.eqb_spec (Z.abs y) 0); [lia|]. do 2 f_equal. lia.
  - lia.
Qed.

Lemma year_of_inRange t :
  Time.inRange t -> -999999 <= Time.YearFromTime t <= 999999.
Proof.
  unfold Time.inRange, Time.maxTime, Time.YearFromTime. intros Ht.
  pose proof (YearFromDay_spec (Time.Day t)) as Hs.
  assert (Hd : -100000000 <= Time.Day t <= 100000000).
  { unfold Time.Day, Time.msPerDay. Z.div_mod_to_equations. lia. }
  unfold Time.DayFromYear in Hs. Z.div_mod_to_equations. lia.
Qed.

Lemma Date_parse_toISOString_reference t :
  Time.inRange t -> Date_parse (toISOString t) = Some t.
Proof.
  intros Ht. unfold Date_parse, toISOString.
  pose proof (TimeWithinDay_range t) as Htm. unfold Time.msPerDay in Htm.
  pose proof (MonthFromDay_range (Time.Day t)) as Hmo.
  pose proof (DateFromDay_range (Time.Day t)) as Hd.
  rewrite parse_year_text by (by apply year_of_inRange).
  cbn [mbind option_bind expect Ascii.eqb Bool.eqb].
  rewrite digits_pad by (unfold Time.MonthFromTime; simpl; lia).
  cbn [mbind option_bind expect Ascii.eqb Bool.eqb].
  rewrite digits_pad.
  2:{ unfold Time.DateFromTime. simpl.
      assert (Time.DaysInMonth (Time.MonthFromDay (Time.Day t))
                (Time.InLeapYear (Time.YearFromDay (Time.Day t))) <= 31); [|lia].
      destruct (InLeapYear_cases (Time.YearFromDay (Time.Day t))) as [-> | ->];
      unfold Time.DaysInMonth;
      repeat (match goal with |- context [match ?x with _ => _ end] => destruct x end); lia. }
  cbn [mbind option_bind expect Ascii.eqb Bool.eqb].
  rewrite digits_pad by (simpl; Z.div_mod_to_equations; lia).
  cbn [mbind option_bind expect Ascii.eqb Bool.eqb].
  rewrite digits_pad by (simpl; Z.div_mod_to_equations; lia).
  cbn [mbind option_bind expect Ascii.eqb Bool.eqb].
  rewrite digits_pad by (simpl; Z.div_mod_to_equations; lia).
  cbn [mbind option_bind expect Ascii.eqb Bool.eqb].
  rewrite digits_pad by (simpl; Z.div_mod_to_equations; lia).
  cbn [mbind option_bind expect Ascii.eqb Bool.eqb String.eqb andb].
  rewrite !Z.mul_0_l, !Z.add_0_l.
  replace (Time.MonthFromTime t + 1 - 1) with (Time.MonthFromTime t) by lia.
  unfold Time.MonthFromTime, Time.DateFromTime, Time.YearFromTime.
  rewrite <- (Z.add_0_r (Time.DateFromDay (Time.Day t))) at 3.
  rewrite MakeDay_of_fields, Z.add_0_r.
  replace (_ + _ + _ + _) with (Time.TimeWithinDay t)
    by (Z.div_mod_to_equations; lia).
  rewrite MakeDate_Day, TimeClip_inRange by done.
  repeat (match goal with
          | |- context [?a <=? ?b] =>
              destruct (Z.leb_spec a b);
              [|exfalso; Z.div_mod_to_equations; lia]
          end).
  reflexivity.
Qed.


End ReferenceFacts.

(** The reference platform, with local time [offset] ms ahead of UTC. *)
Definition reference_platform (offset : Z) : Platform :=
  {| JSON_stringify := Reference.JSON_stringify;
     JSON_parse := Reference.JSON_parse;
     toISOString := Reference.toISOString;
     Date_parse := Reference.Date_parse;
     LocalTZA := fun _ _ => offset;
     JSON_parse_stringify := fun j _ => JSON_parse_stringify_reference j;
     JSON_parse_empty := JSON_parse_empty_reference;
     Date_parse_toISOString := Date_parse_toISOString_reference |}.

(** * The model at work *)

(** A browser whose local time is one hour ahead of UTC. *)
Definition browser : Platform := reference_platform 3600000.

Module Scenario.

Import CacheService.

(** A fresh origin and a service that has not been initialised. *)
Definition origin : World := {| databases := ∅; console := [] |}.

Definition fresh : CacheService.t := constructor "EventCache" None None.

(** The world and the service after a first, successful [init()]. *)
Definition opened : World := snd (fst (init Success origin fresh)).

Definition service : CacheService.t := snd (init Success origin fresh).

(** The world after [put("A", {x: 1}, new Date(60000))] at time 0. *)
Definition payload : json := JObj [("x"%string, JNum 1)].

Definition stored : World :=
  snd (put (H := browser) 0 Success opened service "A" (Some payload)
         (Some (Some 60000))).

(** The record that put wrote, and the object store holding it. *)
Definition record : string :=
  Reference.text "{'value':{'x':1},'expiration':'1970-01-01T00:01:00.000Z'}".

Definition store : ObjectStore := {[ "A"%string := record ]}.

(** Two services that differ in the verbose flag only. *)
Definition loud : CacheService.t := constructor "EventCache" None (Some true).

Definition quiet : CacheService.t := constructor "EventCache" None (Some false).

End Scenario.

Example init_fresh :
  CacheService.init Success Scenario.origin Scenario.fresh
  = (Fulfilled true, Scenario.opened, Scenario.service)
  /\ CacheService.db Scenario.service = Some {| name := "EventCache" |}
  /\ transaction Scenario.opened {| name := "EventCache" |} "CacheStore"
     = inr ∅.
Proof. vm_compute. repeat split. Qed.

Example stored_record :
  transaction Scenario.stored {| name := "EventCache" |} "CacheStore"
  = inr Scenario.store.
Proof. vm_compute. reflexivity. Qed.

(** ** The claims on the scenario *)

Lemma ready_opened : Ready Scenario.opened Scenario.service ∅.
Proof. exists {| name := "EventCache" |}. split; vm_compute; reflexivity. Qed.

Lemma ready_stored : Ready Scenario.stored Scenario.service Scenario.store.
Proof. exists {| name := "EventCache" |}. split; vm_compute; reflexivity. Qed.

Lemma stored_lookup : Scenario.store !! "A"%string = Some Scenario.record.
Proof. vm_compute. reflexivity. Qed.

Lemma stored_entry :
  entry_of (H := browser) Scenario.record
  = Some (Some Scenario.payload, Some 60000).
Proof. vm_compute. reflexivity. Qed.

Lemma get_expires_on_read_witness :
  Ready Scenario.stored Scenario.service Scenario.store /\
  Scenario.store !! "A"%string = Some Scenario.record /\
  entry_of (H := browser) Scenario.record
    = Some (Some Scenario.payload, Some 60000) /\
  (60000 <= 61000 ->
     fst (CacheService.get_calls (H := browser) 61000 Success Success
            Scenario.stored Scenario.service "A")
       = [resolve undefined; resolve (Some Scenario.payload)] /\
     fst (CacheService.get (H := browser) 61000 Success Success
            Scenario.stored Scenario.service "A")
       = Fulfilled undefined /\
     snd (CacheService.get (H := browser) 61000 Success Success
            Scenario.stored Scenario.service "A")
       = snd (CacheService.delete Success Scenario.stored Scenario.service "A") /\
     Ready (snd (CacheService.get (H := browser) 61000 Success Success
                   Scenario.stored Scenario.service "A"))
       Scenario.service (base.delete "A"%string Scenario.store)) /\
  (61000 < 60000 ->
     CacheService.get (H := browser) 61000 Success Success
       Scenario.stored Scenario.service "A"
     = (Fulfilled (Some Scenario.payload), Scenario.stored)).
Proof.
  split; [exact ready_stored|]. split; [exact stored_lookup|].
  split; [exact stored_entry|].
  exact (get_expires_on_read (H := browser) 61000 Success Scenario.stored
           Scenario.service Scenario.store "A" Scenario.record
           (Some Scenario.payload) 60000
           ready_stored stored_lookup stored_entry).
Defined.

Lemma get_miss_follows_flag_witness :
  Ready Scenario.opened Scenario.service ∅ /\
  (∅ : ObjectStore) !! "missing"%string = None /\
  CacheServiceRevised.get (H := browser) 0 Success Success
    Scenario.opened Scenario.service "missing" (Some true)
  = (Rejected (Message ("Nothing found for " +:+ "missing")), Scenario.opened) /\
  CacheServiceRevised.get (H := browser) 0 Success Success
    Scenario.opened Scenario.service "missing" (Some false)
  = (Fulfilled undefined, Scenario.opened) /\
  CacheServiceRevised.get (H := browser) 0 Success Success
    Scenario.opened Scenario.service "missing" None
  = CacheServiceRevised.get (H := browser) 0 Success Success
      Scenario.opened Scenario.service "missing" (Some true).
Proof.
  split; [exact ready_opened|]. split; [reflexivity|].
  exact (get_miss_follows_flag (H := browser) 0 Success Scenario.opened
           Scenario.service ∅ "missing" ready_opened eq_refl).
Defined.

(** The first copy of the class (src/unnamed/part_001) is older: its [get]
    takes the key only and is rejected on every miss, where the revised
    copy called with [false] resolves with [undefined]. *)
Example first_copy_rejects_every_miss :
  CacheService.get (H := browser) 0 Success Success
    Scenario.opened Scenario.service "missing"
  = (Rejected (Message "Nothing found for missing"), Scenario.opened) /\
  CacheServiceRevised.get (H := browser) 0 Success Success
    Scenario.opened Scenario.service "missing" (Some false)
  = (Fulfilled undefined, Scenario.opened).
Proof. split; vm_compute; reflexivity. Qed.

Lemma serializable_payload : serializable (Some Scenario.payload).
Proof. reflexivity. Qed.

Lemma put_get_roundtrip_witness :
  serializable (Some Scenario.payload) /\
  Time.inRange 60000 /\
  fst (CacheService.put (H := browser) 0 Success Scenario.opened
         Scenario.service "A" (Some Scenario.payload) (Some (Some 60000)))
    = Fulfilled true /\
  59999 < 60000 /\
  CacheService.get (H := browser) 59999 Success Success
    (snd (CacheService.put (H := browser) 0 Success Scenario.opened
            Scenario.service "A" (Some Scenario.payload) (Some (Some 60000))))
    Scenario.service "A"
  = (Fulfilled (Some Scenario.payload),
     snd (CacheService.put (H := browser) 0 Success Scenario.opened
            Scenario.service "A" (Some Scenario.payload) (Some (Some 60000)))).
Proof.
  assert (Hr : Time.inRange 60000) by (unfold Time.inRange, Time.maxTime; lia).
  assert (Hp : fst (CacheService.put (H := browser) 0 Success Scenario.opened
                      Scenario.service "A" (Some Scenario.payload)
                      (Some (Some 60000))) = Fulfilled true)
    by (vm_compute; reflexivity).
  assert (Hlt : 59999 < 60000) by lia.
  split; [exact serializable_payload|].
  split; [exact Hr|]. split; [exact Hp|]. split; [exact Hlt|].
  exact (put_get_roundtrip (H := browser) 0 59999 Success Success
           Scenario.opened Scenario.service "A" (Some Scenario.payload) 60000
           serializable_payload Hr Hp Hlt).
Defined.

Lemma put_default_expiration_witness :
  Ready Scenario.opened Scenario.service ∅ /\
  serializable (Some Scenario.payload) /\
  Time.inRange (1000 + 3600000) /\
  CacheService.createPersistable (H := browser) 1000 (Some Scenario.payload) None
    = stringify_record (H := browser) (Some Scenario.payload)
        (Some (1000 + 3600000)) /\
  entry_of (H := browser)
    (CacheService.createPersistable (H := browser) 1000
       (Some Scenario.payload) None)
    = Some (Some Scenario.payload, Some (1000 + 3600000)) /\
  fst (CacheService.put (H := browser) 1000 Success Scenario.opened
         Scenario.service "A" (Some Scenario.payload) None) = Fulfilled true /\
  Ready (snd (CacheService.put (H := browser) 1000 Success Scenario.opened
                Scenario.service "A" (Some Scenario.payload) None))
    Scenario.service
    (<["A"%string :=
         CacheService.createPersistable (H := browser) 1000
           (Some Scenario.payload) None]> ∅).
Proof.
  assert (Hr : Time.inRange (1000 + 3600000))
    by (unfold Time.inRange, Time.maxTime; lia).
  split; [exact ready_opened|]. split; [exact serializable_payload|].
  split; [exact Hr|].
  exact (put_default_expiration (H := browser) 1000 Scenario.opened
           Scenario.service ∅ "A" (Some Scenario.payload) ready_opened
           serializable_payload Hr).
Defined.

Lemma cache_only_origin : cache_only Scenario.origin.
Proof. intros n d Hd. vm_compute in Hd. discriminate Hd. Qed.

Lemma reachable_opened :
  reachable (H := browser) Scenario.origin Scenario.fresh
    Scenario.opened Scenario.service.
Proof.
  exact (reachable_step (H := browser) Scenario.origin Scenario.fresh
           (CallInit Success) Scenario.origin Scenario.fresh
           (reachable_start Scenario.origin Scenario.fresh)).
Qed.

Lemma put_reports_write_failure_witness :
  Ready Scenario.opened Scenario.service ∅ /\
  fst (CacheService.put (H := browser) 0 Failure Scenario.opened
         Scenario.service "A" (Some Scenario.payload) None)
  = Fulfilled false /\
  cache_only Scenario.origin /\
  CacheService.db Scenario.fresh = None /\
  reachable (H := browser) Scenario.origin Scenario.fresh
    Scenario.opened Scenario.service /\
  (forall r,
     fst (CacheService.put (H := browser) 0 Failure Scenario.opened
            Scenario.service "A" (Some Scenario.payload) None) = Rejected r ->
     CacheService.db Scenario.service = None /\
     r = Message "Database doesn't exist.").
Proof.
  destruct (put_reports_write_failure (H := browser) 0 Failure Scenario.opened
              Scenario.service "A" (Some Scenario.payload) None)
    as (Hready & _ & Hreach).
  split; [exact ready_opened|]. split; [exact (Hready ∅ ready_opened)|].
  split; [exact cache_only_origin|]. split; [reflexivity|].
  split; [exact reachable_opened|].
  exact (proj2 (Hreach Scenario.origin Scenario.fresh cache_only_origin
                  eq_refl reachable_opened)).
Defined.

Lemma accessors_need_connection_witness :
  CacheService.db Scenario.fresh = None /\
  CacheService.get (H := browser) 0 Success Success Scenario.origin
    Scenario.fresh "A"
    = (Rejected (Message "Database doesn't exist."), Scenario.origin) /\
  CacheService.put (H := browser) 0 Success Scenario.origin Scenario.fresh "A"
    (Some Scenario.payload) None
    = (Rejected (Message "Database doesn't exist."), Scenario.origin) /\
  CacheService.delete Success Scenario.origin Scenario.fresh "A"
    = (Rejected (Message "Database doesn't exist."), Scenario.origin) /\
  CacheService.flush Success Scenario.origin Scenario.fresh
    = (Rejected (Message "Database doesn't exist."), Scenario.origin).
Proof.
  split; [reflexivity|].
  exact (accessors_need_connection (H := browser) 0 Success Success
           Scenario.origin Scenario.fresh "A" (Some Scenario.payload) None
           eq_refl).
Defined.

Lemma init_idempotent_witness :
  fst (fst (CacheService.init Success Scenario.origin Scenario.fresh))
    = Fulfilled true /\
  CacheService.init Success
    (snd (fst (CacheService.init Success Scenario.origin Scenario.fresh)))
    (snd (CacheService.init Success Scenario.origin Scenario.fresh))
    = (Fulfilled true,
       snd (fst (CacheService.init Success Scenario.origin Scenario.fresh)),
       snd (CacheService.init Success Scenario.origin Scenario.fresh)) /\
  (is_Some (CacheService.db Scenario.fresh) ->
     CacheService.init Success Scenario.origin Scenario.fresh
     = (Fulfilled true, Scenario.origin, Scenario.fresh)) /\
  (CacheService.db Scenario.fresh = None ->
     CacheService.db
       (snd (CacheService.init Success Scenario.origin Scenario.fresh))
     = Some {| name := CacheService.dbName Scenario.fresh |} /\
     if from_option version 0
          (databases Scenario.origin !! CacheService.dbName Scenario.fresh)
        <? CacheService.dbVersion Scenario.fresh
     then databases
            (snd (fst (CacheService.init Success Scenario.origin Scenario.fresh)))
          = <[CacheService.dbName Scenario.fresh :=
                {| version := CacheService.dbVersion Scenario.fresh;
                   objectStores :=
                     <[CacheService.storeName := ∅]>
                       (from_option objectStores ∅
                          (databases Scenario.origin
                             !! CacheService.dbName Scenario.fresh)) |}]>
              (databases Scenario.origin)
          /\ console Scenario.origin
             `prefix_of`
             console
               (snd (fst (CacheService.init Success Scenario.origin
                            Scenario.fresh)))
     else snd (fst (CacheService.init Success Scenario.origin Scenario.fresh))
          = Scenario.origin).
Proof.
  assert (Hok : fst (fst (CacheService.init Success Scenario.origin
                            Scenario.fresh)) = Fulfilled true)
    by (vm_compute; reflexivity).
  split; [exact Hok|].
  exact (init_idempotent Success Success Scenario.origin Scenario.fresh Hok).
Defined.

Lemma same_but_verbose_loud_quiet :
  same_but_verbose Scenario.loud Scenario.quiet.
Proof. repeat split. Qed.

Lemma verbose_gates_only_logging_witness :
  same_but_verbose Scenario.loud Scenario.quiet /\
  same_store Scenario.origin Scenario.origin /\
  fst (fst (CacheService.init Success Scenario.origin Scenario.loud))
    = fst (fst (CacheService.init Success Scenario.origin Scenario.quiet)) /\
  console (snd (fst (CacheService.init Success Scenario.origin Scenario.loud)))
    = ["Creating version 1 cache"%string] /\
  console (snd (fst (CacheService.init Success Scenario.origin Scenario.quiet)))
    = [].
Proof.
  assert (Hs : same_store Scenario.origin Scenario.origin) by reflexivity.
  split; [exact same_but_verbose_loud_quiet|]. split; [exact Hs|].
  split.
  - exact (proj1 (proj1 (verbose_gates_only_logging (H := browser)
             Scenario.loud Scenario.quiet 0 Success Success
             Scenario.origin Scenario.origin "A" None None
             same_but_verbose_loud_quiet Hs))).
  - split; vm_compute; reflexivity.
Defined.

Lemma put_accepts_any_expiration_witness :
  Ready Scenario.opened Scenario.service ∅ /\
  fst (CacheService.put (H := browser) 5000 Success Scenario.opened
         Scenario.service "A" (Some Scenario.payload) (Some (Some 1000)))
    = Fulfilled true /\
  fst (CacheService.get (H := browser) 5000 Success Success
         (snd (CacheService.put (H := browser) 5000 Success Scenario.opened
                 Scenario.service "A" (Some Scenario.payload)
                 (Some (Some 1000))))
         Scenario.service "A")
    = Fulfilled undefined /\
  Ready (snd (CacheService.get (H := browser) 5000 Success Success
                (snd (CacheService.put (H := browser) 5000 Success
                        Scenario.opened Scenario.service "A"
                        (Some Scenario.payload) (Some (Some 1000))))
                Scenario.service "A"))
    Scenario.service (base.delete "A"%string ∅).
Proof.
  assert (Hr : Time.inRange 1000) by (unfold Time.inRange, Time.maxTime; lia).
  assert (Hle : 1000 <= 5000) by lia.
  destruct (put_accepts_any_expiration (H := browser) 5000 Scenario.opened
              Scenario.service ∅ "A" (Some Scenario.payload) (Some 1000)
              ready_opened) as (Hp & _ & Hget).
  split; [exact ready_opened|]. split; [exact Hp|].
  exact (Hget 1000 5000 serializable_payload eq_refl Hr Hle).
Defined.

(** The last representable instant, as text. *)
Example maxTime_text :
  Reference.toISOString Time.maxTime = "+275760-09-13T00:00:00.000Z"%string.
Proof. vm_compute. reflexivity. Qed.

(** C8 as stated fails: one hour after the last representable instant is
    not a timestamp, and [dateAdd] returns an Invalid Date there. *)
Lemma dateAdd_hour_overflow :
  Date_of_string (H := browser) "+275760-09-13T00:00:00.000Z"
    = Some 8640000000000000 /\
  DateHelper.dateAdd (H := browser) "+275760-09-13T00:00:00.000Z"
    (Some DateHelper.hour) 1 = Some None /\
  DateHelper.dateAdd (H := browser) "+275760-09-13T00:00:00.000Z"
    (Some DateHelper.hour) 1
  <> Some (Some (8640000000000000 + 1 * 3600000)).
Proof. split; [|split]; vm_compute; [reflexivity | reflexivity | discriminate]. Qed.

Lemma dateAdd_shifts_witness :
  Date_of_string (H := browser) "2024-01-31T12:00:00.000Z" = Some 1706702400000 /\
  DateHelper.dateAdd (H := browser) "2024-01-31T12:00:00.000Z"
    (Some DateHelper.hour) 2
  = Some (Some (1706702400000 + 2 * 3600000)) /\
  DateHelper.dateAdd (H := browser) "2024-01-31T12:00:00.000Z"
    (Some DateHelper.day) 1
  = Some (Date_of_string (H := browser) "2024-02-01T12:00:00.000Z") /\
  DateHelper.dateAdd (H := browser) "2024-01-31T12:00:00.000Z"
    (Some DateHelper.month) 1
  = Some (Date_of_string (H := browser) "2024-03-02T12:00:00.000Z") /\
  DateHelper.dateAdd (H := browser) "2024-01-31T12:00:00.000Z" None 1 = None.
Proof.
  assert (Hd : Date_of_string (H := browser) "2024-01-31T12:00:00.000Z"
               = Some 1706702400000) by (vm_compute; reflexivity).
  destruct (dateAdd_shifts (H := browser) "2024-01-31T12:00:00.000Z"
              1706702400000 2 Hd) as (Hh & _ & _).
  destruct (dateAdd_shifts (H := browser) "2024-01-31T12:00:00.000Z"
              1706702400000 1 Hd) as (Hs & Hn & _).
  split; [exact Hd|].
  split; [rewrite (Hh DateHelper.hour); vm_compute; reflexivity|].
  split; [rewrite (Hs DateHelper.day); vm_compute; reflexivity|].
  split; [rewrite (Hs DateHelper.month); vm_compute; reflexivity|].
  exact Hn.
Defined.

(** ** Outside the cache's own databases

    In the specification's data model the connection leads to a database
    that contains the object store, and so it does in every state reached
    on an origin with no database but the cache's.  An origin can hold a
    database of the service's name and version that other code made,
    without the object store: init connects to it without an upgrade, and
    the accessors then fail when they open their transaction. *)

Definition foreign : World :=
  {| databases := {[ "EventCache"%string :=
                       {| version := 1; objectStores := ∅ |} ]};
     console := [] |}.

Example foreign_database_has_no_store :
  CacheService.init Success foreign Scenario.fresh
    = (Fulfilled true, foreign, Scenario.service) /\
  fst (CacheService.put (H := browser) 0 Success foreign Scenario.service "A"
         (Some Scenario.payload) None)
    = Rejected (Thrown "NotFoundError") /\
  ~ cache_only foreign.
Proof.
  split; [vm_compute; reflexivity|]. split; [vm_compute; reflexivity|].
  intros Hco.
  destruct (Hco "EventCache"%string {| version := 1; objectStores := ∅ |})
    as [st Hst]; [vm_compute; reflexivity|].
  vm_compute in Hst. discriminate Hst.
Qed.

(** C5 as stated fails: the service is connected, to a database of its
    name and version that lacks the object store; the write request is not
    even made, and put is rejected with the NotFoundError that opening the
    transaction throws, where the claim has it resolve. *)
Lemma put_rejected_with_connection :
  CacheService.init Success foreign Scenario.fresh
    = (Fulfilled true, foreign, Scenario.service) /\
  is_Some (CacheService.db Scenario.service) /\
  CacheService.put (H := browser) 0 Success foreign Scenario.service "A"
    (Some Scenario.payload) None
  = (Rejected (Thrown "NotFoundError"), foreign) /\
  fst (CacheService.put (H := browser) 0 Success foreign Scenario.service "A"
         (Some Scenario.payload) None)
  <> Fulfilled true.
Proof.
  split; [vm_compute; reflexivity|]. split; [by eexists|].
  split; [vm_compute; reflexivity | vm_compute; discriminate].
Qed.

(** ** More runs of the model *)

(** An upgrade replaces the object store: a verbose service asking for
    version 2 of the database that holds the entry "A" finds the store,
    deletes it and creates an empty one, and says so. *)
Example upgrade_replaces_store :
  let upgraded :=
    snd (fst (CacheService.init Success Scenario.stored
                (CacheService.constructor "EventCache" (Some 2) (Some true)))) in
  transaction upgraded {| name := "EventCache" |} "CacheStore" = inr ∅ /\
  console upgraded
  = ["Clearing out version 1 cache"; "Creating version 2 cache"]%string.
Proof. vm_compute. split; reflexivity. Qed.

(** Asking for a version below the current one fails: init is rejected
    with [false] and nothing changes. *)
Example older_version_is_refused :
  CacheService.init Success
    {| databases := {[ "EventCache"%string :=
                         {| version := 3; objectStores := ∅ |} ]};
       console := [] |}
    Scenario.fresh
  = (Rejected ReasonFalse,
     {| databases := {[ "EventCache"%string :=
                          {| version := 3; objectStores := ∅ |} ]};
        console := [] |},
     Scenario.fresh).
Proof. vm_compute. reflexivity. Qed.

(** The example of the specification: put("A", {x:1}, now + 60 s), then
    get("A") gives {x:1}; 61 s later get("A") gives nothing and the entry
    is gone, so that a further get is rejected. *)
Example sixty_seconds :
  CacheService.get (H := browser) 1000 Success Success
    Scenario.stored Scenario.service "A"
  = (Fulfilled (Some Scenario.payload), Scenario.stored) /\
  fst (CacheService.get (H := browser) 61000 Success Success
         Scenario.stored Scenario.service "A")
  = Fulfilled undefined /\
  fst (CacheService.get (H := browser) 61001 Success Success
         (snd (CacheService.get (H := browser) 61000 Success Success
                 Scenario.stored Scenario.service "A"))
         Scenario.service "A")
  = Rejected (Message "Nothing found for A").
Proof. vm_compute. repeat split. Qed.

(** An Invalid Date as expiration is stored as [null] and reads back as
    the epoch: the entry counts as expired. *)
Example invalid_expiration :
  fst (CacheService.get (H := browser) 5 Success Success
         (snd (CacheService.put (H := browser) 0 Success Scenario.opened
                 Scenario.service "A" (Some Scenario.payload) (Some None)))
         Scenario.service "A")
  = Fulfilled undefined.
Proof. vm_compute. reflexivity. Qed.

(** A record that is not JSON makes the success handler throw: the promise
    of get never settles. *)
Example corrupt_record :
  fst (CacheService.get (H := browser) 0 Success Success
         (commit Scenario.opened {| name := "EventCache" |} "CacheStore"
            {[ "A"%string := "not json"%string ]})
         Scenario.service "A")
  = Pending.
Proof. vm_compute. reflexivity. Qed.

(** flush empties the store; delete of an absent key succeeds. *)
Example flush_and_delete :
  transaction (snd (CacheService.flush Success Scenario.stored Scenario.service))
    {| name := "EventCache" |} "CacheStore" = inr ∅ /\
  fst (CacheService.delete Success Scenario.opened Scenario.service "absent")
  = Fulfilled ().
Proof. vm_compute. split; reflexivity. Qed.

(** Date arithmetic in a local time one hour ahead of UTC.  A year after
    noon UTC of 29 February 2024 is 1 March 2025; at 23:30 UTC that day it
    is 1 March already in local time, and a year later is 1 March 2025
    local, which is 28 February in UTC. *)
Example dateAdd_examples :
  DateHelper.dateAdd (H := browser) "2024-02-29T12:00:00.000Z"
    (Some DateHelper.year) 1
  = Some (Date_of_string (H := browser) "2025-03-01T12:00:00.000Z") /\
  DateHelper.dateAdd (H := browser) "2024-02-29T23:30:00.000Z"
    (Some DateHelper.year) 1
  = Some (Date_of_string (H := browser) "2025-02-28T23:30:00.000Z") /\
  DateHelper.dateAdd (H := browser) "2024-11-30T08:00:00.000Z"
    (Some DateHelper.quarter) 1
  = Some (Date_of_string (H := browser) "2025-03-02T08:00:00.000Z") /\
  DateHelper.dateAdd (H := browser) "2024-12-31T23:59:59.999Z"
    (Some DateHelper.second) 1
  = Some (Date_of_string (H := browser) "2025-01-01T00:00:00.999Z") /\
  DateHelper.dateAdd (H := browser) "2024-01-01T00:00:00.000Z"
    (Some DateHelper.week) (-1)
  = Some (Date_of_string (H := browser) "2023-12-25T00:00:00.000Z") /\
  DateHelper.dateAdd (H := browser) "yesterday" (Some DateHelper.day) 1
  = Some None.
Proof. vm_compute. repeat split. Qed.

(** * Further properties of the code *)

(** ** Keys, overwrites and failures *)

Section StoreProperties.

Context `{Platform}.

Import CacheService.

Lemma flush_ready o w this st :
  Ready w this st ->
  flush o w this =
    match o with
    | Success =>
        (Fulfilled (),
         log this "Successfully cleared cache store"
           (commit w (default {| name := "" |} (db this)) storeName ∅))
    | Failure =>
        (Rejected (Message "Failed to clear cache: [object Event]"),
         log this "Failed to clear cache: [object Event]" w)
    end.
Proof.
  intros (h & Hdb & Htx). unfold flush. rewrite Hdb, Htx. simpl.
  by destruct o.
Qed.

Lemma flush_ready_store w this st :
  Ready w this st -> Ready (snd (flush Success w this)) this ∅.
Proof.
  intros HR. rewrite (flush_ready _ _ _ _ HR). simpl.
  destruct HR as (h & Hdb & Htx). rewrite Hdb. simpl.
  apply Ready_log. by eapply Ready_commit.
Qed.

(** X1: after a delete whose request succeeds, a get on that key is
    rejected as not found, whatever was stored, and every other key holds
    what it held. *)
Theorem delete_then_get now o w this st cacheKey :
  Ready w this st ->
  fst (delete Success w this cacheKey) = Fulfilled () /\
  get now Success o (snd (delete Success w this cacheKey)) this cacheKey
  = (Rejected (Message ("Nothing found for " +:+ cacheKey)),
     snd (delete Success w this cacheKey)) /\
  exists st', Ready (snd (delete Success w this cacheKey)) this st' /\
    st' !! cacheKey = None /\
    forall k, k <> cacheKey -> st' !! k = st !! k.
Proof.
  intros HR. pose proof (delete_ready_store _ _ _ cacheKey HR) as HR'.
  split; [by rewrite (delete_ready _ _ _ _ _ HR)|]. split.
  - eapply get_miss_rejects; [exact HR'|]. apply lookup_delete_eq.
  - exists (base.delete cacheKey st). split; [exact HR'|].
    split; [apply lookup_delete_eq|].
    intros k Hk. by apply lookup_delete_ne.
Qed.

(** X2: deleting a key that is not stored succeeds and leaves the store as
    it is. *)
Theorem delete_absent w this st cacheKey :
  Ready w this st -> st !! cacheKey = None ->
  fst (delete Success w this cacheKey) = Fulfilled () /\
  Ready (snd (delete Success w this cacheKey)) this st.
Proof.
  intros HR Hk. split; [by rewrite (delete_ready _ _ _ _ _ HR)|].
  pose proof (delete_ready_store _ _ _ cacheKey HR) as HR'.
  by rewrite delete_id in HR'.
Qed.

(** X3: after a flush whose request succeeds the store is empty: a get on
    any key is rejected as not found. *)
Theorem flush_then_get now o w this st cacheKey :
  Ready w this st ->
  fst (flush Success w this) = Fulfilled () /\
  Ready (snd (flush Success w this)) this ∅ /\
  get now Success o (snd (flush Success w this)) this cacheKey
  = (Rejected (Message ("Nothing found for " +:+ cacheKey)),
     snd (flush Success w this)).
Proof.
  intros HR. pose proof (flush_ready_store _ _ _ HR) as HR'.
  split; [by rewrite (flush_ready _ _ _ _ HR)|]. split; [exact HR'|].
  eapply get_miss_rejects; [exact HR'|]. apply lookup_empty.
Qed.

(** X4: put overwrites: after two successful puts under one key the store
    is what the second put alone would have left, and a get before the
    second expiration resolves with the second value. *)
Theorem put_overwrites now1 now2 now o w this st cacheKey data1 data2 exp1 e2 :
  Ready w this st -> serializable data2 -> Time.inRange e2 -> now < e2 ->
  let w1 := snd (put now1 Success w this cacheKey data1 exp1) in
  let w2 := snd (put now2 Success w1 this cacheKey data2 (Some (Some e2))) in
  Ready w2 this (<[cacheKey := stringify_record data2 (Some e2)]> st) /\
  get now Success o w2 this cacheKey = (Fulfilled data2, w2).
Proof.
  intros HR Hdata He Hlt w1 w2.
  pose proof (put_ready_store now1 _ _ _ cacheKey data1 exp1 HR) as HR1.
  pose proof (put_ready_store now2 _ _ _ cacheKey data2 (Some (Some e2)) HR1)
    as HR2.
  rewrite insert_insert_eq in HR2. fold w1 in HR2. fold w2 in HR2.
  split; [exact HR2|].
  eapply get_fresh; [exact HR2 | apply lookup_insert_eq | | exact Hlt].
  unfold createPersistable.
  rewrite entry_of_stringify by done. by rewrite new_Date_toJSON_valid.
Qed.

(** X5: a put under one key does not change what a get on another key
    resolves or is rejected with. *)
Theorem put_leaves_other_keys now now' o o' w this st cacheKey other data expire :
  Ready w this st -> other <> cacheKey ->
  fst (get now' o o' (snd (put now Success w this cacheKey data expire))
         this other)
  = fst (get now' o o' w this other).
Proof.
  intros HR Hne.
  pose proof (put_ready_store now _ _ _ cacheKey data expire HR) as HR'.
  destruct HR as (h & Hdb & Htx). destruct HR' as (h' & Hdb' & Htx').
  assert (h' = h) as -> by congruence.
  unfold get, get_calls. rewrite Hdb, Htx, Htx'.
  destruct o; [|done].
  rewrite lookup_insert_ne by done.
  destruct (st !! other) as [record|]; [|done].
  destruct (String.eqb record ""); [done|].
  destruct (JSON_parse record) as [storeObj|]; [|done].
  destruct (Get storeObj "expiration") as [|expiration]; [done|].
  destruct (Get storeObj "value") as [|v]; [done|].
  by destruct (Time.Date_le _ _).
Qed.

(** X6: a write request that fails changes nothing in the store: put then
    resolves with false, delete and flush are rejected with their
    messages. *)
Theorem failed_write_keeps_store now w this st cacheKey data expire :
  Ready w this st ->
  (fst (put now Failure w this cacheKey data expire) = Fulfilled false /\
   Ready (snd (put now Failure w this cacheKey data expire)) this st) /\
  (fst (delete Failure w this cacheKey)
     = Rejected (Message "Failed to delete cache: [object Event]") /\
   Ready (snd (delete Failure w this cacheKey)) this st) /\
  (fst (flush Failure w this)
     = Rejected (Message "Failed to clear cache: [object Event]") /\
   Ready (snd (flush Failure w this)) this st).
Proof.
  intros HR.
  rewrite (put_ready _ _ _ _ _ _ _ _ HR), (delete_ready _ _ _ _ _ HR),
    (flush_ready _ _ _ _ HR). simpl.
  repeat split; by apply Ready_log.
Qed.

(** X7: when the read request fails, get is rejected with the message
    naming the key and nothing changes, whether the key is stored or
    not. *)
Theorem get_read_error now o w this st cacheKey :
  Ready w this st ->
  get now Failure o w this cacheKey
  = (Rejected (Message ("Error getting cached data " +:+ cacheKey)), w).
Proof.
  intros (h & Hdb & Htx). unfold get, get_calls. by rewrite Hdb, Htx.
Qed.

(** X8: expiry is enforced once: the get that finds an entry expired
    resolves with [undefined] and removes it, and the next get on that key
    is rejected as not found. *)
Theorem expired_then_not_found now now' o w this st cacheKey record v e :
  Ready w this st -> st !! cacheKey = Some record ->
  entry_of record = Some (v, Some e) -> e <= now ->
  let w1 := snd (get now Success Success w this cacheKey) in
  fst (get now Success Success w this cacheKey) = Fulfilled undefined /\
  get now' Success o w1 this cacheKey
  = (Rejected (Message ("Nothing found for " +:+ cacheKey)), w1).
Proof.
  intros HR Hst He Hle w1. unfold w1.
  rewrite (get_stale _ _ _ _ _ _ _ _ _ HR Hst He Hle). simpl.
  split; [done|].
  eapply get_miss_rejects; [by apply delete_ready_store|].
  apply lookup_delete_eq.
Qed.

(** X9: when the delete request issued for an expired entry fails, the
    caller does not see it: get still resolves with [undefined], the entry
    stays in the store, and a later get finds it expired again. *)
Theorem failed_cleanup_is_hidden now now' o w this st cacheKey record v e :
  Ready w this st -> st !! cacheKey = Some record ->
  entry_of record = Some (v, Some e) -> e <= now -> now <= now' ->
  let w1 := snd (get now Success Failure w this cacheKey) in
  fst (get now Success Failure w this cacheKey) = Fulfilled undefined /\
  Ready w1 this st /\
  fst (get now' Success o w1 this cacheKey) = Fulfilled undefined.
Proof.
  intros HR Hst He Hle Hlater w1. unfold w1.
  rewrite (get_stale _ _ _ _ _ _ _ _ _ HR Hst He Hle). cbn [fst snd].
  assert (HR' : Ready (snd (delete Failure w this cacheKey)) this st).
  { rewrite (delete_ready _ _ _ _ _ HR). simpl. by apply Ready_log. }
  split; [done|]. split; [exact HR'|].
  rewrite (get_stale now' o _ _ _ _ _ _ _ HR' Hst He) by lia. done.
Qed.

End StoreProperties.

(** ** Records that get cannot read, and what get leaves alone *)

Section ReadProperties.

Context `{Platform}.

Import CacheService.

(** X10: a stored text that is not JSON, or that is the JSON [null], makes
    the success handler of get throw: the promise is neither resolved nor
    rejected, and nothing is deleted. *)
Theorem get_unreadable_record_pends now o w this st cacheKey record :
  Ready w this st -> st !! cacheKey = Some record -> record <> "" ->
  JSON_parse record = None \/ JSON_parse record = Some JNull ->
  get now Success o w this cacheKey = (Pending, w).
Proof.
  intros (h & Hdb & Htx) Hst Hne Hbad. unfold get, get_calls.
  rewrite Hdb, Htx, Hst.
  destruct (String.eqb_spec record ""); [done|].
  by destruct Hbad as [-> | ->].
Qed.

(** X11: an entry whose expiration does not make a valid Date (a record
    without the property, or with text that is no date) never expires: get
    resolves with its value at any time and deletes nothing. *)
Theorem get_without_expiration_never_expires now o w this st cacheKey record v :
  Ready w this st -> st !! cacheKey = Some record ->
  entry_of record = Some (v, None) ->
  get now Success o w this cacheKey = (Fulfilled v, w).
Proof.
  intros HR Hst He. unfold get.
  by rewrite (get_calls_found _ _ _ _ _ _ _ _ _ HR Hst He).
Qed.

(** X12: get never adds an entry and never touches another key: the store
    after a get is the store before it, less at most the key asked for. *)
Theorem get_touches_only_its_key now o o' w this st cacheKey :
  Ready w this st ->
  exists st', Ready (snd (get now o o' w this cacheKey)) this st' /\
    st' ⊆ st /\
    forall k, k <> cacheKey -> st' !! k = st !! k.
Proof.
  intros HR.
  assert (Hsame : exists st', Ready w this st' /\ st' ⊆ st /\
            forall k, k <> cacheKey -> st' !! k = st !! k)
    by (exists st; done).
  assert (Hdel : exists st', Ready (snd (delete o' w this cacheKey)) this st' /\
            st' ⊆ st /\ forall k, k <> cacheKey -> st' !! k = st !! k).
  { destruct o'.
    - exists (base.delete cacheKey st). split; [by apply delete_ready_store|].
      split; [apply delete_subseteq|]. intros k Hk. by apply lookup_delete_ne.
    - exists st. split; [|done].
      rewrite (delete_ready _ _ _ _ _ HR). simpl. by apply Ready_log. }
  pose proof HR as (h & Hdb & Htx). unfold get, get_calls.
  rewrite Hdb, Htx.
  destruct o; [|done].
  destruct (st !! cacheKey) as [record|]; [|done].
  destruct (String.eqb record ""); [done|].
  destruct (JSON_parse record) as [storeObj|]; [|done].
  destruct (Get storeObj "expiration") as [|expiration]; [done|].
  destruct (Get storeObj "value") as [|v]; [done|].
  by destruct (Time.Date_le _ _).
Qed.

End ReadProperties.

(** ** What the service leaves alone *)

Section FrameProperties.

Context `{Platform}.

Import CacheService.

Lemma object_store_log this msg w n s :
  object_store (log this msg w) n s = object_store w n s.
Proof. unfold object_store. by rewrite databases_log. Qed.

Lemma object_store_commit w h st n s :
  n <> name h \/ s <> storeName ->
  object_store (commit w h storeName st) n s = object_store w n s.
Proof.
  intros Hother. unfold object_store, commit. simpl.
  destruct (decide (name h = n)) as [<- | Hne].
  - rewrite lookup_alter_eq.
    destruct (databases w !! name h) as [d|]; [|done]. simpl.
    destruct Hother as [Hn | Hs]; [done|]. by rewrite lookup_insert_ne.
  - by rewrite lookup_alter_ne.
Qed.

Lemma object_store_write this w msg1 msg2 (o : Outcome) h
    (f : ObjectStore -> ObjectStore) (r : Reason + ObjectStore) n s :
  n <> name h \/ s <> storeName ->
  object_store
    (match r with
     | inl _ => w
     | inr st =>
         match o with
         | Failure => log this msg1 w
         | Success => log this msg2 (commit w h storeName (f st))
         end
     end) n s
  = object_store w n s.
Proof.
  intros Hother. destruct r as [e|st]; [done|].
  destruct o; rewrite object_store_log; [by apply object_store_commit | done].
Qed.

Lemma object_store_delete o w this cacheKey n s :
  n <> target this \/ s <> storeName ->
  object_store (snd (delete o w this cacheKey)) n s = object_store w n s.
Proof.
  intros Hother. unfold delete, target in *.
  destruct (db this) as [h|]; [|done].
  pose proof (object_store_write this w
                "Failed to delete cache: [object Event]"
                ("Successfully stored " +:+ cacheKey +:+ " cache data")
                o h (base.delete cacheKey) (transaction w h storeName) n s
                Hother) as Hw.
  destruct (transaction w h storeName); [done|]. by destruct o.
Qed.

(** X13: no call of the service touches another database or another
    object store of its own database: whatever the call and its outcome,
    every object store but the cache's is as it was. *)
Theorem other_stores_untouched op w this n s :
  n <> target this \/ s <> storeName ->
  object_store (fst (run op w this)) n s = object_store w n s.
Proof.
  intros Hother.
  destruct op as [o|now o odel k|now o k data expire|o k|o];
    cbn [run fst snd].
  - destruct (db this) as [h|] eqn:Hdb.
    + by rewrite (init_connected o w this) by (by rewrite Hdb).
    + assert (Hcase : fst (fst (init o w this)) = Fulfilled true
                      \/ fst (fst (init o w this)) <> Fulfilled true).
      { destruct (fst (fst (init o w this))) as [|[]|r];
          [by right | by left | by right | by right]. }
      destruct Hcase as [Hok|Hno].
      * destruct (init_opens o w this Hdb Hok) as [_ Hworld].
        unfold target in Hother. rewrite Hdb in Hother.
        destruct (_ <? dbVersion this); [|by rewrite Hworld].
        destruct Hworld as [Hdbs _]. unfold object_store. rewrite Hdbs.
        destruct (decide (dbName this = n)) as [<- | Hne].
        -- rewrite lookup_insert_eq. simpl.
           destruct Hother as [Hn | Hs]; [done|].
           rewrite lookup_insert_ne by done.
           by destruct (databases w !! dbName this).
        -- by rewrite lookup_insert_ne.
      * by destruct (init_failure o w this Hdb Hno) as [-> _].
  - unfold get, get_calls.
    pose proof (object_store_delete odel w this k n s Hother) as Hdel.
    destruct (db this) as [h|] eqn:Hdb; [|done].
    destruct (transaction w h storeName) as [e|st]; [done|].
    destruct o; [|done].
    destruct (st !! k) as [record|]; [|done].
    destruct (String.eqb record ""); [done|].
    destruct (JSON_parse record) as [storeObj|]; [|done].
    destruct (Get storeObj "expiration") as [|expiration]; [done|].
    destruct (Get storeObj "value") as [|v]; [done|].
    by destruct (Time.Date_le _ _).
  - unfold put, target in *.
    destruct (db this) as [h|]; [|done].
    pose proof (object_store_write this w
                  "Failed to store data cache: [object Event]"
                  ("Successfully stored " +:+ k +:+ " cache data")
                  o h (fun st => <[k := createPersistable now data expire]> st)
                  (transaction w h storeName) n s Hother) as Hw.
    destruct (transaction w h storeName); [done|]. by destruct o.
  - by apply object_store_delete.
  - unfold flush, target in *.
    destruct (db this) as [h|]; [|done].
    pose proof (object_store_write this w
                  "Failed to clear cache: [object Event]"
                  "Successfully cleared cache store"
                  o h (fun _ => ∅) (transaction w h storeName) n s Hother) as Hw.
    destruct (transaction w h storeName); [done|]. by destruct o.
Qed.

(** X14: a service that is not verbose prints nothing, whatever it is
    asked and however the request ends. *)
Theorem quiet_service_prints_nothing op w this :
  verbose this = false ->
  console (fst (run op w this)) = console w.
Proof.
  intros Hq.
  assert (Hlog : forall msg w0, log this msg w0 = w0)
    by (intros; unfold log; by rewrite Hq).
  destruct op as [o|now o odel k|now o k data expire|o k|o];
    cbn [run fst snd].
  - unfold init, indexedDB_open, onupgradeneeded.
    destruct (db this); [done|].
    destruct (negb _); [done|]. destruct (dbVersion this <? _); [done|].
    destruct o; [|done]. destruct (_ <? dbVersion this); [|done].
    cbn [snd fst]. rewrite !Hlog.
    by destruct (objectStoreNames_contains _ _ _).
  - unfold get, get_calls, delete.
    destruct (db this) as [h|]; [|done].
    destruct (transaction w h storeName) as [e|st]; [done|].
    destruct o; [|done].
    destruct (st !! k) as [record|]; [|done].
    destruct (String.eqb record ""); [done|].
    destruct (JSON_parse record) as [storeObj|]; [|done].
    destruct (Get storeObj "expiration") as [|expiration]; [done|].
    destruct (Get storeObj "value") as [|v]; [done|].
    destruct (Time.Date_le _ _); [|done].
    destruct odel; cbn [snd]; by rewrite Hlog.
  - unfold put. destruct (db this) as [h|]; [|done].
    destruct (transaction w h storeName); [done|].
    destruct o; cbn [snd]; by rewrite Hlog.
  - unfold delete. destruct (db this) as [h|]; [|done].
    destruct (transaction w h storeName); [done|].
    destruct o; cbn [snd]; by rewrite Hlog.
  - unfold flush. destruct (db this) as [h|]; [|done].
    destruct (transaction w h storeName); [done|].
    destruct o; cbn [snd]; by rewrite Hlog.
Qed.

End FrameProperties.

(** ** Opening the database *)

Section OpenProperties.

Context `{Platform}.

Import CacheService.

(** X15: a bump of the version empties the cache: once init has connected
    to a database that was missing or at a lower version, the object store
    is empty and a get on any key is rejected as not found, whatever the
    store held before. *)
Theorem upgrade_empties_cache now o o' w this cacheKey :
  db this = None ->
  from_option version 0 (databases w !! dbName this) < dbVersion this ->
  fst (fst (init o w this)) = Fulfilled true ->
  Ready (snd (fst (init o w this))) (snd (init o w this)) ∅ /\
  get now Success o' (snd (fst (init o w this))) (snd (init o w this)) cacheKey
  = (Rejected (Message ("Nothing found for " +:+ cacheKey)),
     snd (fst (init o w this))).
Proof.
  intros Hdb Hlow Hok.
  destruct (init_opens o w this Hdb Hok) as [Hconn Hworld].
  apply Z.ltb_lt in Hlow. rewrite Hlow in Hworld. destruct Hworld as [Hdbs _].
  assert (HR : Ready (snd (fst (init o w this))) (snd (init o w this)) ∅).
  { exists {| name := dbName this |}. split; [done|].
    unfold transaction. rewrite Hdbs. simpl.
    rewrite lookup_insert_eq. simpl. by rewrite lookup_insert_eq. }
  split; [exact HR|].
  eapply get_miss_rejects; [exact HR|]. apply lookup_empty.
Qed.

(** X16: entries outlive the service object: a new service that connects
    to a database already at its version changes nothing, and finds the
    object store with the records it held. *)
Theorem same_version_keeps_entries o w this d st :
  db this = None ->
  databases w !! dbName this = Some d ->
  version d = dbVersion this ->
  objectStores d !! storeName = Some st ->
  fst (fst (init o w this)) = Fulfilled true ->
  snd (fst (init o w this)) = w /\
  Ready w (snd (init o w this)) st.
Proof.
  intros Hdb Hd Hv Hst Hok.
  destruct (init_opens o w this Hdb Hok) as [Hconn Hworld].
  rewrite Hd in Hworld. simpl in Hworld.
  destruct (Z.ltb_spec (version d) (dbVersion this)); [lia|].
  split; [exact Hworld|].
  exists {| name := dbName this |}. split; [done|].
  unfold transaction. simpl. by rewrite Hd, Hst.
Qed.

(** X17: init never resolves with false: a promise of init that is
    fulfilled holds true, and one that is rejected holds [false] (an error
    event on the open request) or the TypeError that [indexedDB.open]
    raises; a rejected init leaves the service without a connection and
    nothing changed. *)
Theorem init_never_resolves_false o w this :
  fst (fst (init o w this)) <> Fulfilled false /\
  (forall r, fst (fst (init o w this)) = Rejected r ->
     (r = ReasonFalse \/ r = Thrown "TypeError") /\
     db this = None /\
     snd (fst (init o w this)) = w /\ snd (init o w this) = this).
Proof.
  unfold init, indexedDB_open.
  destruct (db this) as [h|] eqn:Hdb; [by split|].
  destruct (negb _); [split; [done|]; intros r [= <-]; by auto|].
  destruct (dbVersion this <? _); [split; [done|]; intros r [= <-]; by auto|].
  destruct o; [|split; [done|]; intros r [= <-]; by auto].
  destruct (_ <? dbVersion this); by split.
Qed.

(** X18: a service that asks for a version below the one the database has
    cannot connect: init is rejected with [false], and the accessors go on
    being rejected for want of a connection. *)
Theorem older_version_cannot_connect now o o' w this d cacheKey :
  db this = None ->
  databases w !! dbName this = Some d ->
  1 <= dbVersion this < version d -> dbVersion this <= maxVersion ->
  init o w this = (Rejected ReasonFalse, w, this) /\
  get now o o' (snd (fst (init o w this))) (snd (init o w this)) cacheKey
  = (Rejected (Message "Database doesn't exist."), w).
Proof.
  intros Hdb Hd Hv Hmax.
  assert (Hi : init o w this = (Rejected ReasonFalse, w, this)).
  { unfold init, indexedDB_open. rewrite Hdb, Hd. simpl.
    destruct (Z.leb_spec 1 (dbVersion this)); [|lia].
    destruct (Z.leb_spec (dbVersion this) maxVersion); [|lia]. simpl.
    destruct (Z.ltb_spec (dbVersion this) (version d)); [done|lia]. }
  split; [exact Hi|]. rewrite Hi. simpl.
  unfold get, get_calls. by rewrite Hdb.
Qed.

End OpenProperties.

(** ** Every get settles *)

Section Settles.

Context `{Platform}.

Import CacheService.

Lemma readable_insert st k data d :
  serializable data -> readable st ->
  readable (<[k := stringify_record data d]> st).
Proof.
  intros Hdata Hst k' record.
  destruct (decide (k = k')) as [<- | Hne].
  - rewrite lookup_insert_eq. intros [= <-].
    rewrite entry_of_stringify by done. by eexists.
  - rewrite lookup_insert_ne by done. apply Hst.
Qed.

Lemma readable_delete st k : readable st -> readable (base.delete k st).
Proof.
  intros Hst k' record Hk'. apply lookup_delete_Some in Hk' as [_ Hk'].
  by eapply Hst.
Qed.

Lemma readable_empty : readable ∅.
Proof. intros k record Hk. by rewrite lookup_empty in Hk. Qed.

Lemma stores_readable_log this msg w :
  stores_readable w -> stores_readable (log this msg w).
Proof. unfold stores_readable. by rewrite databases_log. Qed.

Lemma stores_readable_commit w h st :
  stores_readable w -> readable st ->
  stores_readable (commit w h storeName st).
Proof.
  intros Hw Hst n d st'. unfold commit. simpl.
  destruct (decide (name h = n)) as [<- | Hne].
  - rewrite lookup_alter_eq.
    destruct (databases w !! name h) as [d0|]; [|done].
    intros [= <-]. simpl. rewrite lookup_insert_eq. by intros [= <-].
  - rewrite lookup_alter_ne by done. apply Hw.
Qed.

Lemma stores_readable_transaction w h st :
  stores_readable w -> transaction w h storeName = inr st -> readable st.
Proof.
  intros Hw. unfold transaction.
  destruct (databases w !! name h) as [d|] eqn:Hd; [|done].
  destruct (objectStores d !! storeName) as [st'|] eqn:Hs; [|done].
  intros [= <-]. by eapply Hw.
Qed.

Lemma stores_readable_delete o w this cacheKey :
  stores_readable w -> stores_readable (snd (delete o w this cacheKey)).
Proof.
  intros Hw. unfold delete.
  destruct (db this) as [h|]; [|done].
  destruct (transaction w h storeName) as [e|st] eqn:Htx; [done|].
  destruct o; cbn [snd]; apply stores_readable_log; [|done].
  apply stores_readable_commit; [done|].
  apply readable_delete. by eapply stores_readable_transaction.
Qed.

Lemma stores_readable_run op w this :
  puts_serializable op -> stores_readable w ->
  stores_readable (fst (run op w this)).
Proof.
  intros Hop Hw.
  destruct op as [o|now o odel k|now o k data expire|o k|o];
    cbn [run fst snd].
  - destruct (db this) as [h|] eqn:Hdb.
    + by rewrite (init_connected o w this) by (by rewrite Hdb).
    + assert (Hcase : fst (fst (init o w this)) = Fulfilled true
                      \/ fst (fst (init o w this)) <> Fulfilled true).
      { destruct (fst (fst (init o w this))) as [|[]|r];
          [by right | by left | by right | by right]. }
      destruct Hcase as [Hok|Hno].
      * destruct (init_opens o w this Hdb Hok) as [_ Hworld].
        destruct (_ <? dbVersion this); [|by rewrite Hworld].
        destruct Hworld as [Hdbs _]. intros n d st. rewrite Hdbs.
        destruct (decide (dbName this = n)) as [<- | Hne].
        -- rewrite lookup_insert_eq. intros [= <-]. simpl.
           rewrite lookup_insert_eq. intros [= <-]. apply readable_empty.
        -- rewrite lookup_insert_ne by done. apply Hw.
      * by destruct (init_failure o w this Hdb Hno) as [-> _].
  - unfold get, get_calls.
    pose proof (stores_readable_delete odel w this k Hw) as Hdel.
    destruct (db this) as [h|] eqn:Hdb; [|done].
    destruct (transaction w h storeName) as [e|st]; [done|].
    destruct o; [|done].
    destruct (st !! k) as [record|]; [|done].
    destruct (String.eqb record ""); [done|].
    destruct (JSON_parse record) as [storeObj|]; [|done].
    destruct (Get storeObj "expiration") as [|expiration]; [done|].
    destruct (Get storeObj "value") as [|v]; [done|].
    by destruct (Time.Date_le _ _).
  - unfold put.
    destruct (db this) as [h|]; [|done].
    destruct (transaction w h storeName) as [e|st] eqn:Htx; [done|].
    destruct o; cbn [snd]; apply stores_readable_log; [|done].
    apply stores_readable_commit; [done|].
    apply readable_insert; [done|]. by eapply stores_readable_transaction.
  - by apply stores_readable_delete.
  - unfold flush.
    destruct (db this) as [h|]; [|done].
    destruct (transaction w h storeName) as [e|st]; [done|].
    destruct o; cbn [snd]; apply stores_readable_log; [|done].
    apply stores_readable_commit; [done|]. apply readable_empty.
Qed.

Lemma stores_readable_run_all ops w this :
  Forall puts_serializable ops -> stores_readable w ->
  stores_readable (fst (run_all ops w this)).
Proof.
  intros Hops. revert w this.
  induction Hops as [|op ops Hop _ IH]; intros w this Hw; [done|].
  cbn [run_all]. apply IH. by apply stores_readable_run.
Qed.

(** X19: on an origin whose cache stores hold readable records only (a new
    origin, say), after any sequence of calls that put serializable
    values, every get settles: its promise is resolved or rejected, never
    left pending. *)
Theorem get_always_settles ops w0 this0 now o o' cacheKey :
  stores_readable w0 -> Forall puts_serializable ops ->
  fst (get now o o' (fst (run_all ops w0 this0)) (snd (run_all ops w0 this0))
         cacheKey)
  <> Pending.
Proof.
  intros Hw0 Hops.
  pose proof (stores_readable_run_all ops w0 this0 Hops Hw0) as Hw.
  destruct (run_all ops w0 this0) as [w this]. cbn [fst snd] in *.
  unfold get, get_calls.
  destruct (db this) as [h|]; [|done].
  destruct (transaction w h storeName) as [e|st] eqn:Htx; [done|].
  destruct o; [|done].
  destruct (st !! cacheKey) as [record|] eqn:Hst; [|done].
  destruct (String.eqb record ""); [done|].
  destruct (stores_readable_transaction w h st Hw Htx cacheKey record Hst)
    as [[v d] He].
  unfold entry_of in He.
  destruct (JSON_parse record) as [storeObj|]; [|done].
  destruct (Get storeObj "expiration") as [|expiration]; [done|].
  destruct (Get storeObj "value") as [|v']; [done|].
  by destruct (Time.Date_le _ _).
Qed.

End Settles.

(** ** The revised copy of the class (src/README.md) *)

Section RevisedProperties.

Context `{Platform}.

Import CacheService.

(** X20: the revision changes nothing for callers of the first copy: a
    revised get with the flag left out or true is the first copy's get, in
    its promise and in what it leaves, and a revised put with an
    expiration given is the first copy's put. *)
Theorem revised_agrees_by_default now today o o' w this cacheKey throwError
    data d :
  default true throwError = true ->
  CacheServiceRevised.get now o o' w this cacheKey throwError
  = get now o o' w this cacheKey /\
  CacheServiceRevised.put today o w this cacheKey data (Some d)
  = put now o w this cacheKey data (Some d).
Proof.
  intros Hflag. split.
  - unfold CacheServiceRevised.get, CacheServiceRevised.get_calls,
      get, get_calls.
    by rewrite Hflag.
  - reflexivity.
Qed.

(** X21: with the flag false the revised get differs from the first copy's
    on a miss only: where the first copy is rejected with the not-found
    message it resolves with [undefined], leaving everything as it was;
    every other outcome (a hit, an expired entry, a failed read, no
    connection) is the same. *)
Theorem revised_flag_changes_miss_only now o o' w this cacheKey :
  (fst (get now o o' w this cacheKey)
   = Rejected (Message ("Nothing found for " +:+ cacheKey)) ->
   CacheServiceRevised.get now o o' w this cacheKey (Some false)
   = (Fulfilled undefined, w) /\
   snd (get now o o' w this cacheKey) = w) /\
  (fst (get now o o' w this cacheKey)
   <> Rejected (Message ("Nothing found for " +:+ cacheKey)) ->
   CacheServiceRevised.get now o o' w this cacheKey (Some false)
   = get now o o' w this cacheKey).
Proof.
  unfold CacheServiceRevised.get, CacheServiceRevised.get_calls,
    get, get_calls.
  cbn [default].
  destruct (db this) as [h|]; [|by split].
  destruct (transaction w h storeName) as [e|st] eqn:Htx.
  { split; [|done]. unfold transaction in Htx.
    destruct (databases w !! name h) as [d|]; [|by injection Htx as <-].
    destruct (objectStores d !! storeName); [done|by injection Htx as <-]. }
  destruct o; [|split; [|done]; simpl; intros [= Hs]; by destruct cacheKey].
  destruct (st !! cacheKey) as [record|]; [|by split].
  destruct (String.eqb record ""); [by split|].
  destruct (JSON_parse record) as [storeObj|]; [|by split].
  destruct (Get storeObj "expiration") as [|expiration]; [by split|].
  destruct (Get storeObj "value") as [|v]; [by split|].
  destruct (Time.Date_le _ _); by split.
Qed.

(** X22: a revised put without expiration stores an entry that expires one
    hour after the whole second of the call: [Date()] prints the time
    without milliseconds, so the expiration lies less than a second before
    now + 3600000 and never after it, and a get before then returns the
    data. *)
Theorem revised_put_default_expiration today now now' o w this st cacheKey data :
  Ready w this st -> serializable data ->
  Date_of_string today = Some (now - now mod 1000) ->
  Time.inRange (now + 3600000) -> Time.inRange now ->
  let e := now - now mod 1000 + 3600000 in
  let w' := snd (CacheServiceRevised.put today Success w this cacheKey data None) in
  now + 3600000 - 1000 < e <= now + 3600000 /\
  fst (CacheServiceRevised.put today Success w this cacheKey data None)
  = Fulfilled true /\
  Ready w' this (<[cacheKey := stringify_record data (Some e)]> st) /\
  (now' < e -> get now' Success o w' this cacheKey = (Fulfilled data, w')).
Proof.
  intros HR Hdata Htoday Hhi Hlo e w'.
  pose proof (Z.mod_pos_bound now 1000 ltac:(lia)) as Hmod.
  assert (He : Time.inRange e) by (unfold Time.inRange in *; lia).
  assert (HR' : Ready w' this (<[cacheKey := stringify_record data (Some e)]> st)).
  { subst w'. destruct HR as (h & Hdb & Htx).
    unfold CacheServiceRevised.put. rewrite Hdb, Htx. cbn [snd].
    rewrite (revised_default_expiration today now data Htoday He).
    apply Ready_log. by eapply Ready_commit. }
  split; [lia|]. split.
  { destruct HR as (h & Hdb & Htx).
    unfold CacheServiceRevised.put. by rewrite Hdb, Htx. }
  split; [exact HR'|]. intros Hlt.
  eapply get_fresh; [exact HR' | apply lookup_insert_eq | | exact Hlt].
  rewrite entry_of_stringify by done. by rewrite new_Date_toJSON_valid.
Qed.

End RevisedProperties.

(** ** DateHelper.dateAdd *)

Section DateProperties.

Context `{Platform}.

Import Time.

Lemma DaysInMonth_bounds m leap :
  0 <= m <= 11 -> 0 <= leap <= 1 -> 28 <= DaysInMonth m leap <= 31.
Proof.
  intros Hm Hl.
  assert (Hc : m = 0 \/ m = 1 \/ m = 2 \/ m = 3 \/ m = 4 \/ m = 5 \/ m = 6
               \/ m = 7 \/ m = 8 \/ m = 9 \/ m = 10 \/ m = 11) by lia.
  repeat (destruct Hc as [-> | Hc]; [cbn [DaysInMonth]; lia|]).
  subst m. cbn [DaysInMonth]. lia.
Qed.

Lemma firstDayOfMonth_succ i :
  firstDayOfMonth (i + 1)
  = firstDayOfMonth i + DaysInMonth (i mod 12) (InLeapYear (i / 12)).
Proof.
  unfold firstDayOfMonth.
  pose proof (Z.mod_pos_bound i 12 ltac:(lia)) as Hr.
  pose proof (Z.div_mod i 12 ltac:(lia)) as Hi.
  remember (i / 12) as q eqn:Hq. remember (i mod 12) as r eqn:Hr'.
  clear Hq Hr'.
  assert (Hc : r = 0 \/ r = 1 \/ r = 2 \/ r = 3 \/ r = 4 \/ r = 5 \/ r = 6
               \/ r = 7 \/ r = 8 \/ r = 9 \/ r = 10 \/ r = 11) by lia.
  destruct (Z.eq_dec r 11) as [-> | Hne].
  - replace ((i + 1) / 12) with (q + 1) by (Z.div_mod_to_equations; lia).
    replace ((i + 1) mod 12) with 0 by (Z.div_mod_to_equations; lia).
    rewrite DayFromYear_succ, InLeapYear_DaysInYear.
    cbn [monthStart DaysInMonth]. lia.
  - replace ((i + 1) / 12) with q by (Z.div_mod_to_equations; lia).
    replace ((i + 1) mod 12) with (r + 1) by (Z.div_mod_to_equations; lia).
    generalize (InLeapYear q) (DayFromYear q). intros l y.
    repeat (destruct Hc as [-> | Hc]; [simpl; lia|]).
    lia.
Qed.

(** A date past the end of the target month runs on into the month after
    it. *)
Lemma addMonths_overflow lt n :
  DaysInMonth ((monthIndex lt + n) mod 12)
              (InLeapYear ((monthIndex lt + n) / 12)) < DateFromTime lt ->
  monthIndex (addMonths lt n) = monthIndex lt + n + 1 /\
  DateFromTime (addMonths lt n)
  = DateFromTime lt - DaysInMonth ((monthIndex lt + n) mod 12)
                                  (InLeapYear ((monthIndex lt + n) / 12)) /\
  TimeWithinDay (addMonths lt n) = TimeWithinDay lt.
Proof.
  intros Hover. pose proof (TimeWithinDay_range lt) as Htm.
  pose proof (DateFromDay_range (Day lt)) as Hd.
  pose proof (MonthFromDay_range (Day lt)) as Hm.
  pose proof (DaysInMonth_bounds _ _ Hm
                (ltac:(destruct (InLeapYear_cases (YearFromDay (Day lt))); lia)
                 : 0 <= InLeapYear (YearFromDay (Day lt)) <= 1)) as Hb.
  set (i := monthIndex lt + n) in *.
  assert (Hi : 0 <= i mod 12 <= 11)
    by (pose proof (Z.mod_pos_bound i 12); lia).
  assert (Hi1 : 0 <= (i + 1) mod 12 <= 11)
    by (pose proof (Z.mod_pos_bound (i + 1) 12); lia).
  pose proof (DaysInMonth_bounds _ _ Hi
                (ltac:(destruct (InLeapYear_cases (i / 12)); lia)
                 : 0 <= InLeapYear (i / 12) <= 1)) as Hlen.
  pose proof (DaysInMonth_bounds _ _ Hi1
                (ltac:(destruct (InLeapYear_cases ((i + 1) / 12)); lia)
                 : 0 <= InLeapYear ((i + 1) / 12) <= 1)) as Hnext.
  set (len := DaysInMonth (i mod 12) (InLeapYear (i / 12))) in *.
  unfold DateFromTime in Hover.
  assert (Hday : firstDayOfMonth i + (DateFromTime lt - 1)
                 = MakeDay ((i + 1) / 12) ((i + 1) mod 12)
                     (DateFromDay (Day lt) - len)).
  { rewrite <- firstDayOfMonth_MakeDay, firstDayOfMonth_succ.
    fold len. unfold DateFromTime. lia. }
  unfold addMonths. fold i. rewrite Hday.
  unfold monthIndex at 1, YearFromTime, MonthFromTime, DateFromTime.
  rewrite TimeWithinDay_MakeDate, Day_MakeDate by done.
  destruct (fields_of_MakeDay ((i + 1) / 12) ((i + 1) mod 12)
              (DateFromDay (Day lt) - len)) as (Hy & Hmn & Hdt); [lia | lia |].
  rewrite Hy, Hmn, Hdt. split; [|done].
  Z.div_mod_to_equations. lia.
Qed.

Lemma monthIndex_fields lt i :
  monthIndex lt = i -> YearFromTime lt = i / 12 /\ MonthFromTime lt = i mod 12.
Proof.
  unfold monthIndex. pose proof (MonthFromDay_range (Day lt)) as Hm.
  unfold MonthFromTime in *. intros <-. Z.div_mod_to_equations. lia.
Qed.

(** X23: a date text that does not parse gives an Invalid Date for each of
    the eight units and every count: dateAdd neither throws nor returns
    [undefined]. *)
Theorem dateAdd_invalid_base date i units :
  Date_of_string date = None ->
  DateHelper.dateAdd date (Some i) units = Some None.
Proof.
  intros Hdate. unfold DateHelper.dateAdd. rewrite Hdate. by destruct i.
Qed.

(** X24: adding zero units of any interval returns the date itself, where
    converting its local time back gives the time again (away from a
    change of the clock's offset). *)
Theorem dateAdd_zero date t i :
  Date_of_string date = Some t ->
  UTC (LocalTime t) = t ->
  DateHelper.dateAdd date (Some i) 0 = Some (Some t).
Proof.
  intros Hdate Hloc.
  assert (Ht : TimeClip t = Some t).
  { unfold Date_of_string in Hdate.
    destruct (Date_parse date) as [u|]; [|done]. simpl in Hdate.
    by destruct (TimeClip_Some _ _ Hdate) as [-> _]. }
  assert (Hday : MakeDate (Day (LocalTime t)) (TimeWithinDay (LocalTime t))
                 = LocalTime t) by apply MakeDate_Day.
  pose proof (MakeDay_of_fields (Day (LocalTime t)) 0) as Hf.
  rewrite !Z.add_0_r in Hf.
  unfold DateHelper.dateAdd. rewrite Hdate.
  destruct i; f_equal; cbn [Z.mul];
    cbn [setFullYear setMonth setDate getFullYear getMonth getDate
         Time.setTime Time.getTime Time.plus fmap option_fmap option_map];
    unfold YearFromTime, MonthFromTime, DateFromTime;
    rewrite ?Z.mul_0_r, ?Z.add_0_r, ?Hf, ?Hday, ?Hloc; exact Ht.
Qed.

(** X25: the units are multiples of one another, for every date text and
    count, valid or not: a year is twelve months, a quarter three months, a
    week seven days, an hour sixty minutes and a minute sixty seconds. *)
Theorem dateAdd_unit_multiples date n :
  DateHelper.dateAdd date (Some DateHelper.year) n
  = DateHelper.dateAdd date (Some DateHelper.month) (12 * n) /\
  DateHelper.dateAdd date (Some DateHelper.quarter) n
  = DateHelper.dateAdd date (Some DateHelper.month) (3 * n) /\
  DateHelper.dateAdd date (Some DateHelper.week) n
  = DateHelper.dateAdd date (Some DateHelper.day) (7 * n) /\
  DateHelper.dateAdd date (Some DateHelper.hour) n
  = DateHelper.dateAdd date (Some DateHelper.minute) (60 * n) /\
  DateHelper.dateAdd date (Some DateHelper.minute) n
  = DateHelper.dateAdd date (Some DateHelper.second) (60 * n).
Proof.
  unfold DateHelper.dateAdd.
  destruct (Date_of_string date) as [t|].
  - rewrite setFullYear_addMonths, setMonth_addMonths.
    repeat split; cbn [Time.getTime Time.plus]; do 3 f_equal; lia.
  - repeat split.
Qed.

(** X26: where the clock's offset from UTC is the same at all times, a
    shift by days or weeks is a shift by that many times 86400000 ms: the
    result is the base time plus that, or an Invalid Date when the sum is
    outside the range of Dates. *)
Theorem dateAdd_days_exact tz date t n :
  (forall u b, LocalTZA u b = tz) ->
  Date_of_string date = Some t ->
  DateHelper.dateAdd date (Some DateHelper.day) n
  = Some (TimeClip (t + n * 86400000)) /\
  DateHelper.dateAdd date (Some DateHelper.week) n
  = Some (TimeClip (t + n * 604800000)).
Proof.
  intros Htz Hdate. unfold DateHelper.dateAdd. rewrite Hdate.
  rewrite !setDate_addDays. unfold UTC, addDays, LocalTime, msPerDay.
  rewrite !Htz. split; do 2 f_equal; lia.
Qed.

(** X27: shifts by hours, minutes or seconds add up: shifting the ISO text
    of a shifted date again is shifting the base by the sum of the
    counts. *)
Theorem dateAdd_time_units_add_up date i n m u :
  i = DateHelper.hour \/ i = DateHelper.minute \/ i = DateHelper.second ->
  DateHelper.dateAdd date (Some i) n = Some (Some u) ->
  DateHelper.dateAdd (toISOString u) (Some i) m
  = DateHelper.dateAdd date (Some i) (n + m).
Proof.
  intros Hi Hu. unfold DateHelper.dateAdd in *.
  destruct (Date_of_string date) as [t|] eqn:Hdate;
    [|by destruct Hi as [-> | [-> | ->]]].
  assert (Hiso : forall k, TimeClip (t + n * k) = Some u ->
                 Date_of_string (toISOString u) = Some u
                 /\ u + m * k = t + (n + m) * k).
  { intros k Hk. destruct (TimeClip_Some _ _ Hk) as [-> Hr].
    unfold Date_of_string. rewrite Date_parse_toISOString by done.
    simpl. split; [by apply TimeClip_inRange | lia]. }
  destruct Hi as [-> | [-> | ->]]; cbn [Time.setTime Time.getTime Time.plus] in *;
    injection Hu as Hu; destruct (Hiso _ Hu) as [-> Heq];
    cbn [Time.setTime Time.getTime Time.plus]; by rewrite Heq.
Qed.

(** X28: what a shift by months does to the calendar fields, where local
    time converts back and forth (a fixed offset): the time of day is
    kept; when the month that many months on has the base's day of the
    month, the result is that day of that month; when it is shorter, the
    result runs over into the month after it, by the days that month
    lacks. *)
Theorem dateAdd_month_fields date t n r :
  (forall x, LocalTime (UTC x) = x) ->
  Date_of_string date = Some t ->
  DateHelper.dateAdd date (Some DateHelper.month) n = Some (Some r) ->
  let i := monthIndex (LocalTime t) + n in
  let len := DaysInMonth (i mod 12) (InLeapYear (i / 12)) in
  let D := DateFromTime (LocalTime t) in
  TimeWithinDay (LocalTime r) = TimeWithinDay (LocalTime t) /\
  (D <= len ->
   getFullYear (Some r) = Some (i / 12) /\
   getMonth (Some r) = Some (i mod 12) /\
   getDate (Some r) = Some D) /\
  (len < D ->
   getFullYear (Some r) = Some ((i + 1) / 12) /\
   getMonth (Some r) = Some ((i + 1) mod 12) /\
   getDate (Some r) = Some (D - len)).
Proof.
  intros Hloc Hdate Hr i len D.
  unfold DateHelper.dateAdd in Hr. rewrite Hdate in Hr.
  rewrite setMonth_addMonths in Hr. injection Hr as Hr.
  destruct (TimeClip_Some _ _ Hr) as [-> _].
  rewrite Hloc. cbn [getFullYear getMonth getDate fmap option_fmap option_map].
  rewrite Hloc.
  destruct (Z_le_gt_dec D len) as [Hfit | Hover].
  - destruct (addMonths_fields (LocalTime t) n Hfit) as (Hi & Hd & Htm).
    destruct (monthIndex_fields _ _ Hi) as [Hy Hm].
    split; [exact Htm|]. split; [|intros; subst D len; lia].
    intros _. fold i in Hy, Hm. by rewrite Hy, Hm, Hd.
  - assert (Hlt : len < D) by lia.
    destruct (addMonths_overflow (LocalTime t) n Hlt) as (Hi & Hd & Htm).
    destruct (monthIndex_fields _ _ Hi) as [Hy Hm].
    split; [exact Htm|]. split; [intros; subst D len; lia|].
    intros _. fold i in Hy, Hm, Hd. fold len in Hd. by rewrite Hy, Hm, Hd.
Qed.

End DateProperties.

(** ** A database without the object store *)

Section MissingStore.

Context `{Platform}.

Import CacheService.

Lemma missing_store_run op w this h e :
  db this = Some h -> transaction w h storeName = inl e ->
  run op w this = (w, this).
Proof.
  intros Hdb Htx.
  destruct op as [o|now o odel k|now o k data expire|o k|o]; cbn [run].
  - unfold init. by rewrite Hdb.
  - unfold get, get_calls. by rewrite Hdb, Htx.
  - unfold put. by rewrite Hdb, Htx.
  - unfold delete. by rewrite Hdb, Htx.
  - unfold flush. by rewrite Hdb, Htx.
Qed.

(** X29: a service connected to a database that lacks the object store (or
    that is gone) never recovers: get, put, delete and flush are each
    rejected with the exception that opening the transaction throws, init
    resolves with true without repairing anything, and no sequence of
    calls changes the databases, the console or the service. *)
Theorem missing_store_is_permanent ops now o o' w this h e cacheKey data expire :
  db this = Some h -> transaction w h storeName = inl e ->
  (e = Thrown "InvalidStateError" \/ e = Thrown "NotFoundError") /\
  get now o o' w this cacheKey = (Rejected e, w) /\
  put now o w this cacheKey data expire = (Rejected e, w) /\
  delete o w this cacheKey = (Rejected e, w) /\
  flush o w this = (Rejected e, w) /\
  init o w this = (Fulfilled true, w, this) /\
  run_all ops w this = (w, this).
Proof.
  intros Hdb Htx. split.
  { unfold transaction in Htx.
    destruct (databases w !! name h) as [d|]; [|left; congruence].
    destruct (objectStores d !! storeName); [done|right; congruence]. }
  unfold get, get_calls, put, delete, flush, init. rewrite Hdb, Htx.
  repeat (split; [reflexivity|]).
  induction ops as [|op ops IH]; [reflexivity|].
  cbn [run_all]. by rewrite (missing_store_run op w this h e Hdb Htx).
Qed.

End MissingStore.

(** ** The further properties on the scenario *)

Module Cases.

Import CacheService.

(** The connection of the scenario's service. *)
Definition handle : IDBDatabase := {| name := "EventCache" |}.

(** The opened database with a record that is not JSON under "A". *)
Definition garbled : ObjectStore := {[ "A"%string := "not json"%string ]}.

Definition corrupt : World := commit Scenario.opened handle storeName garbled.

(** The opened database with a record that has no expiration. *)
Definition bare : string := Reference.text "{'value':1}".

Definition undated : World :=
  commit Scenario.opened handle storeName {[ "A"%string := bare ]}.

(** The database of the scenario after the put. *)
Definition database : IDBDatabaseState :=
  {| version := 1; objectStores := {[ storeName := Scenario.store ]} |}.

(** A service asking for version 2, and an origin at version 3. *)
Definition second : CacheService.t := constructor "EventCache" (Some 2) None.

Definition third : World :=
  {| databases := {[ "EventCache"%string :=
                       {| version := 3; objectStores := ∅ |} ]};
     console := [] |}.

(** A client's session on the new origin. *)
Definition session : list Operation :=
  [ CallInit Success;
    CallPut 0 Success "A" (Some Scenario.payload) None;
    CallGet 7200000 Success Failure "A";
    CallPut 7200000 Failure "B" None (Some None);
    CallFlush Success ].

(** Noon UTC of 31 January 2024, two hours later, and noon of 2 March. *)
Definition noon : Z := 1706702400000.

Definition afternoon : Z := 1706709600000.

Definition march : Z := 1709380800000.

End Cases.

Lemma ready_corrupt : Ready Cases.corrupt Scenario.service Cases.garbled.
Proof. exists Cases.handle. split; vm_compute; reflexivity. Qed.

Lemma ready_undated :
  Ready Cases.undated Scenario.service {[ "A"%string := Cases.bare ]}.
Proof. exists Cases.handle. split; vm_compute; reflexivity. Qed.

Lemma noon_text :
  Date_of_string (H := browser) "2024-01-31T12:00:00.000Z" = Some Cases.noon.
Proof. vm_compute. reflexivity. Qed.

Lemma browser_local_time x : LocalTime (H := browser) (UTC (H := browser) x) = x.
Proof. unfold LocalTime, UTC. simpl. lia. Qed.

Lemma stores_readable_origin : stores_readable (H := browser) Scenario.origin.
Proof. intros n d st Hd. vm_compute in Hd. discriminate Hd. Qed.

Lemma session_serializable : Forall puts_serializable Cases.session.
Proof. repeat constructor. Qed.

Lemma delete_then_get_witness :
  Ready Scenario.stored Scenario.service Scenario.store /\
  fst (CacheService.delete Success Scenario.stored Scenario.service "A")
  = Fulfilled () /\
  CacheService.get (H := browser) 1000 Success Success
    (snd (CacheService.delete Success Scenario.stored Scenario.service "A"))
    Scenario.service "A"
  = (Rejected (Message ("Nothing found for " +:+ "A")),
     snd (CacheService.delete Success Scenario.stored Scenario.service "A")).
Proof.
  split; [exact ready_stored|].
  destruct (delete_then_get (H := browser) 1000 Success Scenario.stored
              Scenario.service Scenario.store "A" ready_stored)
    as (Hd & Hg & _).
  split; [exact Hd | exact Hg].
Defined.

Lemma delete_absent_witness :
  Ready Scenario.stored Scenario.service Scenario.store /\
  Scenario.store !! "B"%string = None /\
  fst (CacheService.delete Success Scenario.stored Scenario.service "B")
  = Fulfilled () /\
  Ready (snd (CacheService.delete Success Scenario.stored Scenario.service "B"))
    Scenario.service Scenario.store.
Proof.
  split; [exact ready_stored|]. split; [vm_compute; reflexivity|].
  exact (delete_absent Scenario.stored Scenario.service Scenario.store "B"
           ready_stored eq_refl).
Defined.

Lemma flush_then_get_witness :
  Ready Scenario.stored Scenario.service Scenario.store /\
  fst (CacheService.flush Success Scenario.stored Scenario.service)
  = Fulfilled () /\
  Ready (snd (CacheService.flush Success Scenario.stored Scenario.service))
    Scenario.service ∅ /\
  CacheService.get (H := browser) 1000 Success Success
    (snd (CacheService.flush Success Scenario.stored Scenario.service))
    Scenario.service "A"
  = (Rejected (Message ("Nothing found for " +:+ "A")),
     snd (CacheService.flush Success Scenario.stored Scenario.service)).
Proof.
  split; [exact ready_stored|].
  exact (flush_then_get (H := browser) 1000 Success Scenario.stored
           Scenario.service Scenario.store "A" ready_stored).
Defined.

Lemma put_overwrites_witness :
  Ready Scenario.stored Scenario.service Scenario.store /\
  serializable (Some (JNum 2)) /\ Time.inRange 90000 /\ 61000 < 90000 /\
  fst (CacheService.get (H := browser) 61000 Success Success
         (snd (CacheService.put (H := browser) 2000 Success
                 (snd (CacheService.put (H := browser) 1000 Success
                         Scenario.stored Scenario.service "A"
                         (Some (JNum 1)) None))
                 Scenario.service "A" (Some (JNum 2)) (Some (Some 90000))))
         Scenario.service "A")
  = Fulfilled (Some (JNum 2)).
Proof.
  assert (Hs : serializable (Some (JNum 2))) by reflexivity.
  assert (Hr : Time.inRange 90000) by (unfold Time.inRange, Time.maxTime; lia).
  assert (Hlt : 61000 < 90000) by lia.
  split; [exact ready_stored|]. split; [exact Hs|]. split; [exact Hr|].
  split; [exact Hlt|].
  exact (f_equal fst
           (proj2 (put_overwrites (H := browser) 1000 2000 61000 Success
                     Scenario.stored Scenario.service Scenario.store "A"
                     (Some (JNum 1)) (Some (JNum 2)) None 90000
                     ready_stored Hs Hr Hlt))).
Defined.

Lemma put_leaves_other_keys_witness :
  Ready Scenario.stored Scenario.service Scenario.store /\
  "A"%string <> "B"%string /\
  fst (CacheService.get (H := browser) 1000 Success Success
         (snd (CacheService.put (H := browser) 500 Success Scenario.stored
                 Scenario.service "B" (Some (JNum 2)) None))
         Scenario.service "A")
  = fst (CacheService.get (H := browser) 1000 Success Success
           Scenario.stored Scenario.service "A").
Proof.
  assert (Hne : "A"%string <> "B"%string) by discriminate.
  split; [exact ready_stored|]. split; [exact Hne|].
  exact (put_leaves_other_keys (H := browser) 500 1000 Success Success
           Scenario.stored Scenario.service Scenario.store "B" "A"
           (Some (JNum 2)) None ready_stored Hne).
Defined.

Lemma failed_write_keeps_store_witness :
  Ready Scenario.stored Scenario.service Scenario.store /\
  fst (CacheService.put (H := browser) 1000 Failure Scenario.stored
         Scenario.service "A" (Some (JNum 2)) None)
  = Fulfilled false /\
  Ready (snd (CacheService.put (H := browser) 1000 Failure Scenario.stored
                Scenario.service "A" (Some (JNum 2)) None))
    Scenario.service Scenario.store.
Proof.
  split; [exact ready_stored|].
  exact (proj1 (failed_write_keeps_store (H := browser) 1000 Scenario.stored
                  Scenario.service Scenario.store "A" (Some (JNum 2)) None
                  ready_stored)).
Defined.

Lemma get_read_error_witness :
  Ready Scenario.stored Scenario.service Scenario.store /\
  CacheService.get (H := browser) 1000 Failure Success Scenario.stored
    Scenario.service "A"
  = (Rejected (Message ("Error getting cached data " +:+ "A")), Scenario.stored).
Proof.
  split; [exact ready_stored|].
  exact (get_read_error (H := browser) 1000 Success Scenario.stored
           Scenario.service Scenario.store "A" ready_stored).
Defined.

Lemma expired_then_not_found_witness :
  Ready Scenario.stored Scenario.service Scenario.store /\
  Scenario.store !! "A"%string = Some Scenario.record /\
  entry_of (H := browser) Scenario.record
    = Some (Some Scenario.payload, Some 60000) /\
  60000 <= 61000 /\
  fst (CacheService.get (H := browser) 61000 Success Success Scenario.stored
         Scenario.service "A")
  = Fulfilled undefined /\
  CacheService.get (H := browser) 61001 Success Success
    (snd (CacheService.get (H := browser) 61000 Success Success
            Scenario.stored Scenario.service "A"))
    Scenario.service "A"
  = (Rejected (Message ("Nothing found for " +:+ "A")),
     snd (CacheService.get (H := browser) 61000 Success Success
            Scenario.stored Scenario.service "A")).
Proof.
  assert (Hle : 60000 <= 61000) by lia.
  split; [exact ready_stored|]. split; [exact stored_lookup|].
  split; [exact stored_entry|]. split; [exact Hle|].
  exact (expired_then_not_found (H := browser) 61000 61001 Success
           Scenario.stored Scenario.service Scenario.store "A" Scenario.record
           (Some Scenario.payload) 60000
           ready_stored stored_lookup stored_entry Hle).
Defined.

Lemma failed_cleanup_is_hidden_witness :
  Ready Scenario.stored Scenario.service Scenario.store /\
  Scenario.store !! "A"%string = Some Scenario.record /\
  entry_of (H := browser) Scenario.record
    = Some (Some Scenario.payload, Some 60000) /\
  60000 <= 61000 /\ 61000 <= 62000 /\
  fst (CacheService.get (H := browser) 61000 Success Failure Scenario.stored
         Scenario.service "A")
  = Fulfilled undefined /\
  Ready (snd (CacheService.get (H := browser) 61000 Success Failure
                Scenario.stored Scenario.service "A"))
    Scenario.service Scenario.store /\
  fst (CacheService.get (H := browser) 62000 Success Success
         (snd (CacheService.get (H := browser) 61000 Success Failure
                 Scenario.stored Scenario.service "A"))
         Scenario.service "A")
  = Fulfilled undefined.
Proof.
  assert (Hle : 60000 <= 61000) by lia.
  assert (Hlater : 61000 <= 62000) by lia.
  split; [exact ready_stored|]. split; [exact stored_lookup|].
  split; [exact stored_entry|]. split; [exact Hle|]. split; [exact Hlater|].
  exact (failed_cleanup_is_hidden (H := browser) 61000 62000 Success
           Scenario.stored Scenario.service Scenario.store "A" Scenario.record
           (Some Scenario.payload) 60000
           ready_stored stored_lookup stored_entry Hle Hlater).
Defined.

Lemma get_unreadable_record_pends_witness :
  Ready Cases.corrupt Scenario.service Cases.garbled /\
  Cases.garbled !! "A"%string = Some "not json"%string /\
  "not json"%string <> ""%string /\
  JSON_parse (Platform := browser) "not json" = None /\
  CacheService.get (H := browser) 0 Success Success Cases.corrupt
    Scenario.service "A"
  = (Pending, Cases.corrupt).
Proof.
  assert (Hne : "not json"%string <> ""%string) by discriminate.
  assert (Hp : JSON_parse (Platform := browser) "not json" = None)
    by (vm_compute; reflexivity).
  split; [exact ready_corrupt|]. split; [vm_compute; reflexivity|].
  split; [exact Hne|]. split; [exact Hp|].
  exact (get_unreadable_record_pends (H := browser) 0 Success Cases.corrupt
           Scenario.service Cases.garbled "A" "not json"
           ready_corrupt eq_refl Hne (or_introl Hp)).
Defined.

Lemma get_without_expiration_never_expires_witness :
  Ready Cases.undated Scenario.service {[ "A"%string := Cases.bare ]} /\
  entry_of (H := browser) Cases.bare = Some (Some (JNum 1), None) /\
  CacheService.get (H := browser) 8640000000000000 Success Success
    Cases.undated Scenario.service "A"
  = (Fulfilled (Some (JNum 1)), Cases.undated).
Proof.
  assert (He : entry_of (H := browser) Cases.bare = Some (Some (JNum 1), None))
    by (vm_compute; reflexivity).
  split; [exact ready_undated|]. split; [exact He|].
  exact (get_without_expiration_never_expires (H := browser) 8640000000000000
           Success Cases.undated Scenario.service {[ "A"%string := Cases.bare ]}
           "A" Cases.bare (Some (JNum 1)) ready_undated eq_refl He).
Defined.

Lemma get_touches_only_its_key_witness :
  Ready Scenario.stored Scenario.service Scenario.store /\
  exists st',
    Ready (snd (CacheService.get (H := browser) 61000 Success Success
                  Scenario.stored Scenario.service "A"))
      Scenario.service st' /\
    st' ⊆ Scenario.store /\
    forall k, k <> "A"%string -> st' !! k = Scenario.store !! k.
Proof.
  split; [exact ready_stored|].
  exact (get_touches_only_its_key (H := browser) 61000 Success Success
           Scenario.stored Scenario.service Scenario.store "A" ready_stored).
Defined.

Lemma other_stores_untouched_witness :
  ("Elsewhere"%string <> target Scenario.service
   \/ "CacheStore"%string <> CacheService.storeName) /\
  object_store
    (fst (run (H := browser) (CallFlush Success) Scenario.stored
            Scenario.service))
    "Elsewhere" "CacheStore"
  = object_store Scenario.stored "Elsewhere" "CacheStore".
Proof.
  assert (Hother : "Elsewhere"%string <> target Scenario.service
                   \/ "CacheStore"%string <> CacheService.storeName)
    by (left; vm_compute; discriminate).
  split; [exact Hother|].
  exact (other_stores_untouched (H := browser) (CallFlush Success)
           Scenario.stored Scenario.service "Elsewhere" "CacheStore" Hother).
Defined.

Lemma quiet_service_prints_nothing_witness :
  CacheService.verbose Scenario.quiet = false /\
  console (fst (run (H := browser) (CallInit Success) Scenario.origin
                  Scenario.quiet))
  = console Scenario.origin.
Proof.
  split; [reflexivity|].
  exact (quiet_service_prints_nothing (H := browser) (CallInit Success)
           Scenario.origin Scenario.quiet eq_refl).
Defined.

Lemma upgrade_empties_cache_witness :
  CacheService.db Cases.second = None /\
  from_option version 0
    (databases Scenario.stored !! CacheService.dbName Cases.second)
  < CacheService.dbVersion Cases.second /\
  fst (fst (CacheService.init Success Scenario.stored Cases.second))
  = Fulfilled true /\
  Ready (snd (fst (CacheService.init Success Scenario.stored Cases.second)))
    (snd (CacheService.init Success Scenario.stored Cases.second)) ∅ /\
  CacheService.get (H := browser) 1000 Success Success
    (snd (fst (CacheService.init Success Scenario.stored Cases.second)))
    (snd (CacheService.init Success Scenario.stored Cases.second)) "A"
  = (Rejected (Message ("Nothing found for " +:+ "A")),
     snd (fst (CacheService.init Success Scenario.stored Cases.second))).
Proof.
  assert (Hlow : from_option version 0
                   (databases Scenario.stored
                      !! CacheService.dbName Cases.second)
                 < CacheService.dbVersion Cases.second)
    by (vm_compute; reflexivity).
  assert (Hok : fst (fst (CacheService.init Success Scenario.stored
                            Cases.second)) = Fulfilled true)
    by (vm_compute; reflexivity).
  split; [reflexivity|]. split; [exact Hlow|]. split; [exact Hok|].
  exact (upgrade_empties_cache (H := browser) 1000 Success Success
           Scenario.stored Cases.second "A" eq_refl Hlow Hok).
Defined.

Lemma same_version_keeps_entries_witness :
  CacheService.db Scenario.fresh = None /\
  databases Scenario.stored !! CacheService.dbName Scenario.fresh
  = Some Cases.database /\
  version Cases.database = CacheService.dbVersion Scenario.fresh /\
  objectStores Cases.database !! CacheService.storeName = Some Scenario.store /\
  fst (fst (CacheService.init Success Scenario.stored Scenario.fresh))
  = Fulfilled true /\
  snd (fst (CacheService.init Success Scenario.stored Scenario.fresh))
  = Scenario.stored /\
  Ready Scenario.stored
    (snd (CacheService.init Success Scenario.stored Scenario.fresh))
    Scenario.store.
Proof.
  assert (Hd : databases Scenario.stored !! CacheService.dbName Scenario.fresh
               = Some Cases.database) by (vm_compute; reflexivity).
  assert (Hst : objectStores Cases.database !! CacheService.storeName
                = Some Scenario.store) by (vm_compute; reflexivity).
  assert (Hok : fst (fst (CacheService.init Success Scenario.stored
                            Scenario.fresh)) = Fulfilled true)
    by (vm_compute; reflexivity).
  split; [reflexivity|]. split; [exact Hd|]. split; [reflexivity|].
  split; [exact Hst|]. split; [exact Hok|].
  exact (same_version_keeps_entries Success Scenario.stored Scenario.fresh
           Cases.database Scenario.store eq_refl Hd eq_refl Hst Hok).
Defined.

Lemma init_never_resolves_false_witness :
  fst (fst (CacheService.init Success Cases.third Scenario.fresh))
  = Rejected ReasonFalse /\
  (ReasonFalse = ReasonFalse \/ ReasonFalse = Thrown "TypeError") /\
  CacheService.db Scenario.fresh = None /\
  snd (fst (CacheService.init Success Cases.third Scenario.fresh))
  = Cases.third /\
  snd (CacheService.init Success Cases.third Scenario.fresh) = Scenario.fresh.
Proof.
  assert (Hr : fst (fst (CacheService.init Success Cases.third Scenario.fresh))
               = Rejected ReasonFalse) by (vm_compute; reflexivity).
  split; [exact Hr|].
  exact (proj2 (init_never_resolves_false Success Cases.third Scenario.fresh)
           ReasonFalse Hr).
Defined.

Lemma older_version_cannot_connect_witness :
  CacheService.db Scenario.fresh = None /\
  databases Cases.third !! CacheService.dbName Scenario.fresh
  = Some {| version := 3; objectStores := ∅ |} /\
  1 <= CacheService.dbVersion Scenario.fresh < 3 /\
  CacheService.dbVersion Scenario.fresh <= maxVersion /\
  CacheService.init Success Cases.third Scenario.fresh
  = (Rejected ReasonFalse, Cases.third, Scenario.fresh) /\
  CacheService.get (H := browser) 0 Success Success
    (snd (fst (CacheService.init Success Cases.third Scenario.fresh)))
    (snd (CacheService.init Success Cases.third Scenario.fresh)) "A"
  = (Rejected (Message "Database doesn't exist."), Cases.third).
Proof.
  assert (Hd : databases Cases.third !! CacheService.dbName Scenario.fresh
               = Some {| version := 3; objectStores := ∅ |})
    by (vm_compute; reflexivity).
  assert (Hv : 1 <= CacheService.dbVersion Scenario.fresh < 3)
    by (change (1 <= 1 < 3); lia).
  assert (Hmax : CacheService.dbVersion Scenario.fresh <= maxVersion)
    by (change (1 <= 9007199254740991); lia).
  split; [reflexivity|]. split; [exact Hd|]. split; [exact Hv|].
  split; [exact Hmax|].
  exact (older_version_cannot_connect (H := browser) 0 Success Success
           Cases.third Scenario.fresh {| version := 3; objectStores := ∅ |}
           "A" eq_refl Hd Hv Hmax).
Defined.

Lemma get_always_settles_witness :
  stores_readable (H := browser) Scenario.origin /\
  Forall puts_serializable Cases.session /\
  fst (CacheService.get (H := browser) 7200001 Success Success
         (fst (run_all (H := browser) Cases.session Scenario.origin
                 Scenario.fresh))
         (snd (run_all (H := browser) Cases.session Scenario.origin
                 Scenario.fresh))
         "A")
  <> Pending.
Proof.
  split; [exact stores_readable_origin|].
  split; [exact session_serializable|].
  exact (get_always_settles (H := browser) Cases.session Scenario.origin
           Scenario.fresh 7200001 Success Success "A"
           stores_readable_origin session_serializable).
Defined.

Lemma revised_agrees_by_default_witness :
  default true (@None bool) = true /\
  CacheServiceRevised.get (H := browser) 1000 Success Success Scenario.stored
    Scenario.service "A" None
  = CacheService.get (H := browser) 1000 Success Success Scenario.stored
      Scenario.service "A" /\
  CacheServiceRevised.put (H := browser) "1970-01-01T00:00:05.000Z" Success
    Scenario.stored Scenario.service "A" (Some (JNum 2)) (Some (Some 90000))
  = CacheService.put (H := browser) 5250 Success Scenario.stored
      Scenario.service "A" (Some (JNum 2)) (Some (Some 90000)).
Proof.
  split; [reflexivity|].
  exact (revised_agrees_by_default (H := browser) 1000
           "1970-01-01T00:00:05.000Z" Success Success Scenario.stored
           Scenario.service "A" None (Some (JNum 2)) (Some 90000) eq_refl).
Defined.

Lemma revised_flag_changes_miss_only_witness :
  fst (CacheService.get (H := browser) 0 Success Success Scenario.opened
         Scenario.service "missing")
  = Rejected (Message ("Nothing found for " +:+ "missing")) /\
  CacheServiceRevised.get (H := browser) 0 Success Success Scenario.opened
    Scenario.service "missing" (Some false)
  = (Fulfilled undefined, Scenario.opened) /\
  (fst (CacheService.get (H := browser) 1000 Success Success Scenario.stored
          Scenario.service "A")
   <> Rejected (Message ("Nothing found for " +:+ "A")) ->
   CacheServiceRevised.get (H := browser) 1000 Success Success Scenario.stored
     Scenario.service "A" (Some false)
   = CacheService.get (H := browser) 1000 Success Success Scenario.stored
       Scenario.service "A").
Proof.
  assert (Hmiss : fst (CacheService.get (H := browser) 0 Success Success
                         Scenario.opened Scenario.service "missing")
                  = Rejected (Message ("Nothing found for " +:+ "missing")))
    by (vm_compute; reflexivity).
  split; [exact Hmiss|]. split.
  - exact (proj1 (proj1 (revised_flag_changes_miss_only (H := browser) 0
                           Success Success Scenario.opened Scenario.service
                           "missing") Hmiss)).
  - exact (proj2 (revised_flag_changes_miss_only (H := browser) 1000
                    Success Success Scenario.stored Scenario.service "A")).
Defined.

Lemma revised_put_default_expiration_witness :
  Ready Scenario.opened Scenario.service ∅ /\
  serializable (Some Scenario.payload) /\
  Date_of_string (H := browser) "1970-01-01T00:00:05.000Z"
  = Some (5250 - 5250 mod 1000) /\
  Time.inRange (5250 + 3600000) /\ Time.inRange 5250 /\
  fst (CacheServiceRevised.put (H := browser) "1970-01-01T00:00:05.000Z"
         Success Scenario.opened Scenario.service "A"
         (Some Scenario.payload) None)
  = Fulfilled true /\
  Ready (snd (CacheServiceRevised.put (H := browser)
                "1970-01-01T00:00:05.000Z" Success Scenario.opened
                Scenario.service "A" (Some Scenario.payload) None))
    Scenario.service
    (<["A"%string := stringify_record (H := browser) (Some Scenario.payload)
                       (Some 3605000)]> ∅).
Proof.
  assert (Htoday : Date_of_string (H := browser) "1970-01-01T00:00:05.000Z"
                   = Some (5250 - 5250 mod 1000)) by (vm_compute; reflexivity).
  assert (Hhi : Time.inRange (5250 + 3600000))
    by (unfold Time.inRange, Time.maxTime; lia).
  assert (Hlo : Time.inRange 5250) by (unfold Time.inRange, Time.maxTime; lia).
  split; [exact ready_opened|]. split; [exact serializable_payload|].
  split; [exact Htoday|]. split; [exact Hhi|]. split; [exact Hlo|].
  destruct (revised_put_default_expiration (H := browser)
              "1970-01-01T00:00:05.000Z" 5250 0 Success Scenario.opened
              Scenario.service ∅ "A" (Some Scenario.payload)
              ready_opened serializable_payload Htoday Hhi Hlo)
    as (_ & Hp & HR & _).
  split; [exact Hp | exact HR].
Defined.

Lemma dateAdd_invalid_base_witness :
  Date_of_string (H := browser) "yesterday" = None /\
  DateHelper.dateAdd (H := browser) "yesterday" (Some DateHelper.month) 1
  = Some None.
Proof.
  assert (Hd : Date_of_string (H := browser) "yesterday" = None)
    by (vm_compute; reflexivity).
  split; [exact Hd|].
  exact (dateAdd_invalid_base (H := browser) "yesterday" DateHelper.month 1 Hd).
Defined.

Lemma dateAdd_zero_witness :
  Date_of_string (H := browser) "2024-01-31T12:00:00.000Z" = Some Cases.noon /\
  UTC (H := browser) (LocalTime (H := browser) Cases.noon) = Cases.noon /\
  DateHelper.dateAdd (H := browser) "2024-01-31T12:00:00.000Z"
    (Some DateHelper.year) 0
  = Some (Some Cases.noon).
Proof.
  assert (Hloc : UTC (H := browser) (LocalTime (H := browser) Cases.noon)
                 = Cases.noon) by (vm_compute; reflexivity).
  split; [exact noon_text|]. split; [exact Hloc|].
  exact (dateAdd_zero (H := browser) "2024-01-31T12:00:00.000Z" Cases.noon
           DateHelper.year noon_text Hloc).
Defined.

Lemma dateAdd_days_exact_witness :
  (forall u b, LocalTZA (Platform := browser) u b = 3600000) /\
  Date_of_string (H := browser) "2024-01-31T12:00:00.000Z" = Some Cases.noon /\
  DateHelper.dateAdd (H := browser) "2024-01-31T12:00:00.000Z"
    (Some DateHelper.day) 30
  = Some (Time.TimeClip (Cases.noon + 30 * 86400000)).
Proof.
  assert (Htz : forall u b, LocalTZA (Platform := browser) u b = 3600000)
    by (intros u b; reflexivity).
  split; [exact Htz|]. split; [exact noon_text|].
  exact (proj1 (dateAdd_days_exact (H := browser) 3600000
                  "2024-01-31T12:00:00.000Z" Cases.noon 30 Htz noon_text)).
Defined.

Lemma dateAdd_time_units_add_up_witness :
  DateHelper.dateAdd (H := browser) "2024-01-31T12:00:00.000Z"
    (Some DateHelper.hour) 2
  = Some (Some Cases.afternoon) /\
  DateHelper.dateAdd (H := browser)
    (toISOString (Platform := browser) Cases.afternoon) (Some DateHelper.hour) 3
  = DateHelper.dateAdd (H := browser) "2024-01-31T12:00:00.000Z"
      (Some DateHelper.hour) (2 + 3).
Proof.
  assert (Hu : DateHelper.dateAdd (H := browser) "2024-01-31T12:00:00.000Z"
                 (Some DateHelper.hour) 2 = Some (Some Cases.afternoon))
    by (vm_compute; reflexivity).
  split; [exact Hu|].
  exact (dateAdd_time_units_add_up (H := browser) "2024-01-31T12:00:00.000Z"
           DateHelper.hour 2 3 Cases.afternoon (or_introl eq_refl) Hu).
Defined.

Lemma dateAdd_month_fields_witness :
  (forall x, LocalTime (H := browser) (UTC (H := browser) x) = x) /\
  Date_of_string (H := browser) "2024-01-31T12:00:00.000Z" = Some Cases.noon /\
  DateHelper.dateAdd (H := browser) "2024-01-31T12:00:00.000Z"
    (Some DateHelper.month) 1
  = Some (Some Cases.march) /\
  getFullYear (H := browser) (Some Cases.march) = Some 2024 /\
  getMonth (H := browser) (Some Cases.march) = Some 2 /\
  getDate (H := browser) (Some Cases.march) = Some 2.
Proof.
  assert (Hr : DateHelper.dateAdd (H := browser) "2024-01-31T12:00:00.000Z"
                 (Some DateHelper.month) 1 = Some (Some Cases.march))
    by (vm_compute; reflexivity).
  split; [exact browser_local_time|]. split; [exact noon_text|].
  split; [exact Hr|].
  destruct (dateAdd_month_fields (H := browser) "2024-01-31T12:00:00.000Z"
              Cases.noon 1 Cases.march browser_local_time noon_text Hr)
    as (_ & _ & Hover).
  exact (Hover ltac:(vm_compute; reflexivity)).
Defined.

Lemma missing_store_is_permanent_witness :
  CacheService.db Scenario.service = Some Cases.handle /\
  transaction foreign Cases.handle CacheService.storeName
  = inl (Thrown "NotFoundError") /\
  CacheService.get (H := browser) 0 Success Success foreign Scenario.service "A"
  = (Rejected (Thrown "NotFoundError"), foreign) /\
  run_all (H := browser) Cases.session foreign Scenario.service
  = (foreign, Scenario.service).
Proof.
  assert (Htx : transaction foreign Cases.handle CacheService.storeName
                = inl (Thrown "NotFoundError")) by (vm_compute; reflexivity).
  split; [reflexivity|]. split; [exact Htx|].
  destruct (missing_store_is_permanent (H := browser) Cases.session 0 Success
              Success foreign Scenario.service Cases.handle
              (Thrown "NotFoundError") "A" None None eq_refl Htx)
    as (_ & Hg & _ & _ & _ & _ & Hall).
  split; [exact Hg | exact Hall].
Defined.
